(** * MTH9815 trading system: a shallow embedding of the service pipeline

    The C++ sources are a set of services (keyed stores with listeners)
    wired into a synchronous publish/subscribe graph.  This file embeds the
    parts of that graph that carry arithmetic or state:

    - [PriceUtils]           the fractional price codec;
    - [MarketDataService]    order books and [Aggregate]/[AggregateDepth];
    - [SimpleAlgoOrderFactory], [AlgoExecutionService], [ExecutionService];
    - [TradeBookingService], [PositionService], [RiskService];
    - [InquiryService]       and its re-entrant connector;
    - [PricingService]       with [AlgoStreamingService], [StreamingService]
                             and [GUIService] behind its listeners;
    - the text connectors.

    Conventions.
    - A C++ [long] is a [Z]; every arithmetic result is passed through
      [wrap64], the two's complement reduction to 64 bits.
    - A C++ [double] is an instance of the class [Double]; two instances are
      given, exact rationals ([Qc]) and IEEE binary64 ([spec_float]).
    - [std::map<string,_>] is a [gmap string _]; the one [unordered_map]
      keyed by a [double] is an association list, because [==] on doubles is
      not Leibniz equality.
    - A C++ function that may throw returns a [result]; a function that
      mutates a service is a state transformer in the monad [M].
    - A service keeps its listeners in a [vector] of pointers; here a
      listener is a constructor naming the adapter object, and [ProcessAdd]
      dispatches on it. *)

From Stdlib Require Import ZArith QArith Qcanon Qround String Ascii List Lia.
From Stdlib Require Import DecimalString DecimalN DecimalFacts.
From Stdlib Require Import SpecFloat.
From stdpp Require Import gmap strings list fin_maps.

Local Open Scope string_scope.
Local Open Scope list_scope.
Local Open Scope Z_scope.

(* ===================================================================== *)
(** * Machine integers *)
(* ===================================================================== *)

Module Long.

Definition LONG_MIN : Z := - 2 ^ 63.
Definition LONG_MAX : Z := 2 ^ 63 - 1.

(** The value of a 64-bit two's complement word holding [z] modulo 2^64. *)
Definition wrap64 (z : Z) : Z := (z + 2 ^ 63) mod 2 ^ 64 - 2 ^ 63.

Definition in_long (z : Z) : Prop := LONG_MIN <= z <= LONG_MAX.

Definition INT_MIN : Z := - 2 ^ 31.
Definition INT_MAX : Z := 2 ^ 31 - 1.

Definition in_int (z : Z) : bool := (INT_MIN <=? z) && (z <=? INT_MAX).

(** [a + b], [-a] on [long]. *)
Definition add (a b : Z) : Z := wrap64 (a + b).
Definition neg (a : Z) : Z := wrap64 (- a).

End Long.

Import Long.

(* ===================================================================== *)
(** * Exceptions and the result monad *)
(* ===================================================================== *)

(** The two exception classes the sources throw, with their messages. *)
Inductive exn : Type :=
| runtime_error (what : string)
| invalid_argument (what : string)
| out_of_range (what : string).

(** The outcome of running a C++ function: it returns, it throws, or the
    C++ standard gives the call no meaning (indexing a vector past its end,
    dereferencing [end()], converting an out-of-range double to [int]) or
    the numeral lies outside the modelled fragment of [std::stod]. *)
Inductive result (A : Type) : Type :=
| Ok (a : A)
| Throw (e : exn)
| Undef.

Arguments Ok {A} a.
Arguments Throw {A} e.
Arguments Undef {A}.

Definition rbind {A B} (r : result A) (k : A -> result B) : result B :=
  match r with
  | Ok a => k a
  | Throw e => Throw e
  | Undef => Undef
  end.

Definition is_Ok {A} (r : result A) : bool :=
  match r with Ok _ => true | _ => false end.

(** [result] is a monad; stdpp's notation [x ← r; k] is used for it. *)
#[global] Instance result_ret : MRet result := fun A a => Ok a.
#[global] Instance result_bind : MBind result := fun A B k r => rbind r k.

(** [v[i]] on a [std::vector]: no bounds check, so past the end is [Undef]. *)
Definition vec_at {A} (v : list A) (i : nat) : result A :=
  match v !! i with
  | Some a => Ok a
  | None => Undef
  end.

(* ===================================================================== *)
(** * The arithmetic of [double] *)
(* ===================================================================== *)

(** The operations on [double] that the sources use.  [d_of_Z] is the
    conversion of an integer (an [int] operand, or a literal such as
    [32.0]), [d_floor] is [std::floor], and [d_to_Z] is the integer that
    [static_cast<int>] truncates to ([None] for a NaN or an infinity).
    [d_pow x n] is [std::pow(x, n)] at an integral exponent, of either
    sign. *)
Class Double (D : Type) : Type := {
  d_of_Z : Z -> D;
  d_opp : D -> D;
  d_add : D -> D -> D;
  d_sub : D -> D -> D;
  d_mul : D -> D -> D;
  d_div : D -> D -> D;
  d_pow : D -> Z -> D;
  d_eqb : D -> D -> bool;
  d_ltb : D -> D -> bool;
  d_leb : D -> D -> bool;
  d_floor : D -> D;
  d_to_Z : D -> option Z;
  d_is_finite : D -> bool
}.

(** ** Exact rationals

    Every value the price codec meets is a multiple of 1/256 of magnitude
    below 2^31; binary64 represents these exactly and rounds none of the
    operations applied to them ([Binary64Exact] proves it), so on that
    grid the exact instance and the binary64 instance below describe the
    same computation. *)
Module Exact.

Definition of_Z (z : Z) : Qc := Q2Qc (inject_Z z).

Definition ltb (a b : Qc) : bool :=
  match (a ?= b)%Qc with Lt => true | _ => false end.

Definition leb (a b : Qc) : bool :=
  match (a ?= b)%Qc with Gt => false | _ => true end.

Definition floor (a : Qc) : Qc := of_Z (Qfloor a).

Definition to_Z (a : Qc) : option Z :=
  Some (Z.quot (Qnum a) (Zpos (Qden a))).

#[global] Instance double : Double Qc := {|
  d_of_Z := of_Z;
  d_opp := Qcopp;
  d_add := Qcplus;
  d_sub := Qcminus;
  d_mul := Qcmult;
  d_div := Qcdiv;
  d_pow := fun x n =>
    if n <? 0 then Qcinv (Qcpower x (Z.to_nat (- n))) else Qcpower x (Z.to_nat n);
  d_eqb := Qc_eq_bool;
  d_ltb := ltb;
  d_leb := leb;
  d_floor := floor;
  d_to_Z := to_Z;
  d_is_finite := fun _ => true
|}.

End Exact.

(** ** IEEE 754 binary64 *)
Module Binary64.

Definition prec : Z := 53.
Definition emax : Z := 1024.

Definition of_Z (z : Z) : spec_float := binary_normalize prec emax z 0 false.

(** The integer part of [m * 2^e] rounded toward minus infinity. *)
Definition floor_Z (s : bool) (m : positive) (e : Z) : Z :=
  let v := if s then Zneg m else Zpos m in
  match e with
  | Zneg k => Z.shiftr v (Zpos k)
  | _ => Z.shiftl v e
  end.

Definition floor (x : spec_float) : spec_float :=
  match x with
  | S754_finite s m e =>
      match e with
      | Zneg _ => binary_normalize prec emax (floor_Z s m e) 0 s
      | _ => x
      end
  | _ => x
  end.

(** The integer part of [m * 2^e] rounded toward zero. *)
Definition to_Z (x : spec_float) : option Z :=
  match x with
  | S754_zero _ => Some 0
  | S754_finite s m e =>
      let a := match e with
               | Zneg k => Z.shiftr (Zpos m) (Zpos k)
               | _ => Z.shiftl (Zpos m) e
               end in
      Some (if s then - a else a)
  | _ => None
  end.

Definition is_finite (x : spec_float) : bool :=
  match x with
  | S754_zero _ | S754_finite _ _ _ => true
  | _ => false
  end.

(** [std::pow(x, n)] at an integral exponent: the power of the value of
    [x], rounded once, to nearest even.  For a positive exponent the power
    of [m * 2^e] is the integer [m^n] at exponent [e * n]; for a negative
    one it is the quotient of 1 by that.  The exponent 0 gives 1 for every
    [x], a NaN stays a NaN, and zeros and infinities keep their sign for
    an odd exponent only. *)
Definition pow (x : spec_float) (n : Z) : spec_float :=
  if n =? 0 then of_Z 1 else
  match x with
  | S754_nan => S754_nan
  | S754_zero s =>
      if 0 <? n then S754_zero (s && Z.odd n) else S754_infinity (s && Z.odd n)
  | S754_infinity s =>
      if 0 <? n then S754_infinity (s && Z.odd n) else S754_zero (s && Z.odd n)
  | S754_finite s m e =>
      let k := Z.abs n in
      let sign := s && Z.odd n in
      let mk := Pos.pow m (Z.to_pos k) in
      if 0 <? n
      then binary_normalize prec emax (cond_Zopp sign (Zpos mk)) (e * k) false
      else SFdiv prec emax (S754_finite false 1 0) (S754_finite sign mk (e * k))
  end.

(** The rational number that a finite double stands for. *)
Definition to_Q (x : spec_float) : Q :=
  match x with
  | S754_finite s m e =>
      let v := cond_Zopp s (Zpos m) in
      match e with
      | Zneg k => v # (2 ^ k)%positive
      | _ => inject_Z (v * 2 ^ e)
      end
  | _ => 0%Q
  end.

#[global] Instance double : Double spec_float := {|
  d_of_Z := of_Z;
  d_opp := SFopp;
  d_add := SFadd prec emax;
  d_sub := SFsub prec emax;
  d_mul := SFmul prec emax;
  d_div := SFdiv prec emax;
  d_pow := pow;
  d_eqb := SFeqb;
  d_ltb := SFltb;
  d_leb := SFleb;
  d_floor := floor;
  d_to_Z := to_Z;
  d_is_finite := is_finite
|}.

End Binary64.

(* ===================================================================== *)
(** * Numerals: [std::to_string], [std::stol], [std::stod] *)
(* ===================================================================== *)

Module Numeral.

(** [std::to_string] on an [int] or a [long]. *)
Definition to_string (z : Z) : string := NilZero.string_of_int (Z.to_int z).

Definition is_digit (c : ascii) : bool :=
  let n := nat_of_ascii c in (48 <=? n)%nat && (n <=? 57)%nat.

(** [isspace] in the C locale. *)
Definition is_space (c : ascii) : bool :=
  let n := nat_of_ascii c in (n =? 32)%nat || ((9 <=? n)%nat && (n <=? 13)%nat).

Fixpoint skip_spaces (s : string) : string :=
  match s with
  | String c s' => if is_space c then skip_spaces s' else s
  | EmptyString => s
  end.

(** The longest prefix of decimal digits, and what follows it. *)
Fixpoint span_digits (s : string) : string * string :=
  match s with
  | String c s' =>
      if is_digit c
      then let '(ds, r) := span_digits s' in (String c ds, r)
      else (EmptyString, s)
  | EmptyString => (EmptyString, EmptyString)
  end.

Definition digits_value (ds : string) : Z :=
  match NilEmpty.uint_of_string ds with
  | Some d => Z.of_uint d
  | None => 0
  end.

(** An optional sign; [true] is minus. *)
Definition take_sign (s : string) : bool * string :=
  match s with
  | String "-" s' => (true, s')
  | String "+" s' => (false, s')
  | _ => (false, s)
  end.

(** [std::stol(s)] in base 10: leading white space, an optional sign, the
    longest run of digits; what follows the digits is ignored. *)
Definition stol (s : string) : result Z :=
  let '(neg, s1) := take_sign (skip_spaces s) in
  let '(ds, _) := span_digits s1 in
  match ds with
  | EmptyString => Throw (invalid_argument "stol")
  | _ =>
      let v := if neg then - digits_value ds else digits_value ds in
      if (LONG_MIN <=? v) && (v <=? LONG_MAX) then Ok v
      else Throw (out_of_range "stol")
  end.

Definition starts_with_any (cs : list ascii) (s : string) : bool :=
  match s with
  | String c _ => existsb (Ascii.eqb c) cs
  | EmptyString => false
  end.

(** [std::stod(s)] on numerals written as an optionally signed run of
    decimal digits.  A numeral with a fraction, an exponent, a hexadecimal
    prefix, or one of the words inf and nan is outside this fragment and
    yields [Undef]. *)
Definition stod {D} {dbl : Double D} (s : string) : result D :=
  let '(neg, s1) := take_sign (skip_spaces s) in
  let '(ds, r) := span_digits s1 in
  match ds with
  | EmptyString =>
      if starts_with_any ["."; "i"; "I"; "n"; "N"]%char r then Undef
      else Throw (invalid_argument "stod")
  | _ =>
      if starts_with_any ["."; "e"; "E"; "x"; "X"]%char r then Undef
      else
        let v := d_of_Z (digits_value ds) in
        if d_is_finite v then Ok (if neg then d_opp v else v)
        else Throw (out_of_range "stod")
  end.

End Numeral.

(* ===================================================================== *)
(** * PriceUtils: the fractional price codec *)
(* ===================================================================== *)

Module PriceUtils.

Import Numeral.

(** [s.find(c)]: the index of the first occurrence, [None] for [npos]. *)
Fixpoint find (c : ascii) (s : string) : option nat :=
  match s with
  | EmptyString => None
  | String a s' => if Ascii.eqb a c then Some O else S <$> find c s'
  end.

(** [s.substr(pos)]. *)
Definition substr_from (pos : nat) (s : string) : string :=
  substring pos (String.length s - pos) s.

(** [s[i] = c] for an index inside the string. *)
Fixpoint set_char (i : nat) (c : ascii) (s : string) : string :=
  match s, i with
  | EmptyString, _ => EmptyString
  | String _ s', O => String c s'
  | String a s', S i' => String a (set_char i' c s')
  end.

(** A [try { ... std::stod ... } catch (const std::exception&)] block
    that rethrows [invalid_argument] with its own message. *)
Definition rethrow {A} (msg : string) (r : result A) : result A :=
  match r with
  | Throw _ => Throw (invalid_argument msg)
  | _ => r
  end.

Section Codec.
Context {D : Type} {dbl : Double D}.

Definition FRACTIONAL_LENGTH : nat := 3.
Definition BASE32 : D := d_of_Z 32.
Definition BASE256 : D := d_of_Z 256.
Definition FRACTIONAL_THRESHOLD : Z := 8.

Definition Frac2Price (PriceFrac : string) : result D :=
  match find "-" PriceFrac with
  | None =>
      Throw (invalid_argument
        "Invalid format: Dash '-' not found. Expected format: 'X-XX+' or 'X-XXY'.")
  | Some posDash =>
      price1 ← rethrow "Invalid format: Integer part is not a valid number."
                 (stod (substring 0 posDash PriceFrac));
      let fractionalPart := substr_from (posDash + 1) PriceFrac in
      if negb (String.length fractionalPart =? FRACTIONAL_LENGTH)%nat then
        Throw (invalid_argument
          "Invalid format: Fractional part should be exactly 3 characters.")
      else
        let fractionalPart :=
          match String.get 2 fractionalPart with
          | Some "+"%char => set_char 2 "4" fractionalPart
          | _ => fractionalPart
          end in
        '(price32, price256) ←
          rethrow "Invalid format: Fractional part contains non-numeric characters."
            (a ← stod (substring 0 2 fractionalPart);
             b ← stod (substring 2 1 fractionalPart);
             Ok (d_div a BASE32, d_div b BASE256));
        Ok (d_add (d_add price1 price32) price256)
  end.

(** [static_cast<int>(x)]: truncation, undefined outside the range of
    [int]. *)
Definition cast_int (x : D) : result Z :=
  match d_to_Z x with
  | Some z => if in_int z then Ok z else Undef
  | None => Undef
  end.

Definition Price2Frac (price : D) : result string :=
  intpart ← cast_int (d_floor price);
  let fracpart := d_sub price (d_of_Z intpart) in
  xy ← cast_int (d_mul fracpart BASE32);
  z256 ← cast_int (d_mul fracpart BASE256);
  let z := Z.rem z256 FRACTIONAL_THRESHOLD in
  let fractionalString := to_string intpart +:+ "-" in
  let fractionalString :=
    fractionalString +:+ ((if xy <? 10 then "0" else "") +:+ to_string xy) in
  let fractionalString :=
    fractionalString +:+ (if z =? 4 then "+" else to_string z) in
  Ok fractionalString.

End Codec.

End PriceUtils.

Import PriceUtils.

(* ===================================================================== *)
(** * State: services mutate their stores; exceptions do not roll back *)
(* ===================================================================== *)

(** A member function acting on a system state [S].  The state that is
    returned next to a [Throw] is the state at the throw. *)
Definition M (S A : Type) : Type := S -> result A * S.

Definition m_ret {S A} (a : A) : M S A := fun s => (Ok a, s).

Definition m_bind {S A B} (m : M S A) (k : A -> M S B) : M S B :=
  fun s =>
    match m s with
    | (Ok a, s') => k a s'
    | (Throw e, s') => (Throw e, s')
    | (Undef, s') => (Undef, s')
    end.

#[global] Instance M_ret {S} : MRet (M S) := fun A a => m_ret a.
#[global] Instance M_bind {S} : MBind (M S) := fun A B k m => m_bind m k.

Definition get {S} : M S S := fun s => (Ok s, s).
Definition gets {S A} (f : S -> A) : M S A := fun s => (Ok (f s), s).
Definition modify {S} (f : S -> S) : M S unit := fun s => (Ok tt, f s).
Definition lift {S A} (r : result A) : M S A := fun s => (r, s).

(** [for (auto x : xs) body(x);] *)
Fixpoint for_each {S X} (xs : list X) (body : X -> M S unit) : M S unit :=
  match xs with
  | [] => m_ret tt
  | x :: xs' => m_bind (body x) (fun _ => for_each xs' body)
  end.

(* ===================================================================== *)
(** * Products and the static tables *)
(* ===================================================================== *)

(** Modelled from the spec: [products.hpp] is not among the sources.  A
    bond carries its CUSIP, ticker, coupon and maturity; the coupon is kept
    in units of 1/100000 and the maturity as the date string given to
    [from_string]. *)
Record Bond : Type := mkBond {
  productId : string;
  ticker : string;
  coupon : Z;
  maturity : string
}.

(** Modelled from the spec: the default-constructed [Bond], which
    [operator[]] on a map of books stores under a fresh key. *)
Definition default_Bond : Bond := mkBond "" "" 0 "".

#[global] Instance Bond_eq_dec : EqDecision Bond.
Proof. solve_decision. Defined.

Module ProductFactory.

Definition productConstructors : list (string * Bond) :=
  [ ("91282CAV3", mkBond "91282CAV3" "US2Y" 4500 "2026/11/30");
    ("91282CBL4", mkBond "91282CBL4" "US3Y" 4750 "2027/12/15");
    ("91282CCB5", mkBond "91282CCB5" "US5Y" 4875 "2029/11/30");
    ("91282CCS8", mkBond "91282CCS8" "US7Y" 5000 "2031/11/30");
    ("91282CDH2", mkBond "91282CDH2" "US10Y" 5125 "2034/12/15");
    ("912810TM0", mkBond "912810TM0" "US20Y" 5250 "2044/12/15");
    ("912810TL2", mkBond "912810TL2" "US30Y" 5375 "2054/12/15") ].

(** [std::map::find] on a table given as its list of entries. *)
Fixpoint table_find {A} (key : string) (t : list (string * A)) : option A :=
  match t with
  | [] => None
  | (k, a) :: t' => if String.eqb k key then Some a else table_find key t'
  end.

Definition QueryProduct (cusip : string) : result Bond :=
  match table_find cusip productConstructors with
  | None => Throw (invalid_argument ("Unknown CUSIP: " +:+ cusip))
  | Some b => Ok b
  end.

End ProductFactory.

Module BondAnalytics.

Section Analytics.
Context {D : Type} {dbl : Double D}.

(** A decimal literal [n / 10^k]. *)
Definition lit (n : Z) (k : Z) : D := d_div (d_of_Z n) (d_of_Z (10 ^ k)).

(** The body of the [for (int t = 1; t <= n; ++t)] loop, run from [t]
    for [fuel] rounds. *)
Fixpoint pv_loop (fuel : nat) (t : Z) (coupon rate : D) (presentValue : D) : D :=
  match fuel with
  | O => presentValue
  | S fuel' =>
      pv_loop fuel' (t + 1) coupon rate
        (d_add presentValue (d_div coupon (d_pow rate t)))
  end.

Definition CalculatePV (faceValue couponRate yieldRate : D)
           (yearsToMaturity frequency : Z) : D :=
  let coupon := d_div (d_mul faceValue couponRate) (d_of_Z frequency) in
  let rate := d_add (d_of_Z 1) (d_div yieldRate (d_of_Z frequency)) in
  let n := yearsToMaturity * frequency in
  let presentValue := pv_loop (Z.to_nat n) 1 coupon rate (d_of_Z 0) in
  d_add presentValue (d_div faceValue (d_pow rate n)).

Definition CalculatePV01 (faceValue couponRate yieldRate : D)
           (yearsToMaturity frequency : Z) : D :=
  let pvInitial := CalculatePV faceValue couponRate yieldRate yearsToMaturity frequency in
  let pvAdjusted :=
    CalculatePV faceValue couponRate (d_add yieldRate (lit 1 4))
                yearsToMaturity frequency in
  d_sub pvInitial pvAdjusted.

(** The entries of [pv01Map]: coupon, yield and years to maturity. *)
Definition pv01Map : list (string * (D * D * Z)) :=
  [ ("91282CAV3", (lit 4500 5, lit 464 4, 2));
    ("91282CBL4", (lit 4750 5, lit 440 4, 3));
    ("91282CCB5", (lit 4875 5, lit 412 4, 5));
    ("91282CCS8", (lit 5000 5, lit 430 4, 7));
    ("91282CDH2", (lit 5125 5, lit 428 4, 10));
    ("912810TM0", (lit 5250 5, lit 461 4, 20));
    ("912810TL2", (lit 5375 5, lit 443 4, 30)) ].

Definition QueryPV01 (cusip : string) : result D :=
  match ProductFactory.table_find cusip pv01Map with
  | None => Throw (invalid_argument ("Unknown CUSIP: " +:+ cusip))
  | Some (c, y, n) => Ok (CalculatePV01 (d_of_Z 1000) c y n 2)
  end.

End Analytics.

End BondAnalytics.

(* ===================================================================== *)
(** * Text records *)
(* ===================================================================== *)

Module Text.

(** The [while (getline(stream, token, ','))] loop: the fields between
    commas.  A last field that is empty is not produced, because
    [getline] fails at the end of the stream before extracting it. *)
Fixpoint split_commas_aux (cur : string) (s : string) : list string :=
  match s with
  | EmptyString =>
      match cur with
      | EmptyString => []
      | _ => [cur]
      end
  | String c s' =>
      if Ascii.eqb c ","
      then cur :: split_commas_aux EmptyString s'
      else split_commas_aux (cur +:+ String c EmptyString) s'
  end.

Definition split_commas (line : string) : list string :=
  split_commas_aux EmptyString line.

End Text.

(* ===================================================================== *)
(** * Entities *)
(* ===================================================================== *)

Inductive PricingSide : Type := BID | OFFER.
Inductive Side : Type := BUY | SELL.
Inductive OrderType : Type := FOK | IOC | MARKET | LIMIT | STOP.
Inductive Market : Type := BROKERTEC | ESPEED | CME.
Inductive InquiryState : Type :=
  RECEIVED | QUOTED | DONE | REJECTED | CUSTOMER_REJECTED.

#[global] Instance PricingSide_eq_dec : EqDecision PricingSide.
Proof. solve_decision. Defined.
#[global] Instance Side_eq_dec : EqDecision Side.
Proof. solve_decision. Defined.
#[global] Instance InquiryState_eq_dec : EqDecision InquiryState.
Proof. solve_decision. Defined.

Section Entities.
Context {D : Type}.

Record Price : Type := mkPrice {
  price_product : Bond;
  mid : D;
  bidOfferSpread : D
}.

Record Order : Type := mkOrder {
  order_price : D;
  order_quantity : Z;
  order_side : PricingSide
}.

Record BidOffer : Type := mkBidOffer {
  bidOrder : Order;
  offerOrder : Order
}.

Record OrderBook : Type := mkOrderBook {
  book_product : Bond;
  bidStack : list Order;
  offerStack : list Order
}.

Record ExecutionOrder : Type := mkExecutionOrder {
  eo_product : Bond;
  eo_side : PricingSide;
  orderId : string;
  orderType : OrderType;
  eo_price : D;
  visibleQuantity : Z;
  hiddenQuantity : Z;
  parentOrderId : string;
  isChildOrder : bool
}.

Record AlgoExecution : Type := mkAlgoExecution {
  executionOrderRef : ExecutionOrder;
  market : Market
}.

Record Trade : Type := mkTrade {
  trade_product : Bond;
  tradeId : string;
  trade_price : D;
  book : string;
  trade_quantity : Z;
  trade_side : Side
}.

Record Position : Type := mkPosition {
  position_product : Bond;
  bookPositionData : gmap string Z
}.

Record PV01 : Type := mkPV01 {
  pv01_product : Bond;
  pv01 : D;
  pv01_quantity : Z
}.

(** [PriceStreamOrder], [PriceStream] and [AlgoStream].  An [AlgoStream]
    holds a reference to its [PriceStream]; the stream it refers to is
    alive whenever the reference is followed. *)
Record PriceStreamOrder : Type := mkPriceStreamOrder {
  pso_price : D;
  pso_visibleQuantity : Z;
  pso_hiddenQuantity : Z;
  pso_side : PricingSide
}.

Record PriceStream : Type := mkPriceStream {
  stream_product : Bond;
  stream_bidOrder : PriceStreamOrder;
  stream_offerOrder : PriceStreamOrder
}.

Record AlgoStream : Type := mkAlgoStream {
  priceStreamRef : PriceStream
}.

Record Inquiry : Type := mkInquiry {
  inquiryId : string;
  inquiry_product : Bond;
  inquiry_side : Side;
  inquiry_quantity : Z;
  inquiry_price : D;
  inquiry_state : InquiryState
}.

End Entities.

Arguments Price : clear implicits.
Arguments Order : clear implicits.
Arguments BidOffer : clear implicits.
Arguments OrderBook : clear implicits.
Arguments ExecutionOrder : clear implicits.
Arguments AlgoExecution : clear implicits.
Arguments Trade : clear implicits.
Arguments Position : clear implicits.
Arguments PV01 : clear implicits.
Arguments Inquiry : clear implicits.
Arguments PriceStreamOrder : clear implicits.
Arguments PriceStream : clear implicits.
Arguments AlgoStream : clear implicits.

(** ** Position *)
Module PositionOps.

Definition GetPosition (p : Position) (book : string) : Z :=
  match bookPositionData p !! book with
  | Some q => q
  | None => 0
  end.

(** [std::accumulate] over the map with [sum + pair.second] on [long].
    The fold visits the entries in the order of [map_to_list] rather
    than in key order; the sum modulo 2^64 is the same in any order. *)
Definition GetAggregatePosition (p : Position) : Z :=
  map_fold (fun _ q sum => Long.add sum q) 0 (bookPositionData p).

(** [bookPositionData[book] += position]: a missing slot starts at 0. *)
Definition AddPosition (book : string) (position : Z) (p : Position) : Position :=
  mkPosition (position_product p)
    (<[book := Long.add (GetPosition p book) position]> (bookPositionData p)).

End PositionOps.

(** ** PV01 *)
Definition UpdateQuantity {D} (q : Z) (p : PV01 D) : PV01 D :=
  mkPV01 (pv01_product p) (pv01 p) (Long.add (pv01_quantity p) q).

(** ** OrderBook *)
Section OrderBookOps.
Context {D : Type} {dbl : Double D}.

Definition ComparePriceAsc (a b : Order D) : bool :=
  d_ltb (order_price a) (order_price b).

(** [std::max_element] with a comparator: the first largest element. *)
Fixpoint max_element_from (largest : Order D) (rest : list (Order D)) : Order D :=
  match rest with
  | [] => largest
  | x :: rest' =>
      max_element_from (if ComparePriceAsc largest x then x else largest) rest'
  end.

(** [std::min_element] with a comparator: the first smallest element. *)
Fixpoint min_element_from (smallest : Order D) (rest : list (Order D)) : Order D :=
  match rest with
  | [] => smallest
  | x :: rest' =>
      min_element_from (if ComparePriceAsc x smallest then x else smallest) rest'
  end.

(** On an empty stack the iterator returned is [end()], and
    dereferencing it is undefined. *)
Definition BestBidOffer (b : OrderBook D) : result (BidOffer D) :=
  match bidStack b, offerStack b with
  | bid0 :: bids, offer0 :: offers =>
      Ok (mkBidOffer (max_element_from bid0 bids) (min_element_from offer0 offers))
  | _, _ => Undef
  end.

End OrderBookOps.

(* ===================================================================== *)
(** * Aggregation of a stack of orders by price *)
(* ===================================================================== *)

(** The order in which a range-for visits an [unordered_map] is not
    specified: it is some permutation of the entries. *)
Class HashOrder (D : Type) : Type := {
  iteration_order : list (D * Z) -> list (D * Z);
  iteration_order_perm : forall l, Permutation (iteration_order l) l
}.

(** One admissible order: that of insertion. *)
Definition insertion_order (D : Type) : HashOrder D :=
  {| iteration_order := fun l => l;
     iteration_order_perm := fun l => Permutation_refl l |}.

(** Another: the reverse of insertion. *)
Definition reverse_order (D : Type) : HashOrder D :=
  {| iteration_order := @rev (D * Z);
     iteration_order_perm := fun l => Permutation_sym (Permutation_rev l) |}.

Section Aggregate.
Context {D : Type} {dbl : Double D} {ho : HashOrder D}.

(** [priceMap[p] += q] on an [unordered_map<double, long>], kept as the
    list of its entries.  Keys are compared with [==] on [double]; a key
    that equals no stored key gets a fresh slot that starts at 0. *)
Fixpoint priceMap_add (p : D) (q : Z) (priceMap : list (D * Z)) : list (D * Z) :=
  match priceMap with
  | [] => [(p, Long.add 0 q)]
  | (k, v) :: rest =>
      if d_eqb k p then (k, Long.add v q) :: rest
      else (k, v) :: priceMap_add p q rest
  end.

Definition fill_priceMap (stack : list (Order D)) : list (D * Z) :=
  fold_left (fun priceMap o => priceMap_add (order_price o) (order_quantity o) priceMap)
            stack [].

Definition Aggregate (stack : list (Order D)) (side : PricingSide) : list (Order D) :=
  map (fun '(price, quantity) => mkOrder price quantity side)
      (iteration_order (fill_priceMap stack)).

End Aggregate.

(* ===================================================================== *)
(** * Listeners *)
(* ===================================================================== *)

(** The adapter objects that the sources register with each service. *)
Inductive PriceListener : Type :=
  AlgoStreamingServiceListener | GUIServiceListener.
Inductive AlgoStreamListener : Type := StreamingServiceListener.
Inductive PriceStreamListener : Type := HistoricalStreamingListener.
Inductive OrderBookListener : Type := AlgoExecutionServiceListener.
Inductive AlgoExecutionListener : Type := ExecutionServiceListener.
Inductive ExecutionOrderListener : Type :=
  TradeBookingServiceListener | HistoricalExecutionListener.
Inductive TradeListener : Type := PositionServiceListener.
Inductive PositionListener : Type :=
  RiskServiceListener | HistoricalPositionListener.
Inductive PV01Listener : Type := HistoricalRiskListener.
Inductive InquiryListener : Type := HistoricalInquiryListener.

(* ===================================================================== *)
(** * HistoricalDataService *)
(* ===================================================================== *)

(** The cache [hisData] and the records appended to the result file, the
    earliest first. *)
Record HistoricalDataService (V : Type) : Type := mkHistorical {
  hisData : gmap string V;
  outFile : list V
}.
Arguments mkHistorical {V}.
Arguments hisData {V}.
Arguments outFile {V}.

Definition PersistData {V} (persistKey : string) (data : V)
  (h : HistoricalDataService V) : HistoricalDataService V :=
  mkHistorical (<[persistKey := data]> (hisData h)) (outFile h ++ [data]).

(** The order in which the arguments of a call are evaluated.  C++17
    evaluates one whole argument after the other, but leaves to the
    compiler in which order.  [size_first side] tells whether the
    [emplace_back] of [ParseOrderBook] for that side of the book reads
    the size before the price. *)
Class ArgOrder : Type := {
  size_first : PricingSide -> bool
}.

(** The arguments in the order written, and in the reverse order. *)
Definition left_to_right : ArgOrder := {| size_first := fun _ => false |}.
Definition right_to_left : ArgOrder := {| size_first := fun _ => true |}.

(** [std::mt19937] seen from outside: the [n]-th identifier drawn, for
    each requested length. *)
Record RandomGen : Type := mkRandomGen {
  drawn : nat;
  draw : nat -> Z -> string
}.

Definition GenerateRandomId (length : Z) (g : RandomGen) : string * RandomGen :=
  (draw g (drawn g) length, mkRandomGen (S (drawn g)) (draw g)).

(* ===================================================================== *)
(** * The trading pipeline:
      market data, algo execution, execution, booking, position, risk *)
(* ===================================================================== *)

Section Trading.
Context {D : Type} {dbl : Double D} {ho : HashOrder D} {ao : ArgOrder}.

(** The calls made on listeners and on [OnMessage], in the order made. *)
Inductive Call : Type :=
| OnMessage_OrderBook (b : OrderBook D)
| OnMessage_Trade (t : Trade D)
| ProcessAdd_OrderBook (l : OrderBookListener) (b : OrderBook D)
| ProcessAdd_AlgoExecution (l : AlgoExecutionListener) (a : AlgoExecution D)
| ProcessAdd_ExecutionOrder (l : ExecutionOrderListener) (o : ExecutionOrder D)
| ProcessAdd_Trade (l : TradeListener) (t : Trade D)
| ProcessAdd_Position (l : PositionListener) (p : Position)
| ProcessAdd_PV01 (l : PV01Listener) (p : PV01 D).

Record System : Type := mkSystem {
  (* MarketDataService *)
  orderBookMap : gmap string (OrderBook D);
  md_listeners : list OrderBookListener;
  bookDepth : Z;
  (* AlgoExecutionService *)
  algoExecutionData : gmap string (AlgoExecution D);
  algo_listeners : list AlgoExecutionListener;
  algo_count : Z;
  gen : RandomGen;
  (* ExecutionService *)
  executionOrderData : gmap string (ExecutionOrder D);
  exec_listeners : list ExecutionOrderListener;
  (* TradeBookingService and its TradeBookingServiceListener *)
  tradeData : gmap string (Trade D);
  trade_listeners : list TradeListener;
  tb_count : Z;
  (* PositionService *)
  positionData : gmap string Position;
  position_listeners : list PositionListener;
  (* RiskService *)
  pv01Data : gmap string (PV01 D);
  risk_listeners : list PV01Listener;
  (* HistoricalDataService, one per persisted type *)
  historicalPosition : HistoricalDataService Position;
  historicalRisk : HistoricalDataService (PV01 D);
  historicalExecution : HistoricalDataService (ExecutionOrder D);
  (* ghost: the calls made so far *)
  calls : list Call
}.

Definition set_orderBookMap f s :=
  mkSystem (f (orderBookMap s)) (md_listeners s) (bookDepth s) (algoExecutionData s)
    (algo_listeners s) (algo_count s) (gen s) (executionOrderData s) (exec_listeners s)
    (tradeData s) (trade_listeners s) (tb_count s) (positionData s) (position_listeners s)
    (pv01Data s) (risk_listeners s) (historicalPosition s) (historicalRisk s)
    (historicalExecution s) (calls s).
Definition set_md_listeners f s :=
  mkSystem (orderBookMap s) (f (md_listeners s)) (bookDepth s) (algoExecutionData s)
    (algo_listeners s) (algo_count s) (gen s) (executionOrderData s) (exec_listeners s)
    (tradeData s) (trade_listeners s) (tb_count s) (positionData s) (position_listeners s)
    (pv01Data s) (risk_listeners s) (historicalPosition s) (historicalRisk s)
    (historicalExecution s) (calls s).
Definition set_algoExecutionData f s :=
  mkSystem (orderBookMap s) (md_listeners s) (bookDepth s) (f (algoExecutionData s))
    (algo_listeners s) (algo_count s) (gen s) (executionOrderData s) (exec_listeners s)
    (tradeData s) (trade_listeners s) (tb_count s) (positionData s) (position_listeners s)
    (pv01Data s) (risk_listeners s) (historicalPosition s) (historicalRisk s)
    (historicalExecution s) (calls s).
Definition set_algo_listeners f s :=
  mkSystem (orderBookMap s) (md_listeners s) (bookDepth s) (algoExecutionData s)
    (f (algo_listeners s)) (algo_count s) (gen s) (executionOrderData s) (exec_listeners s)
    (tradeData s) (trade_listeners s) (tb_count s) (positionData s) (position_listeners s)
    (pv01Data s) (risk_listeners s) (historicalPosition s) (historicalRisk s)
    (historicalExecution s) (calls s).
Definition set_algo_count f s :=
  mkSystem (orderBookMap s) (md_listeners s) (bookDepth s) (algoExecutionData s)
    (algo_listeners s) (f (algo_count s)) (gen s) (executionOrderData s) (exec_listeners s)
    (tradeData s) (trade_listeners s) (tb_count s) (positionData s) (position_listeners s)
    (pv01Data s) (risk_listeners s) (historicalPosition s) (historicalRisk s)
    (historicalExecution s) (calls s).
Definition set_gen f s :=
  mkSystem (orderBookMap s) (md_listeners s) (bookDepth s) (algoExecutionData s)
    (algo_listeners s) (algo_count s) (f (gen s)) (executionOrderData s) (exec_listeners s)
    (tradeData s) (trade_listeners s) (tb_count s) (positionData s) (position_listeners s)
    (pv01Data s) (risk_listeners s) (historicalPosition s) (historicalRisk s)
    (historicalExecution s) (calls s).
Definition set_executionOrderData f s :=
  mkSystem (orderBookMap s) (md_listeners s) (bookDepth s) (algoExecutionData s)
    (algo_listeners s) (algo_count s) (gen s) (f (executionOrderData s)) (exec_listeners s)
    (tradeData s) (trade_listeners s) (tb_count s) (positionData s) (position_listeners s)
    (pv01Data s) (risk_listeners s) (historicalPosition s) (historicalRisk s)
    (historicalExecution s) (calls s).
Definition set_exec_listeners f s :=
  mkSystem (orderBookMap s) (md_listeners s) (bookDepth s) (algoExecutionData s)
    (algo_listeners s) (algo_count s) (gen s) (executionOrderData s) (f (exec_listeners s))
    (tradeData s) (trade_listeners s) (tb_count s) (positionData s) (position_listeners s)
    (pv01Data s) (risk_listeners s) (historicalPosition s) (historicalRisk s)
    (historicalExecution s) (calls s).
Definition set_tradeData f s :=
  mkSystem (orderBookMap s) (md_listeners s) (bookDepth s) (algoExecutionData s)
    (algo_listeners s) (algo_count s) (gen s) (executionOrderData s) (exec_listeners s)
    (f (tradeData s)) (trade_listeners s) (tb_count s) (positionData s) (position_listeners s)
    (pv01Data s) (risk_listeners s) (historicalPosition s) (historicalRisk s)
    (historicalExecution s) (calls s).
Definition set_trade_listeners f s :=
  mkSystem (orderBookMap s) (md_listeners s) (bookDepth s) (algoExecutionData s)
    (algo_listeners s) (algo_count s) (gen s) (executionOrderData s) (exec_listeners s)
    (tradeData s) (f (trade_listeners s)) (tb_count s) (positionData s) (position_listeners s)
    (pv01Data s) (risk_listeners s) (historicalPosition s) (historicalRisk s)
    (historicalExecution s) (calls s).
Definition set_tb_count f s :=
  mkSystem (orderBookMap s) (md_listeners s) (bookDepth s) (algoExecutionData s)
    (algo_listeners s) (algo_count s) (gen s) (executionOrderData s) (exec_listeners s)
    (tradeData s) (trade_listeners s) (f (tb_count s)) (positionData s) (position_listeners s)
    (pv01Data s) (risk_listeners s) (historicalPosition s) (historicalRisk s)
    (historicalExecution s) (calls s).
Definition set_positionData f s :=
  mkSystem (orderBookMap s) (md_listeners s) (bookDepth s) (algoExecutionData s)
    (algo_listeners s) (algo_count s) (gen s) (executionOrderData s) (exec_listeners s)
    (tradeData s) (trade_listeners s) (tb_count s) (f (positionData s)) (position_listeners s)
    (pv01Data s) (risk_listeners s) (historicalPosition s) (historicalRisk s)
    (historicalExecution s) (calls s).
Definition set_position_listeners f s :=
  mkSystem (orderBookMap s) (md_listeners s) (bookDepth s) (algoExecutionData s)
    (algo_listeners s) (algo_count s) (gen s) (executionOrderData s) (exec_listeners s)
    (tradeData s) (trade_listeners s) (tb_count s) (positionData s) (f (position_listeners s))
    (pv01Data s) (risk_listeners s) (historicalPosition s) (historicalRisk s)
    (historicalExecution s) (calls s).
Definition set_pv01Data f s :=
  mkSystem (orderBookMap s) (md_listeners s) (bookDepth s) (algoExecutionData s)
    (algo_listeners s) (algo_count s) (gen s) (executionOrderData s) (exec_listeners s)
    (tradeData s) (trade_listeners s) (tb_count s) (positionData s) (position_listeners s)
    (f (pv01Data s)) (risk_listeners s) (historicalPosition s) (historicalRisk s)
    (historicalExecution s) (calls s).
Definition set_risk_listeners f s :=
  mkSystem (orderBookMap s) (md_listeners s) (bookDepth s) (algoExecutionData s)
    (algo_listeners s) (algo_count s) (gen s) (executionOrderData s) (exec_listeners s)
    (tradeData s) (trade_listeners s) (tb_count s) (positionData s) (position_listeners s)
    (pv01Data s) (f (risk_listeners s)) (historicalPosition s) (historicalRisk s)
    (historicalExecution s) (calls s).
Definition set_historicalPosition f s :=
  mkSystem (orderBookMap s) (md_listeners s) (bookDepth s) (algoExecutionData s)
    (algo_listeners s) (algo_count s) (gen s) (executionOrderData s) (exec_listeners s)
    (tradeData s) (trade_listeners s) (tb_count s) (positionData s) (position_listeners s)
    (pv01Data s) (risk_listeners s) (f (historicalPosition s)) (historicalRisk s)
    (historicalExecution s) (calls s).
Definition set_historicalRisk f s :=
  mkSystem (orderBookMap s) (md_listeners s) (bookDepth s) (algoExecutionData s)
    (algo_listeners s) (algo_count s) (gen s) (executionOrderData s) (exec_listeners s)
    (tradeData s) (trade_listeners s) (tb_count s) (positionData s) (position_listeners s)
    (pv01Data s) (risk_listeners s) (historicalPosition s) (f (historicalRisk s))
    (historicalExecution s) (calls s).
Definition set_historicalExecution f s :=
  mkSystem (orderBookMap s) (md_listeners s) (bookDepth s) (algoExecutionData s)
    (algo_listeners s) (algo_count s) (gen s) (executionOrderData s) (exec_listeners s)
    (tradeData s) (trade_listeners s) (tb_count s) (positionData s) (position_listeners s)
    (pv01Data s) (risk_listeners s) (historicalPosition s) (historicalRisk s)
    (f (historicalExecution s)) (calls s).
Definition set_calls f s :=
  mkSystem (orderBookMap s) (md_listeners s) (bookDepth s) (algoExecutionData s)
    (algo_listeners s) (algo_count s) (gen s) (executionOrderData s) (exec_listeners s)
    (tradeData s) (trade_listeners s) (tb_count s) (positionData s) (position_listeners s)
    (pv01Data s) (risk_listeners s) (historicalPosition s) (historicalRisk s)
    (historicalExecution s) (f (calls s)).

Definition record (c : Call) : M System unit :=
  modify (set_calls (fun cs => cs ++ [c])).


(** ** HistoricalDataServiceListener::ProcessAdd *)

Definition HistoricalRisk_ProcessAdd (data : PV01 D) : M System unit :=
  modify (set_historicalRisk (PersistData (productId (pv01_product data)) data)).

Definition HistoricalPosition_ProcessAdd (data : Position) : M System unit :=
  modify (set_historicalPosition (PersistData (productId (position_product data)) data)).

Definition HistoricalExecution_ProcessAdd (data : ExecutionOrder D) : M System unit :=
  modify (set_historicalExecution (PersistData (orderId data) data)).

(** ** RiskService *)

Definition RiskService_GetData (key : string) : M System (PV01 D) :=
  s ← get;
  match pv01Data s !! key with
  | Some v => m_ret v
  | None => lift (Throw (runtime_error ("Key not found: " +:+ key)))
  end.

Definition RiskService_AddListener (l : PV01Listener) : M System unit :=
  modify (set_risk_listeners (fun ls => ls ++ [l])).

Definition PV01Listener_ProcessAdd (l : PV01Listener) (data : PV01 D) : M System unit :=
  _ ← record (ProcessAdd_PV01 l data);
  match l with
  | HistoricalRiskListener => HistoricalRisk_ProcessAdd data
  end.

Definition RiskService_AddPosition (position : Position) : M System unit :=
  let product := position_product position in
  let productId := productId product in
  let quantity := PositionOps.GetAggregatePosition position in
  pv01Value ← lift (BondAnalytics.QueryPV01 productId);
  let pv01 := mkPV01 product pv01Value quantity in
  s ← get;
  _ ← match pv01Data s !! productId with
      | Some _ => modify (set_pv01Data (alter (UpdateQuantity quantity) productId))
      | None => modify (set_pv01Data (insert productId pv01))
      end;
  s ← get;
  for_each (risk_listeners s) (fun listener => PV01Listener_ProcessAdd listener pv01).

(** ** PositionService *)

Definition PositionService_GetData (key : string) : M System Position :=
  s ← get;
  match positionData s !! key with
  | Some v => m_ret v
  | None => lift (Throw (runtime_error ("Key not found: " +:+ key)))
  end.

Definition PositionService_AddListener (l : PositionListener) : M System unit :=
  modify (set_position_listeners (fun ls => ls ++ [l])).

Definition PositionListener_ProcessAdd (l : PositionListener) (data : Position)
  : M System unit :=
  _ ← record (ProcessAdd_Position l data);
  match l with
  | RiskServiceListener => RiskService_AddPosition data
  | HistoricalPositionListener => HistoricalPosition_ProcessAdd data
  end.

Definition signed_quantity (trade : Trade D) : Z :=
  match trade_side trade with
  | BUY => trade_quantity trade
  | SELL => Long.neg (trade_quantity trade)
  end.

Definition PositionService_AddTrade (trade : Trade D) : M System unit :=
  let product := trade_product trade in
  let productId := productId product in
  let book := book trade in
  let quantity := signed_quantity trade in
  s ← get;
  (* try_emplace(productId, product).first->second *)
  let position :=
    match positionData s !! productId with
    | Some p => p
    | None => mkPosition product ∅
    end in
  let position := PositionOps.AddPosition book quantity position in
  _ ← modify (set_positionData (insert productId position));
  for_each (position_listeners s)
           (fun listener => PositionListener_ProcessAdd listener position).

(** ** TradeBookingService *)

Definition TradeBookingService_GetData (key : string) : M System (Trade D) :=
  s ← get;
  match tradeData s !! key with
  | Some v => m_ret v
  | None => lift (Throw (runtime_error "Key not found"))
  end.

Definition TradeBookingService_AddListener (l : TradeListener) : M System unit :=
  modify (set_trade_listeners (fun ls => ls ++ [l])).

Definition TradeListener_ProcessAdd (l : TradeListener) (data : Trade D)
  : M System unit :=
  _ ← record (ProcessAdd_Trade l data);
  match l with
  | PositionServiceListener => PositionService_AddTrade data
  end.

Definition TradeBookingService_OnMessage (data : Trade D) : M System unit :=
  _ ← record (OnMessage_Trade data);
  let key := tradeId data in
  _ ← modify (set_tradeData (insert key data));
  s ← get;
  for_each (trade_listeners s) (fun listener => TradeListener_ProcessAdd listener data).

Definition TradeBookingService_BookTrade (trade : Trade D) : M System unit :=
  s ← get;
  for_each (trade_listeners s) (fun listener => TradeListener_ProcessAdd listener trade).

(** [TradeBookingServiceListener::ProcessAdd]: an [ExecutionOrder]
    becomes a [Trade] on the book chosen by the listener's counter. *)
Definition TradeBookingServiceListener_ProcessAdd (order : ExecutionOrder D)
  : M System unit :=
  let product := eo_product order in
  let orderId := orderId order in
  let price := eo_price order in
  let totalQuantity := Long.add (visibleQuantity order) (hiddenQuantity order) in
  let tradeSide := match eo_side order with BID => BUY | OFFER => SELL end in
  s ← get;
  let count := tb_count s in
  _ ← modify (set_tb_count (fun c => Long.add c 1));
  let book := "TRSY" +:+ Numeral.to_string (Long.add (Z.rem count 3) 1) in
  let trade := mkTrade product orderId price book totalQuantity tradeSide in
  TradeBookingService_BookTrade trade.


(** ** ExecutionService *)

Definition ExecutionService_GetData (key : string) : M System (ExecutionOrder D) :=
  s ← get;
  match executionOrderData s !! key with
  | Some v => m_ret v
  | None => lift (Throw (runtime_error "Specified key not found"))
  end.

Definition ExecutionService_AddListener (l : ExecutionOrderListener) : M System unit :=
  modify (set_exec_listeners (fun ls => ls ++ [l])).

Definition ExecutionOrderListener_ProcessAdd (l : ExecutionOrderListener)
  (data : ExecutionOrder D) : M System unit :=
  _ ← record (ProcessAdd_ExecutionOrder l data);
  match l with
  | TradeBookingServiceListener => TradeBookingServiceListener_ProcessAdd data
  | HistoricalExecutionListener => HistoricalExecution_ProcessAdd data
  end.

Definition ExecutionService_AddExecutionOrder (algoExecution : AlgoExecution D)
  : M System unit :=
  let executionOrder := executionOrderRef algoExecution in
  let orderId := orderId executionOrder in
  _ ← modify (set_executionOrderData (fun m => <[orderId := executionOrder]> (delete orderId m)));
  s ← get;
  for_each (exec_listeners s)
           (fun listener => ExecutionOrderListener_ProcessAdd listener executionOrder).

(** The service is constructed with [connector(nullptr)], so
    [ExecuteOrder] publishes nothing. *)
Definition ExecutionService_ExecuteOrder (order : ExecutionOrder D) (market : Market)
  : M System unit := m_ret tt.

Definition ExecutionServiceListener_ProcessAdd (data : AlgoExecution D) : M System unit :=
  _ ← ExecutionService_AddExecutionOrder data;
  ExecutionService_ExecuteOrder (executionOrderRef data) (market data).

(** ** SimpleAlgoOrderFactory and AlgoExecutionService *)

Definition RandomId (length : Z) : M System string :=
  s ← get;
  let '(id, g) := GenerateRandomId length (gen s) in
  _ ← modify (set_gen (fun _ => g));
  m_ret id.

Definition CreateExecutionOrder (orderBook : OrderBook D) (count : Z)
  : M System (ExecutionOrder D) :=
  let product := book_product orderBook in
  id1 ← RandomId 11;
  let orderId := "Algo" +:+ id1 in
  id2 ← RandomId 5;
  let parentOrderId := "AlgoParent" +:+ id2 in
  bidOffer ← lift (BestBidOffer orderBook);
  let bid := bidOrder bidOffer in
  let offer := offerOrder bidOffer in
  let bidPrice := order_price bid in
  let offerPrice := order_price offer in
  let bidQuantity := order_quantity bid in
  let offerQuantity := order_quantity offer in
  let '(side, price, quantity) :=
    if d_leb (d_sub offerPrice bidPrice) (d_div (d_of_Z 1) (d_of_Z 128)) then
      if Z.rem count 2 =? 0 then (BID, offerPrice, bidQuantity)
      else (OFFER, bidPrice, offerQuantity)
    else (BID, bidPrice, bidQuantity) in
  let visibleQuantity := quantity in
  let hiddenQuantity := 0 in
  let isChildOrder := false in
  let orderType := MARKET in
  m_ret (mkExecutionOrder product side orderId orderType price visibleQuantity
           hiddenQuantity parentOrderId isChildOrder).

Definition AlgoExecutionService_GetData (key : string) : M System (AlgoExecution D) :=
  s ← get;
  match algoExecutionData s !! key with
  | Some v => m_ret v
  | None => lift (Throw (runtime_error "Key not found"))
  end.

Definition AlgoExecutionService_AddListener (l : AlgoExecutionListener) : M System unit :=
  modify (set_algo_listeners (fun ls => ls ++ [l])).

Definition AlgoExecutionListener_ProcessAdd (l : AlgoExecutionListener)
  (data : AlgoExecution D) : M System unit :=
  _ ← record (ProcessAdd_AlgoExecution l data);
  match l with
  | ExecutionServiceListener => ExecutionServiceListener_ProcessAdd data
  end.

Definition AlgoExecuteOrder (orderBook : OrderBook D) : M System unit :=
  s ← get;
  execOrder ← CreateExecutionOrder orderBook (algo_count s);
  _ ← modify (set_algo_count (fun c => Long.add c 1));
  let algoExecutionObj := mkAlgoExecution execOrder BROKERTEC in
  let key := productId (eo_product execOrder) in
  _ ← modify (set_algoExecutionData (insert key algoExecutionObj));
  s ← get;
  for_each (algo_listeners s)
           (fun l => AlgoExecutionListener_ProcessAdd l algoExecutionObj).

(** ** MarketDataService *)

Definition default_OrderBook : OrderBook D := mkOrderBook default_Bond [] [].

(** [orderBookMap[key]]: a missing key is first given a
    default-constructed book. *)
Definition orderBookMap_at (key : string) : M System (OrderBook D) :=
  s ← get;
  match orderBookMap s !! key with
  | Some b => m_ret b
  | None =>
      _ ← modify (set_orderBookMap (insert key default_OrderBook));
      m_ret default_OrderBook
  end.

Definition MarketDataService_GetData (key : string) : M System (OrderBook D) :=
  s ← get;
  _ ← match orderBookMap s !! key with
      | None =>
          product ← lift (ProductFactory.QueryProduct key);
          modify (set_orderBookMap (insert key (mkOrderBook product [] [])))
      | Some _ => m_ret tt
      end;
  orderBookMap_at key.

Definition MarketDataService_AddListener (l : OrderBookListener) : M System unit :=
  modify (set_md_listeners (fun ls => ls ++ [l])).

Definition OrderBookListener_ProcessAdd (l : OrderBookListener) (data : OrderBook D)
  : M System unit :=
  _ ← record (ProcessAdd_OrderBook l data);
  match l with
  | AlgoExecutionServiceListener => AlgoExecuteOrder data
  end.

Definition MarketDataService_OnMessage (data : OrderBook D) : M System unit :=
  _ ← record (OnMessage_OrderBook data);
  let key := productId (book_product data) in
  _ ← modify (set_orderBookMap (insert key data));
  s ← get;
  for_each (md_listeners s) (fun listener => OrderBookListener_ProcessAdd listener data).

Definition MarketDataService_BestBidOffer (productId : string) : M System (BidOffer D) :=
  b ← orderBookMap_at productId;
  lift (BestBidOffer b).

Definition AggregateDepth (productId : string) : M System (OrderBook D) :=
  orderBook ← orderBookMap_at productId;
  let orderBook :=
    mkOrderBook (book_product orderBook)
                (Aggregate (bidStack orderBook) BID)
                (Aggregate (offerStack orderBook) OFFER) in
  _ ← modify (set_orderBookMap (insert productId orderBook));
  m_ret orderBook.

(** ** MarketDataConnector *)

(** The arguments of
    [emplace_back(Frac2Price(fields[p]), stol(fields[q]), side)], each
    evaluated as a whole, in the order that [ao] gives for the call. *)
Definition read_order (fields : list string) (p q : nat) (side : PricingSide)
  : result (D * Z) :=
  if size_first side then
    f_size ← vec_at fields q;
    size ← Numeral.stol f_size;
    f_price ← vec_at fields p;
    price ← Frac2Price f_price;
    Ok (price, size)
  else
    f_price ← vec_at fields p;
    price ← Frac2Price f_price;
    f_size ← vec_at fields q;
    size ← Numeral.stol f_size;
    Ok (price, size).

(** One round of the loop in [ParseOrderBook]: the book stored under
    [productId] gets one more bid and one more offer. *)
Definition parse_level (fields : list string) (productId : string) (i : nat)
  : M System unit :=
  bid ← lift (read_order fields (4 * i + 2) (4 * i + 3) BID);
  _ ← modify (set_orderBookMap (alter (fun b =>
         mkOrderBook (book_product b) (bidStack b ++ [mkOrder bid.1 bid.2 BID])
                     (offerStack b)) productId));
  ask ← lift (read_order fields (4 * i + 4) (4 * i + 5) OFFER);
  modify (set_orderBookMap (alter (fun b =>
         mkOrderBook (book_product b) (bidStack b)
                     (offerStack b ++ [mkOrder ask.1 ask.2 OFFER])) productId)).

Definition ParseOrderBook (line : string) : M System (OrderBook D) :=
  let fields := Text.split_commas line in
  productId ← lift (vec_at fields 1);
  _ ← MarketDataService_GetData productId;
  s ← get;
  _ ← for_each (seq 0 (Z.to_nat (bookDepth s))) (parse_level fields productId);
  AggregateDepth productId.

(** [Subscribe] on a stream given as its lines: the header is skipped,
    then every line is parsed and handed to [OnMessage]. *)
Definition MarketDataConnector_Subscribe (dataStream : list string) : M System unit :=
  for_each (tail dataStream)
           (fun line =>
              orderBook ← ParseOrderBook line;
              MarketDataService_OnMessage orderBook).

(** ** TradeBookingConnector *)

Definition TradeBookingConnector_Subscribe (data : list string) : M System unit :=
  for_each data
    (fun line =>
       let tokens := Text.split_commas line in
       productId ← lift (vec_at tokens 0);
       product ← lift (ProductFactory.QueryProduct productId);
       tradeId ← lift (vec_at tokens 1);
       t2 ← lift (vec_at tokens 2);
       price ← lift (Frac2Price t2);
       book ← lift (vec_at tokens 3);
       t4 ← lift (vec_at tokens 4);
       quantity ← lift (Numeral.stol t4);
       t5 ← lift (vec_at tokens 5);
       let side := if String.eqb t5 "BUY" then BUY else SELL in
       TradeBookingService_OnMessage
         (mkTrade product tradeId price book quantity side)).

(** ** Wiring *)

(** The services as constructed in [main], before [InitializeServices]. *)
Definition initial_System (g : RandomGen) : System :=
  mkSystem ∅ [] 5 ∅ [] 0 g ∅ [] ∅ [] 0 ∅ [] ∅ []
           (mkHistorical ∅ []) (mkHistorical ∅ []) (mkHistorical ∅ []) [].

(** The [AddListener] calls of [InitializeServices] that concern this
    pipeline, in their order. *)
Definition InitializeServices : M System unit :=
  _ ← MarketDataService_AddListener AlgoExecutionServiceListener;
  _ ← AlgoExecutionService_AddListener ExecutionServiceListener;
  _ ← ExecutionService_AddListener TradeBookingServiceListener;
  _ ← TradeBookingService_AddListener PositionServiceListener;
  _ ← PositionService_AddListener RiskServiceListener;
  _ ← PositionService_AddListener HistoricalPositionListener;
  _ ← ExecutionService_AddListener HistoricalExecutionListener;
  RiskService_AddListener HistoricalRiskListener.

Definition wired_System (g : RandomGen) : System :=
  snd (InitializeServices (initial_System g)).

End Trading.

(* ===================================================================== *)
(** * GUIService *)
(* ===================================================================== *)

Section GUIModel.
Context {D : Type}.

(** [throttle], [startTime] as the reading of the clock, and the prices
    handed to [GUIConnector::Publish], the earliest first. *)
Record GUIService : Type := mkGUIService {
  throttle : Z;
  startTime : Z;
  gui_published : list (Price D)
}.

(** The service as its constructor leaves it, at clock reading [now]. *)
Definition new_GUIService (now : Z) : GUIService := mkGUIService 300 now [].

(** [PublishThrottledPrice], with the number of ticks of
    [std::chrono::system_clock] in a millisecond and the reading of the
    clock that its call of [system_clock::now()] returns.  The difference
    of two readings is a signed 64-bit count of ticks; [duration_cast] to
    milliseconds truncates. *)
Definition PublishThrottledPrice (ticks_per_ms : Z) (now : Z) (price : Price D)
    (g : GUIService) : result GUIService :=
  if (LONG_MIN <=? now - startTime g) && (now - startTime g <=? LONG_MAX) then
    let diff := Z.quot (now - startTime g) ticks_per_ms in
    if throttle g <? diff
    then Ok (mkGUIService (throttle g) now (gui_published g ++ [price]))
    else Ok g
  else Undef.

End GUIModel.

Arguments GUIService : clear implicits.

(** [std::chrono::system_clock] as [GUIService] sees it: the number of
    ticks in a millisecond, and the reading that its [n]-th call of
    [now()] returns, the call in the constructor being the first. *)
Record Clock : Type := mkClock {
  clock_ticks_per_ms : Z;
  reading : nat -> Z
}.

(* ===================================================================== *)
(** * PricingService, its connector and its listeners *)
(* ===================================================================== *)

Section Pricing.
Context {D : Type} {dbl : Double D}.

(** The calls made on [PricingService] and on its listeners, in the
    order made. *)
Inductive PricingCall : Type :=
| OnMessage_Price (p : Price D)
| ProcessAdd_Price (l : PriceListener) (p : Price D).

(** [PricingService] and the services that its listeners belong to:
    [AlgoStreamingService], [StreamingService] with the historical
    service for price streams, and [GUIService] with the clock. *)
Record PricingSystem : Type := mkPricingSystem {
  (* PricingService *)
  priceData : gmap string (Price D);
  pricing_listeners : list PriceListener;
  (* AlgoStreamingService *)
  algoStreamData : gmap string (AlgoStream D);
  priceStreamsStorage : gmap string (PriceStream D);
  algoStream_listeners : list AlgoStreamListener;
  algoStream_count : Z;
  (* StreamingService *)
  priceStreamData : gmap string (PriceStream D);
  priceStream_listeners : list PriceStreamListener;
  historicalStreaming : HistoricalDataService (PriceStream D);
  (* GUIService *)
  guiService : GUIService D;
  clock : Clock;
  clock_reads : nat;
  (* ghost: the calls made so far *)
  pricing_calls : list PricingCall
}.

Definition set_priceData f s :=
  mkPricingSystem (f (priceData s)) (pricing_listeners s) (algoStreamData s)
    (priceStreamsStorage s) (algoStream_listeners s) (algoStream_count s)
    (priceStreamData s) (priceStream_listeners s) (historicalStreaming s) (guiService s)
    (clock s) (clock_reads s) (pricing_calls s).
Definition set_pricing_listeners f s :=
  mkPricingSystem (priceData s) (f (pricing_listeners s)) (algoStreamData s)
    (priceStreamsStorage s) (algoStream_listeners s) (algoStream_count s)
    (priceStreamData s) (priceStream_listeners s) (historicalStreaming s) (guiService s)
    (clock s) (clock_reads s) (pricing_calls s).
Definition set_algoStreamData f s :=
  mkPricingSystem (priceData s) (pricing_listeners s) (f (algoStreamData s))
    (priceStreamsStorage s) (algoStream_listeners s) (algoStream_count s)
    (priceStreamData s) (priceStream_listeners s) (historicalStreaming s) (guiService s)
    (clock s) (clock_reads s) (pricing_calls s).
Definition set_priceStreamsStorage f s :=
  mkPricingSystem (priceData s) (pricing_listeners s) (algoStreamData s) (f
    (priceStreamsStorage s)) (algoStream_listeners s) (algoStream_count s)
    (priceStreamData s) (priceStream_listeners s) (historicalStreaming s) (guiService s)
    (clock s) (clock_reads s) (pricing_calls s).
Definition set_algoStream_listeners f s :=
  mkPricingSystem (priceData s) (pricing_listeners s) (algoStreamData s)
    (priceStreamsStorage s) (f (algoStream_listeners s)) (algoStream_count s)
    (priceStreamData s) (priceStream_listeners s) (historicalStreaming s) (guiService s)
    (clock s) (clock_reads s) (pricing_calls s).
Definition set_algoStream_count f s :=
  mkPricingSystem (priceData s) (pricing_listeners s) (algoStreamData s)
    (priceStreamsStorage s) (algoStream_listeners s) (f (algoStream_count s))
    (priceStreamData s) (priceStream_listeners s) (historicalStreaming s) (guiService s)
    (clock s) (clock_reads s) (pricing_calls s).
Definition set_priceStreamData f s :=
  mkPricingSystem (priceData s) (pricing_listeners s) (algoStreamData s)
    (priceStreamsStorage s) (algoStream_listeners s) (algoStream_count s) (f
    (priceStreamData s)) (priceStream_listeners s) (historicalStreaming s)
    (guiService s) (clock s) (clock_reads s) (pricing_calls s).
Definition set_priceStream_listeners f s :=
  mkPricingSystem (priceData s) (pricing_listeners s) (algoStreamData s)
    (priceStreamsStorage s) (algoStream_listeners s) (algoStream_count s)
    (priceStreamData s) (f (priceStream_listeners s)) (historicalStreaming s)
    (guiService s) (clock s) (clock_reads s) (pricing_calls s).
Definition set_historicalStreaming f s :=
  mkPricingSystem (priceData s) (pricing_listeners s) (algoStreamData s)
    (priceStreamsStorage s) (algoStream_listeners s) (algoStream_count s)
    (priceStreamData s) (priceStream_listeners s) (f (historicalStreaming s))
    (guiService s) (clock s) (clock_reads s) (pricing_calls s).
Definition set_guiService f s :=
  mkPricingSystem (priceData s) (pricing_listeners s) (algoStreamData s)
    (priceStreamsStorage s) (algoStream_listeners s) (algoStream_count s)
    (priceStreamData s) (priceStream_listeners s) (historicalStreaming s) (f
    (guiService s)) (clock s) (clock_reads s) (pricing_calls s).
Definition set_clock_reads f s :=
  mkPricingSystem (priceData s) (pricing_listeners s) (algoStreamData s)
    (priceStreamsStorage s) (algoStream_listeners s) (algoStream_count s)
    (priceStreamData s) (priceStream_listeners s) (historicalStreaming s) (guiService s)
    (clock s) (f (clock_reads s)) (pricing_calls s).
Definition set_pricing_calls f s :=
  mkPricingSystem (priceData s) (pricing_listeners s) (algoStreamData s)
    (priceStreamsStorage s) (algoStream_listeners s) (algoStream_count s)
    (priceStreamData s) (priceStream_listeners s) (historicalStreaming s) (guiService s)
    (clock s) (clock_reads s) (f (pricing_calls s)).

(** ** HistoricalDataServiceListener::ProcessAdd on a price stream *)

Definition HistoricalStreaming_ProcessAdd (data : PriceStream D) : M PricingSystem unit :=
  modify (set_historicalStreaming (PersistData (productId (stream_product data)) data)).

(** ** StreamingService *)

Definition StreamingService_AddListener (l : PriceStreamListener) : M PricingSystem unit :=
  modify (set_priceStream_listeners (fun ls => ls ++ [l])).

Definition PriceStreamListener_ProcessAdd (l : PriceStreamListener) (data : PriceStream D)
  : M PricingSystem unit :=
  match l with
  | HistoricalStreamingListener => HistoricalStreaming_ProcessAdd data
  end.

Definition StreamingService_AddPriceStream (algoStream : AlgoStream D)
  : M PricingSystem unit :=
  let priceStream := priceStreamRef algoStream in
  let key := productId (stream_product priceStream) in
  _ ← modify (set_priceStreamData (fun m => <[key := priceStream]> (delete key m)));
  s ← get;
  for_each (priceStream_listeners s)
           (fun l => PriceStreamListener_ProcessAdd l priceStream).

(** [connector->Publish(priceStream)].  The constructor of
    [StreamingService] initialises [streamingServiceListener] only, and
    nothing assigns [connector]: the call goes through an indeterminate
    pointer. *)
Definition StreamingService_PublishPrice (priceStream : PriceStream D)
  : M PricingSystem unit :=
  lift Undef.

Definition StreamingServiceListener_ProcessAdd (data : AlgoStream D)
  : M PricingSystem unit :=
  _ ← StreamingService_AddPriceStream data;
  StreamingService_PublishPrice (priceStreamRef data).

(** ** AlgoStreamingService *)

Definition AlgoStreamingService_AddListener (l : AlgoStreamListener)
  : M PricingSystem unit :=
  modify (set_algoStream_listeners (fun ls => ls ++ [l])).

Definition AlgoStreamListener_ProcessAdd (l : AlgoStreamListener) (data : AlgoStream D)
  : M PricingSystem unit :=
  match l with
  | StreamingServiceListener => StreamingServiceListener_ProcessAdd data
  end.

Definition PublishAlgoStream (price : Price D) : M PricingSystem unit :=
  let product := price_product price in
  let key := productId product in
  let mid := mid price in
  let spread := bidOfferSpread price in
  let bidPrice := d_sub mid (d_div spread (d_of_Z 2)) in
  let offerPrice := d_add mid (d_div spread (d_of_Z 2)) in
  s ← get;
  let visibleQuantity := if Z.rem (algoStream_count s) 2 =? 0 then 1000000 else 2000000 in
  let hiddenQuantity := wrap64 (visibleQuantity * 2) in
  _ ← modify (set_algoStream_count (fun c => Long.add c 1));
  let bidOrder := mkPriceStreamOrder bidPrice visibleQuantity hiddenQuantity BID in
  let offerOrder := mkPriceStreamOrder offerPrice visibleQuantity hiddenQuantity OFFER in
  let priceStream := mkPriceStream product bidOrder offerOrder in
  let algoStream := mkAlgoStream priceStream in
  _ ← modify (set_algoStreamData (fun m => <[key := algoStream]> (delete key m)));
  s ← get;
  _ ← for_each (algoStream_listeners s)
               (fun l => AlgoStreamListener_ProcessAdd l algoStream);
  modify (set_priceStreamsStorage (insert key priceStream)).

(** ** GUIServiceListener *)

Definition GUIServiceListener_ProcessAdd (price : Price D) : M PricingSystem unit :=
  s ← get;
  let now := reading (clock s) (clock_reads s) in
  _ ← modify (set_clock_reads S);
  g ← lift (PublishThrottledPrice (clock_ticks_per_ms (clock s)) now price
                                  (guiService s));
  modify (set_guiService (fun _ => g)).

(** ** PricingService *)

Definition PricingService_GetData (key : string) : M PricingSystem (Price D) :=
  s ← get;
  match priceData s !! key with
  | Some v => m_ret v
  | None => lift (Throw (runtime_error ("Key not found: " +:+ key)))
  end.

Definition PricingService_AddListener (l : PriceListener) : M PricingSystem unit :=
  modify (set_pricing_listeners (fun ls => ls ++ [l])).

Definition PriceListener_ProcessAdd (l : PriceListener) (data : Price D)
  : M PricingSystem unit :=
  _ ← modify (set_pricing_calls (fun cs => cs ++ [ProcessAdd_Price l data]));
  match l with
  | AlgoStreamingServiceListener => PublishAlgoStream data
  | GUIServiceListener => GUIServiceListener_ProcessAdd data
  end.

Definition PricingService_OnMessage (data : Price D) : M PricingSystem unit :=
  _ ← modify (set_pricing_calls (fun cs => cs ++ [OnMessage_Price data]));
  let key := productId (price_product data) in
  _ ← modify (set_priceData (fun m => <[key := data]> (delete key m)));
  s ← get;
  for_each (pricing_listeners s) (fun l => PriceListener_ProcessAdd l data).

(** The body of the [while (getline(_data, line))] loop. *)
Definition PricingConnector_line (line : string) : M PricingSystem unit :=
  let splitdata := Text.split_commas line in
  productID ← lift (vec_at splitdata 1);
  f2 ← lift (vec_at splitdata 2);
  bid ← lift (Frac2Price f2);
  f3 ← lift (vec_at splitdata 3);
  ask ← lift (Frac2Price f3);
  let mid := d_div (d_add bid ask) (d_of_Z 2) in
  let spread := d_sub ask bid in
  product ← lift (ProductFactory.QueryProduct productID);
  let price := mkPrice product mid spread in
  PricingService_OnMessage price.

Definition PricingConnector_Subscribe (_data : list string) : M PricingSystem unit :=
  for_each (tail _data) PricingConnector_line.

(** The services as constructed in [main], before [InitializeServices];
    the constructor of [GUIService] reads the clock. *)
Definition initial_PricingSystem (c : Clock) : PricingSystem :=
  mkPricingSystem ∅ [] ∅ ∅ [] 0 ∅ [] (mkHistorical ∅ [])
                  (new_GUIService (reading c 0)) c 1 [].

(** The [AddListener] calls of [InitializeServices] that concern prices,
    in their order. *)
Definition InitializePricing : M PricingSystem unit :=
  _ ← PricingService_AddListener AlgoStreamingServiceListener;
  _ ← PricingService_AddListener GUIServiceListener;
  _ ← AlgoStreamingService_AddListener StreamingServiceListener;
  StreamingService_AddListener HistoricalStreamingListener.

Definition wired_PricingSystem (c : Clock) : PricingSystem :=
  snd (InitializePricing (initial_PricingSystem c)).

End Pricing.

(* ===================================================================== *)
(** * InquiryService and its connector *)
(* ===================================================================== *)

Section InquiryService.
Context {D : Type} {dbl : Double D}.

Inductive InquiryCall : Type :=
| OnMessage_Inquiry (i : Inquiry D)
| Publish_Inquiry (i : Inquiry D)
| ProcessAdd_Inquiry (l : InquiryListener) (i : Inquiry D).

Record InquirySystem : Type := mkInquirySystem {
  inquiryData : gmap string (Inquiry D);
  inquiry_listeners : list InquiryListener;
  historicalInquiry : HistoricalDataService (Inquiry D);
  inquiry_calls : list InquiryCall
}.

Definition set_inquiryData f s :=
  mkInquirySystem (f (inquiryData s)) (inquiry_listeners s) (historicalInquiry s)
                  (inquiry_calls s).
Definition set_inquiry_listeners f s :=
  mkInquirySystem (inquiryData s) (f (inquiry_listeners s)) (historicalInquiry s)
                  (inquiry_calls s).
Definition set_historicalInquiry f s :=
  mkInquirySystem (inquiryData s) (inquiry_listeners s) (f (historicalInquiry s))
                  (inquiry_calls s).
Definition set_inquiry_calls f s :=
  mkInquirySystem (inquiryData s) (inquiry_listeners s) (historicalInquiry s)
                  (f (inquiry_calls s)).

Definition SetState (state : InquiryState) (i : Inquiry D) : Inquiry D :=
  mkInquiry (inquiryId i) (inquiry_product i) (inquiry_side i) (inquiry_quantity i)
            (inquiry_price i) state.

Definition InquiryService_GetData (key : string) : M InquirySystem (Inquiry D) :=
  s ← get;
  match inquiryData s !! key with
  | Some v => m_ret v
  | None => lift (Throw (runtime_error "Key not found"))
  end.

Definition InquiryService_AddListener (l : InquiryListener) : M InquirySystem unit :=
  modify (set_inquiry_listeners (fun ls => ls ++ [l])).

Definition InquiryListener_ProcessAdd (l : InquiryListener) (data : Inquiry D)
  : M InquirySystem unit :=
  _ ← modify (set_inquiry_calls (fun cs => cs ++ [ProcessAdd_Inquiry l data]));
  match l with
  | HistoricalInquiryListener =>
      modify (set_historicalInquiry (PersistData (inquiryId data) data))
  end.

(** [OnMessage] and [InquiryConnector::Publish] call each other.  Both
    take the inquiry by reference and may change its state; here they
    take the caller's object and return it as they leave it.  [Publish]
    is given the [OnMessage] it re-enters. *)
Definition InquiryConnector_Publish (OnMessage : Inquiry D -> M InquirySystem (Inquiry D))
  (data : Inquiry D) : M InquirySystem (Inquiry D) :=
  _ ← modify (set_inquiry_calls (fun cs => cs ++ [Publish_Inquiry data]));
  if decide (inquiry_state data = RECEIVED) then
    OnMessage (SetState QUOTED data)
  else m_ret data.

Definition OnMessage_body (OnMessage : Inquiry D -> M InquirySystem (Inquiry D))
  (data : Inquiry D) : M InquirySystem (Inquiry D) :=
  _ ← modify (set_inquiry_calls (fun cs => cs ++ [OnMessage_Inquiry data]));
  let state := inquiry_state data in
  let key := inquiryId data in
  data ← match state with
         | RECEIVED => InquiryConnector_Publish OnMessage data
         | QUOTED =>
             let data := SetState DONE data in
             _ ← modify (set_inquiryData
                           (fun m => <[key := data]> (delete key m)));
             s ← get;
             _ ← for_each (inquiry_listeners s)
                          (fun listener => InquiryListener_ProcessAdd listener data);
             m_ret data
         | _ => m_ret data
         end;
  _ ← (if decide (inquiry_state data = DONE)
       then modify (set_inquiryData (delete (inquiryId data)))
       else modify (set_inquiryData (insert (inquiryId data) data)));
  s ← get;
  _ ← for_each (inquiry_listeners s)
               (fun listener => InquiryListener_ProcessAdd listener data);
  m_ret data.

(** [OnMessage] nested at most [depth] deep. *)
Fixpoint OnMessage_depth (depth : nat) (data : Inquiry D)
  : M InquirySystem (Inquiry D) :=
  match depth with
  | O => lift Undef
  | S depth' => OnMessage_body (OnMessage_depth depth') data
  end.

(** [Publish] re-enters only after it has left the state [RECEIVED], and
    only [RECEIVED] calls [Publish]: two levels are all that any inquiry
    uses ([OnMessage_depth_enough] below). *)
Definition InquiryService_OnMessage (data : Inquiry D) : M InquirySystem (Inquiry D) :=
  OnMessage_depth 2 data.

Definition StringToState (stateStr : string) : InquiryState :=
  if String.eqb stateStr "RECEIVED" then RECEIVED
  else if String.eqb stateStr "QUOTED" then QUOTED
  else if String.eqb stateStr "DONE" then DONE
  else if String.eqb stateStr "REJECTED" then REJECTED
  else CUSTOMER_REJECTED.

Definition InquiryConnector_Subscribe (_datafile : list string) : M InquirySystem unit :=
  for_each _datafile
    (fun line =>
       let tokens := Text.split_commas line in
       t1 ← lift (vec_at tokens 1);
       product ← lift (ProductFactory.QueryProduct t1);
       t2 ← lift (vec_at tokens 2);
       let side := if String.eqb t2 "BUY" then BUY else SELL in
       t3 ← lift (vec_at tokens 3);
       quantity ← lift (Numeral.stol t3);
       t4 ← lift (vec_at tokens 4);
       price ← lift (Frac2Price t4);
       t5 ← lift (vec_at tokens 5);
       let state := StringToState t5 in
       t0 ← lift (vec_at tokens 0);
       _ ← InquiryService_OnMessage (mkInquiry t0 product side quantity price state);
       m_ret tt).

Definition initial_InquirySystem : InquirySystem :=
  mkInquirySystem ∅ [] (mkHistorical ∅ []) [].

Definition wired_InquirySystem : InquirySystem :=
  snd (InquiryService_AddListener HistoricalInquiryListener initial_InquirySystem).

End InquiryService.

(* ===================================================================== *)
(** * The lookup of the remaining stores *)
(* ===================================================================== *)

(** [BaseService::GetData] (inherited by [GUIService]), and the same
    lookup as written in [AlgoStreamingService], [StreamingService] and
    [HistoricalDataService]: [find], then throw or return. *)
Definition BaseService_GetData {V} (dataMap : gmap string V) (key : string) : result V :=
  match dataMap !! key with
  | None => Throw (runtime_error "Key not found")
  | Some v => Ok v
  end.

Definition AlgoStreamingService_GetData {V} := @BaseService_GetData V.
Definition StreamingService_GetData {V} := @BaseService_GetData V.
Definition HistoricalDataService_GetData {V} (h : HistoricalDataService V) :=
  BaseService_GetData (hisData h).

(* ===================================================================== *)
(** * Facts about machine integers *)
(* ===================================================================== *)

Section LongFacts.

Lemma wrap64_range z : in_long (wrap64 z).
Proof.
  unfold in_long, wrap64, LONG_MIN, LONG_MAX.
  pose proof (Z.mod_pos_bound (z + 2 ^ 63) (2 ^ 64) ltac:(lia)). lia.
Qed.

Lemma wrap64_id z : in_long z -> wrap64 z = z.
Proof.
  unfold in_long, wrap64, LONG_MIN, LONG_MAX. intros Hz.
  rewrite Z.mod_small by lia. lia.
Qed.

Lemma wrap64_congr a b :
  a mod 2 ^ 64 = b mod 2 ^ 64 -> wrap64 a = wrap64 b.
Proof.
  intros E. unfold wrap64.
  rewrite <- (Zplus_mod_idemp_l a), <- (Zplus_mod_idemp_l b), E. reflexivity.
Qed.

Lemma wrap64_mod z : wrap64 z mod 2 ^ 64 = z mod 2 ^ 64.
Proof.
  unfold wrap64.
  rewrite <- Zminus_mod_idemp_l, Z.mod_mod by lia.
  rewrite Zminus_mod_idemp_l. f_equal. lia.
Qed.

Lemma wrap64_idem z : wrap64 (wrap64 z) = wrap64 z.
Proof. apply wrap64_congr, wrap64_mod. Qed.

Lemma wrap64_add_l a b : wrap64 (wrap64 a + b) = wrap64 (a + b).
Proof.
  apply wrap64_congr.
  rewrite <- Zplus_mod_idemp_l, wrap64_mod, Zplus_mod_idemp_l. reflexivity.
Qed.

Lemma wrap64_add_r a b : wrap64 (a + wrap64 b) = wrap64 (a + b).
Proof. rewrite (Z.add_comm a), wrap64_add_l. f_equal. lia. Qed.

Lemma wrap64_opp a : wrap64 (- wrap64 a) = wrap64 (- a).
Proof.
  apply wrap64_congr.
  rewrite <- (Z.sub_0_l (wrap64 a)), <- (Z.sub_0_l a).
  rewrite <- Zminus_mod_idemp_r, wrap64_mod, Zminus_mod_idemp_r. reflexivity.
Qed.

End LongFacts.

(* ===================================================================== *)
(** * Facts about the state monad *)
(* ===================================================================== *)

Section MonadFacts.
Context {S : Type}.

Lemma bind_Ok {A B} (m : M S A) (k : A -> M S B) s a s' :
  m s = (Ok a, s') -> (x ← m; k x) s = k a s'.
Proof. intros E. unfold mbind, M_bind, m_bind. rewrite E. reflexivity. Qed.

Lemma bind_Throw {A B} (m : M S A) (k : A -> M S B) s e s' :
  m s = (Throw e, s') -> (x ← m; k x) s = (Throw e, s').
Proof. intros E. unfold mbind, M_bind, m_bind. rewrite E. reflexivity. Qed.

Lemma bind_Undef {A B} (m : M S A) (k : A -> M S B) s s' :
  m s = (Undef, s') -> (x ← m; k x) s = (Undef, s').
Proof. intros E. unfold mbind, M_bind, m_bind. rewrite E. reflexivity. Qed.



(** A loop whose rounds all return and keep an invariant. *)
Lemma for_each_inv {X} (P : S -> Prop) (xs : list X) (body : X -> M S unit) :
  (forall x s, x ∈ xs -> P s -> exists s', body x s = (Ok tt, s') /\ P s') ->
  forall s, P s -> exists s', for_each xs body s = (Ok tt, s') /\ P s'.
Proof.
  induction xs as [|x xs IH]; intros Hbody s Hs; simpl.
  - eauto.
  - destruct (Hbody x s) as (s1 & E & H1); [left | done |].
    unfold m_bind. rewrite E. apply IH; [|done].
    intros y s0 Hy. apply Hbody. by right.
Qed.

(** A computation that leaves a component [f] of the state alone,
    whatever its outcome. *)
Definition preserves {A X} (f : S -> X) (m : M S A) : Prop :=
  forall s, f (snd (m s)) = f s.

Lemma preserves_ret {A X} (f : S -> X) (a : A) : preserves f (m_ret a).
Proof. done. Qed.

Lemma preserves_lift {A X} (f : S -> X) (r : result A) : preserves f (lift r).
Proof. done. Qed.

Lemma preserves_get {X} (f : S -> X) : preserves f get.
Proof. done. Qed.

Lemma preserves_bind {A B X} (f : S -> X) (m : M S A) (k : A -> M S B) :
  preserves f m -> (forall a, preserves f (k a)) -> preserves f (x ← m; k x).
Proof.
  intros Hm Hk s. unfold mbind, M_bind, m_bind.
  specialize (Hm s). destruct (m s) as [[a| |] s']; simpl in *; try done.
  rewrite Hk. done.
Qed.

Lemma preserves_for_each {X Y} (f : S -> X) (xs : list Y) (body : Y -> M S unit) :
  (forall y, preserves f (body y)) -> preserves f (for_each xs body).
Proof.
  intros Hb. induction xs as [|y ys IH]; [done|].
  simpl. apply (preserves_bind f (body y) (fun _ => for_each ys body)); auto.
Qed.

Lemma preserves_modify {X} (f : S -> X) (g : S -> S) :
  (forall s, f (g s) = f s) -> preserves f (modify g).
Proof. intros Hg s. apply Hg. Qed.

(** A computation that returns from every state. *)
Definition returns {A} (m : M S A) : Prop :=
  forall s, exists a, fst (m s) = Ok a.

Lemma returns_ret {A} (a : A) : returns (m_ret a).
Proof. intros s. by exists a. Qed.

Lemma returns_lift {A} (a : A) : returns (lift (Ok a)).
Proof. intros s. by exists a. Qed.

Lemma returns_get : returns get.
Proof. intros s. by exists s. Qed.

Lemma returns_modify (g : S -> S) : returns (modify g).
Proof. intros s. by exists tt. Qed.

Lemma returns_bind {A B} (m : M S A) (k : A -> M S B) :
  returns m -> (forall a, returns (k a)) -> returns (x ← m; k x).
Proof.
  intros Hm Hk s. unfold mbind, M_bind, m_bind.
  destruct (Hm s) as [a Ha]. destruct (m s) as [[a'| |] s']; simpl in *; try done.
  apply Hk.
Qed.

Lemma returns_for_each {Y} (xs : list Y) (body : Y -> M S unit) :
  (forall y, returns (body y)) -> returns (for_each xs body).
Proof.
  intros Hb. induction xs as [|y ys IH]; [apply returns_ret|].
  simpl. apply (returns_bind (body y) (fun _ => for_each ys body)); auto.
Qed.

Lemma returns_unit (m : M S unit) s : returns m -> m s = (Ok tt, snd (m s)).
Proof. intros Hm. destruct (Hm s) as [[] E]. destruct (m s); simpl in *. by subst. Qed.

(** A computation that only appends to a log [tr] kept in the state,
    and appends only entries that satisfy [P]. *)
Definition emits {A C} (tr : S -> list C) (P : C -> Prop) (m : M S A) : Prop :=
  forall s, exists extra, tr (snd (m s)) = tr s ++ extra /\ Forall P extra.

Lemma emits_silent {A C} (tr : S -> list C) P (m : M S A) :
  preserves tr m -> emits tr P m.
Proof. intros Hm s. exists []. rewrite Hm, app_nil_r. done. Qed.

Lemma emits_bind {A B C} (tr : S -> list C) P (m : M S A) (k : A -> M S B) :
  emits tr P m -> (forall a, emits tr P (k a)) -> emits tr P (x ← m; k x).
Proof.
  intros Hm Hk s. unfold mbind, M_bind, m_bind.
  destruct (Hm s) as (e1 & E1 & F1).
  destruct (m s) as [[a| |] s']; simpl in *; try by eauto.
  destruct (Hk a s') as (e2 & E2 & F2).
  exists (e1 ++ e2). rewrite E2, E1, app_assoc. split; [done|].
  by apply Forall_app.
Qed.

Lemma emits_for_each {Y C} (tr : S -> list C) P (xs : list Y) (body : Y -> M S unit) :
  (forall y, emits tr P (body y)) -> emits tr P (for_each xs body).
Proof.
  intros Hb. induction xs as [|y ys IH].
  - apply emits_silent. done.
  - simpl. apply (emits_bind tr P (body y) (fun _ => for_each ys body)); auto.
Qed.

Lemma emits_modify {C} (tr : S -> list C) (P : C -> Prop) (g : S -> S) (c : C) :
  (forall s, tr (g s) = tr s ++ [c]) -> P c -> emits tr P (modify g).
Proof. intros Hg Hc s. exists [c]. split; [apply Hg | by constructor]. Qed.

End MonadFacts.

(* ===================================================================== *)
(** * Frames: which service touches which store *)
(* ===================================================================== *)

(** Walks through a computation built from [modify], [get], [lift], binds
    and loops, and checks that no [modify] changes the component. *)
Ltac preserve_step :=
  first
    [ apply preserves_ret
    | apply preserves_lift
    | apply preserves_get
    | apply preserves_modify; intros []; reflexivity
    | apply preserves_for_each; intros ?
    | apply preserves_bind; [| intros ?]
    | match goal with
      | |- preserves _ (match ?x with _ => _ end) => destruct x
      end ].

Ltac preserve := repeat preserve_step.

(** The same walk for [returns]; what is left are the calls that can
    throw. *)
Ltac returns_step :=
  first
    [ apply returns_ret
    | apply returns_lift
    | apply returns_get
    | apply returns_modify
    | apply returns_for_each; intros ?
    | apply returns_bind; [| intros ?]
    | match goal with
      | |- returns (match ?x with _ => _ end) => destruct x
      end ].

Ltac returning := repeat returns_step.

(** The same walk for [emits]: a [modify] either appends one entry to the
    log or leaves the log alone. *)
Ltac emits_step :=
  first
    [ apply emits_bind; [| intros ?]
    | apply emits_for_each; intros ?
    | eapply emits_modify; [intros []; reflexivity | simpl; tauto]
    | match goal with
      | |- emits _ _ (match ?x with _ => _ end) => destruct x
      end
    | apply emits_silent; solve [preserve] ].

Ltac emitting := repeat emits_step.

Section Frames.
Context {D : Type} {dbl : Double D} {ho : HashOrder D}.

Local Abbreviation Sys := (@System D).

(** Everything downstream of [BookTrade] leaves the trade store
    alone, whatever the outcome. *)
Lemma TradeBookingService_BookTrade_tradeData t :
  preserves tradeData (TradeBookingService_BookTrade (D:=D) t).
Proof. preserve. Qed.

Lemma TradeBookingServiceListener_ProcessAdd_tradeData o :
  preserves tradeData (TradeBookingServiceListener_ProcessAdd (D:=D) o).
Proof. preserve. Qed.

(** Everything downstream of [PositionService] leaves the positions
    alone. *)
Lemma PositionListener_ProcessAdd_positionData l p :
  preserves positionData (PositionListener_ProcessAdd (D:=D) l p).
Proof. preserve. Qed.

Lemma PositionListener_ProcessAdd_position_listeners l p :
  preserves position_listeners (PositionListener_ProcessAdd (D:=D) l p).
Proof. preserve. Qed.



(** The calls that reach TradeBookingService or its listeners. *)
Definition trade_level (c : @Call D) : Prop :=
  match c with
  | OnMessage_Trade _ | ProcessAdd_Trade _ _ => True
  | _ => False
  end.

#[global] Instance trade_level_dec c : Decision (trade_level c).
Proof. destruct c; simpl; apply _. Defined.

(** What PositionService and the services behind it record are calls of
    their own. *)
Lemma PositionService_AddTrade_emits t :
  emits calls (fun c => ~ trade_level c) (PositionService_AddTrade (D:=D) t).
Proof. emitting. Qed.

End Frames.

(* ===================================================================== *)
(** * PositionService: positions are sums of signed quantities *)
(* ===================================================================== *)

(** The sum of a list of integers, in [Z]. *)
Definition Zsum (l : list Z) : Z := foldr Z.add 0 l.

(** The quantity of a trade with its sign, in [Z]: a buy counts
    positive, a sell negative. *)
Definition trade_signed {D} (t : Trade D) : Z :=
  match trade_side t with
  | BUY => trade_quantity t
  | SELL => - trade_quantity t
  end.

(** The trades of a list that are booked to [b]. *)
Definition on_book {D} (b : string) (ts : list (Trade D)) : list (Trade D) :=
  filter (fun t => book t = b) ts.

Section PositionFacts.
Import PositionOps.

(** The sum of the slots of a position, in [Z]. *)
Definition slots_sum (m : gmap string Z) : Z :=
  map_fold (fun _ q sum => sum + q) 0 m.

Lemma slots_sum_insert_fresh m b v :
  m !! b = None -> slots_sum (<[b := v]> m) = slots_sum m + v.
Proof.
  intros Hb. unfold slots_sum.
  rewrite map_fold_insert_L; [done | | done].
  intros. lia.
Qed.

Lemma slots_sum_insert m b v :
  slots_sum (<[b := v]> m) = slots_sum m - default 0 (m !! b) + v.
Proof.
  destruct (m !! b) as [old|] eqn:Hb; simpl.
  - rewrite <- (insert_delete_id m b old Hb) at 2.
    rewrite <- (insert_delete_eq m b v).
    rewrite !slots_sum_insert_fresh by apply lookup_delete_eq. lia.
  - rewrite slots_sum_insert_fresh by done. lia.
Qed.

Lemma GetAggregatePosition_slots_sum p :
  GetAggregatePosition p = wrap64 (slots_sum (bookPositionData p)).
Proof.
  unfold GetAggregatePosition, slots_sum.
  generalize (bookPositionData p). intros m.
  apply (map_fold_weak_ind
           (fun r m => r = wrap64 (map_fold (fun _ q sum => sum + q) 0 m))).
  - rewrite map_fold_empty. reflexivity.
  - intros b q m' r Hb ->.
    rewrite map_fold_insert_L; [| intros; lia | done].
    unfold Long.add. apply wrap64_add_l.
Qed.

Lemma GetAggregatePosition_AddPosition b q p :
  GetAggregatePosition (AddPosition b q p) = wrap64 (GetAggregatePosition p + q).
Proof.
  rewrite !GetAggregatePosition_slots_sum. unfold AddPosition, GetPosition. simpl.
  rewrite slots_sum_insert, wrap64_add_l.
  destruct (bookPositionData p !! b) as [old|]; simpl; unfold Long.add.
  - replace (slots_sum (bookPositionData p) - old + wrap64 (old + q))
      with ((slots_sum (bookPositionData p) - old) + wrap64 (old + q)) by lia.
    rewrite wrap64_add_r. f_equal. lia.
  - replace (slots_sum (bookPositionData p) - 0 + wrap64 (0 + q))
      with (slots_sum (bookPositionData p) + wrap64 q) by (f_equal; lia).
    apply wrap64_add_r.
Qed.

Lemma GetPosition_AddPosition b q p b' :
  GetPosition (AddPosition b q p) b' =
  if decide (b = b') then wrap64 (GetPosition p b + q) else GetPosition p b'.
Proof.
  unfold AddPosition, GetPosition at 1. simpl.
  rewrite lookup_insert. destruct (decide (b = b')); reflexivity.
Qed.

End PositionFacts.

Section PositionLinearity.
Context {D : Type} {dbl : Double D} {ho : HashOrder D}.
Import PositionOps.

(** What [AddTrade] does to the position of the trade's product. *)
Definition apply_trade (p : Position) (t : Trade D) : Position :=
  AddPosition (book t) (signed_quantity t) p.

Lemma signed_quantity_wrap (t : Trade D) : wrap64 (signed_quantity t) = wrap64 (trade_signed t).
Proof.
  unfold signed_quantity, trade_signed. destruct (trade_side t); [done|].
  unfold Long.neg. apply wrap64_idem.
Qed.

(** The arithmetic of a run of trades on one position. *)
Lemma apply_trades_sums (ts : list (Trade D)) :
  forall (p : Position) (A : Z) (Ab : string -> Z),
    GetAggregatePosition p = wrap64 A ->
    (forall b, GetPosition p b = wrap64 (Ab b)) ->
    GetAggregatePosition (foldl apply_trade p ts)
      = wrap64 (A + Zsum (map trade_signed ts)) /\
    forall b, GetPosition (foldl apply_trade p ts) b
              = wrap64 (Ab b + Zsum (map trade_signed (on_book b ts))).
Proof.
  induction ts as [|t ts IH]; intros p A Ab HA HAb; simpl.
  - split; [rewrite Z.add_0_r; done|].
    intros b. unfold on_book. simpl. rewrite Z.add_0_r. done.
  - destruct (IH (apply_trade p t) (A + trade_signed t)
                 (fun b => if decide (book t = b) then Ab b + trade_signed t else Ab b))
      as [IHa IHb].
    + unfold apply_trade. rewrite GetAggregatePosition_AddPosition, HA.
      rewrite wrap64_add_l, <- wrap64_add_r, signed_quantity_wrap, wrap64_add_r. done.
    + intros b. unfold apply_trade. rewrite GetPosition_AddPosition.
      destruct (decide (book t = b)) as [->|]; [|done].
      rewrite HAb, wrap64_add_l, <- wrap64_add_r, signed_quantity_wrap, wrap64_add_r.
      done.
    + split; [rewrite IHa; f_equal; lia|].
      intros b. rewrite IHb. unfold on_book. rewrite filter_cons.
      destruct (decide (book t = b)); simpl; f_equal; lia.
Qed.

End PositionLinearity.

Section KnownProducts.
Context {D : Type} {dbl : Double D}.

(** The PV01 table has an entry for every CUSIP of the product table. *)
Lemma QueryPV01_known (cusip : string) :
  is_Ok (ProductFactory.QueryProduct cusip) = true ->
  exists v : D, BondAnalytics.QueryPV01 cusip = Ok v.
Proof.
  cbv beta iota zeta fix delta
    [ProductFactory.QueryProduct BondAnalytics.QueryPV01 ProductFactory.table_find
     ProductFactory.productConstructors BondAnalytics.pv01Map].
  repeat (destruct (String.eqb _ cusip); [intros _; eexists; reflexivity|]).
  intros; discriminate.
Qed.

Lemma QueryProduct_productId (cusip : string) (b : Bond) :
  ProductFactory.QueryProduct cusip = Ok b -> productId b = cusip.
Proof.
  cbv beta iota zeta fix delta
    [ProductFactory.QueryProduct ProductFactory.table_find
     ProductFactory.productConstructors].
  repeat match goal with
         | |- context [String.eqb ?k cusip] =>
             destruct (String.eqb_spec k cusip) as [<-|_];
             [intros [= <-]; reflexivity|]
         end.
  intros; discriminate.
Qed.

End KnownProducts.

Section PositionRuns.
Context {D : Type} {dbl : Double D} {ho : HashOrder D}.
Import PositionOps.

Local Abbreviation Sys := (@System D).

Definition known (cusip : string) : Prop :=
  is_Ok (ProductFactory.QueryProduct cusip) = true.

Lemma RiskService_AddPosition_returns (p : Position) :
  known (productId (position_product p)) ->
  returns (RiskService_AddPosition (D:=D) p).
Proof.
  intros Hk. destruct (QueryPV01_known (D:=D) _ Hk) as [v Hv].
  unfold RiskService_AddPosition. rewrite Hv. returning.
Qed.

Lemma PositionListener_ProcessAdd_returns l (p : Position) :
  known (productId (position_product p)) ->
  returns (PositionListener_ProcessAdd (D:=D) l p).
Proof.
  intros Hk. unfold PositionListener_ProcessAdd.
  apply returns_bind; [returning | intros _].
  destruct l; [by apply RiskService_AddPosition_returns | returning].
Qed.

(** The position that [try_emplace] finds or creates for a trade. *)
Definition position_for (s : Sys) (t : Trade D) : Position :=
  match positionData s !! productId (trade_product t) with
  | Some p => p
  | None => mkPosition (trade_product t) ∅
  end.

Lemma PositionService_AddTrade_run (t : Trade D) (s : Sys) :
  known (productId (position_product (position_for s t))) ->
  exists s',
    PositionService_AddTrade t s = (Ok tt, s') /\
    positionData s' =
      <[productId (trade_product t) := apply_trade (position_for s t) t]>
        (positionData s) /\
    position_listeners s' = position_listeners s.
Proof.
  intros Hk.
  set (pos := apply_trade (position_for s t) t).
  set (body := fun listener => PositionListener_ProcessAdd (D:=D) listener pos).
  set (s0 := set_positionData (insert (productId (trade_product t)) pos) s).
  assert (E : PositionService_AddTrade t s = for_each (position_listeners s) body s0)
    by reflexivity.
  assert (Hret : returns (for_each (position_listeners s) body)).
  { apply returns_for_each. intros l. unfold body.
    apply PositionListener_ProcessAdd_returns. done. }
  exists (snd (for_each (position_listeners s) body s0)). split; [|split].
  - rewrite E. apply returns_unit, Hret.
  - rewrite (preserves_for_each positionData); [by destruct s|].
    intros l. apply PositionListener_ProcessAdd_positionData.
  - rewrite (preserves_for_each position_listeners); [by destruct s|].
    intros l. apply PositionListener_ProcessAdd_position_listeners.
Qed.

(** A run of trades for one product folds [apply_trade] over its
    position. *)
Lemma PositionService_AddTrade_runs (p : string) (ts : list (Trade D)) :
  known p ->
  Forall (fun t => productId (trade_product t) = p) ts ->
  forall (s : Sys) (pos : Position),
    positionData s !! p = Some pos ->
    productId (position_product pos) = p ->
    exists s',
      for_each ts PositionService_AddTrade s = (Ok tt, s') /\
      positionData s' !! p = Some (foldl apply_trade pos ts).
Proof.
  intros Hk Hts. induction Hts as [|t ts Ht Hts IH]; intros s pos Hs Hpos; simpl.
  - eauto.
  - assert (Hfor : position_for s t = pos).
    { unfold position_for. rewrite Ht, Hs. done. }
    destruct (PositionService_AddTrade_run t s) as (s1 & E1 & Hd & _).
    { rewrite Hfor, Hpos. done. }
    unfold m_bind. rewrite E1.
    apply IH.
    + rewrite Hd, Ht, Hfor. apply lookup_insert_eq.
    + done.
Qed.

End PositionRuns.

Section PositionTheorem.
Context {D : Type} {dbl : Double D} {ho : HashOrder D}.
Import PositionOps.

(** C2.  Position linearity: after PositionService has processed, via
    AddTrade, the trades T1..Tn of one product (n >= 1, starting with no
    position for the product), every AddTrade has returned, and the
    aggregate position of the product is the sum of the signed quantities
    (+qty for BUY, -qty for SELL) as a 64-bit long, hence the sum itself
    whenever it fits in a long; the slot of each book holds the sum of
    the signed quantities of the trades booked to it. *)
Theorem position_linearity
    (p : string) (t : Trade D) (ts : list (Trade D)) (s : @System D) :
  known p ->
  Forall (fun x => productId (trade_product x) = p) (t :: ts) ->
  positionData s !! p = None ->
  exists s' pos,
    for_each (t :: ts) PositionService_AddTrade s = (Ok tt, s') /\
    positionData s' !! p = Some pos /\
    GetAggregatePosition pos = wrap64 (Zsum (map trade_signed (t :: ts))) /\
    (in_long (Zsum (map trade_signed (t :: ts))) ->
     GetAggregatePosition pos = Zsum (map trade_signed (t :: ts))) /\
    (forall b, GetPosition pos b
               = wrap64 (Zsum (map trade_signed (on_book b (t :: ts))))).
Proof.
  intros Hk Hall Hnone.
  pose proof (Forall_inv Hall) as Ht. pose proof (Forall_inv_tail Hall) as Hts.
  simpl in Ht.
  set (new := mkPosition (trade_product t) ∅).
  assert (Hfor : position_for s t = new).
  { unfold position_for. rewrite Ht, Hnone. done. }
  destruct (PositionService_AddTrade_run t s) as (s1 & E1 & Hd & _).
  { rewrite Hfor. simpl. rewrite Ht. done. }
  destruct (PositionService_AddTrade_runs p ts Hk Hts s1 (apply_trade new t))
    as (s' & E' & Hpos').
  { rewrite Hd, Ht, Hfor. apply lookup_insert_eq. }
  { simpl. done. }
  exists s', (foldl apply_trade new (t :: ts)). simpl foldl.
  destruct (apply_trades_sums (t :: ts) new 0 (fun _ => 0)) as [Ha Hb].
  { reflexivity. }
  { intros b. reflexivity. }
  simpl foldl in Ha, Hb. rewrite Z.add_0_l in Ha.
  repeat split.
  - simpl. unfold m_bind. rewrite E1. exact E'.
  - exact Hpos'.
  - exact Ha.
  - intros Hin. rewrite Ha. by apply wrap64_id.
  - intros b. rewrite Hb, Z.add_0_l. done.
Qed.

End PositionTheorem.

(* ===================================================================== *)
(** * Concrete runs *)
(* ===================================================================== *)

Module Scenario.

(** A generator whose [n]-th identifier is [n] in decimal, preceded by
    zeros up to the requested length. *)
Fixpoint zeros (n : nat) : string :=
  match n with
  | O => ""
  | S n' => String "0" (zeros n')
  end.

Definition counting_gen : RandomGen :=
  mkRandomGen 0
    (fun n length =>
       let digits := Numeral.to_string (Z.of_nat n) in
       zeros (Z.to_nat length - String.length digits) +:+ digits).

Definition US2Y : Bond := mkBond "91282CAV3" "US2Y" 4500 "2026/11/30".

(** The services of [main], with binary64 doubles and the hash order of
    insertion. *)
Definition system0 : @System spec_float := wired_System counting_gen.

Definition par : spec_float := Binary64.of_Z 100.

(** [91282CAV3,T1,100-000,TRSY1,3000000,BUY] and
    [91282CAV3,T2,100-000,TRSY2,1000000,SELL]. *)
Definition T1 : Trade spec_float := mkTrade US2Y "T1" par "TRSY1" 3000000 BUY.
Definition T2 : Trade spec_float := mkTrade US2Y "T2" par "TRSY2" 1000000 SELL.

End Scenario.

Lemma position_linearity_witness :
  exists s' pos,
    for_each [Scenario.T1; Scenario.T2] PositionService_AddTrade
      Scenario.system0 = (Ok tt, s') /\
    positionData s' !! "91282CAV3" = Some pos /\
    PositionOps.GetAggregatePosition pos = wrap64 2000000 /\
    (in_long 2000000 -> PositionOps.GetAggregatePosition pos = 2000000) /\
    (forall b, PositionOps.GetPosition pos b
               = wrap64 (Zsum (map trade_signed
                                   (on_book b [Scenario.T1; Scenario.T2])))).
Proof.
  apply (position_linearity "91282CAV3" Scenario.T1 [Scenario.T2] Scenario.system0).
  - reflexivity.
  - repeat constructor.
  - reflexivity.
Defined.

(** C1.  The stored PV01 does not track the aggregate position.  Feeding
    the two trade lines of the position scenario through
    TradeBookingService, PositionService and RiskService leaves the
    aggregate position of 91282CAV3 at 2,000,000 (3,000,000 bought, then
    1,000,000 sold), while the stored PV01 entry holds 5,000,000: the
    second update adds the new aggregate 2,000,000 to the 3,000,000 that
    was stored.  The PV01 objects handed to the listeners carry 3,000,000
    and 2,000,000, the aggregate after each trade. *)
Theorem risk_totalQty_adds_aggregates :
  let run :=
    TradeBookingConnector_Subscribe
      [ "91282CAV3,T1,100-000,TRSY1,3000000,BUY";
        "91282CAV3,T2,100-000,TRSY2,1000000,SELL" ] Scenario.system0 in
  fst run = Ok tt /\
  PositionOps.GetAggregatePosition <$> positionData (snd run) !! "91282CAV3"
    = Some 2000000 /\
  pv01_quantity <$> pv01Data (snd run) !! "91282CAV3" = Some 5000000 /\
  map pv01_quantity (outFile (historicalRisk (snd run))) = [3000000; 2000000].
Proof. vm_compute. repeat split. Qed.

(* ===================================================================== *)
(** * TradeBookingService: BookTrade does not store the trade *)
(* ===================================================================== *)

Section BookingTheorem.
Context {D : Type} {dbl : Double D} {ho : HashOrder D}.

Lemma filter_none {A} (P : A -> Prop) `{forall x, Decision (P x)} (l : list A) :
  Forall (fun x => ~ P x) l -> filter P l = [].
Proof.
  induction 1 as [|x l Hx Hl IH]; [done|].
  rewrite filter_cons. destruct (decide (P x)); [done | exact IH].
Qed.

(** The calls on TradeBookingService's listeners that a successful
    [BookTrade] adds: one [ProcessAdd] of the trade per listener. *)
Lemma BookTrade_notifies (trade : Trade D) (ls : list TradeListener) :
  forall s s',
    for_each ls (fun listener => TradeListener_ProcessAdd listener trade) s
      = (Ok tt, s') ->
    filter trade_level (calls s')
    = filter trade_level (calls s) ++ map (fun l => ProcessAdd_Trade l trade) ls.
Proof.
  induction ls as [|l ls IH]; intros s s'; simpl.
  - intros [= <-]. by rewrite app_nil_r.
  - unfold m_bind.
    destruct (TradeListener_ProcessAdd l trade s) as [[[]| |] s1] eqn:E1;
      try discriminate.
    intros E. rewrite (IH _ _ E).
    assert (Hs1 : filter trade_level (calls s1)
                  = filter trade_level (calls s) ++ [ProcessAdd_Trade l trade]).
    { unfold TradeListener_ProcessAdd in E1. unfold mbind, M_bind, m_bind in E1.
      simpl in E1. destruct l.
      destruct (PositionService_AddTrade_emits trade
                  (set_calls (fun cs => cs ++ [ProcessAdd_Trade PositionServiceListener trade]) s))
        as (extra & Ex & Fx).
      rewrite E1 in Ex. simpl in Ex. rewrite Ex.
      replace (calls (set_calls (fun cs => cs ++ [ProcessAdd_Trade PositionServiceListener trade]) s))
        with (calls s ++ [ProcessAdd_Trade PositionServiceListener trade])
        by (by destruct s).
      rewrite !filter_app, (filter_none _ _ Fx), app_nil_r. done. }
    rewrite Hs1, <- app_assoc. done.
Qed.

(** C10.  BookTrade, and the listener that synthesises a trade from an
    ExecutionOrder and calls it, leave the trade store as it was,
    whatever the outcome of the notifications; so GetData of the trade's
    id afterwards throws "Key not found" unless that id was in the store
    already, in which case it returns what was stored.  A BookTrade that
    returns has called ProcessAdd with the trade once on each listener
    and made no other call at this service.  OnMessage, the entry point
    of the file connector, is what puts a trade into the store. *)
Theorem BookTrade_leaves_store
    (s : @System D) (trade : Trade D) (order : ExecutionOrder D) :
  tradeData (snd (TradeBookingService_BookTrade trade s)) = tradeData s /\
  tradeData (snd (TradeBookingServiceListener_ProcessAdd order s)) = tradeData s /\
  fst (TradeBookingService_GetData (tradeId trade)
         (snd (TradeBookingService_BookTrade trade s)))
  = match tradeData s !! tradeId trade with
    | Some stored => Ok stored
    | None => Throw (runtime_error "Key not found")
    end /\
  fst (TradeBookingService_GetData (orderId order)
         (snd (TradeBookingServiceListener_ProcessAdd order s)))
  = match tradeData s !! orderId order with
    | Some stored => Ok stored
    | None => Throw (runtime_error "Key not found")
    end /\
  (forall s', TradeBookingService_BookTrade trade s = (Ok tt, s') ->
              filter trade_level (calls s')
              = filter trade_level (calls s)
                ++ map (fun l => ProcessAdd_Trade l trade) (trade_listeners s)) /\
  tradeData (snd (TradeBookingService_OnMessage trade s))
  = <[tradeId trade := trade]> (tradeData s).
Proof.
  pose proof (TradeBookingService_BookTrade_tradeData trade s) as Hb.
  pose proof (TradeBookingServiceListener_ProcessAdd_tradeData order s) as Hl.
  split; [exact Hb|]. split; [exact Hl|].
  split; [|split; [|split]].
  - unfold TradeBookingService_GetData, mbind, M_bind, m_bind. simpl.
    rewrite Hb. by destruct (tradeData s !! tradeId trade).
  - unfold TradeBookingService_GetData, mbind, M_bind, m_bind. simpl.
    rewrite Hl. by destruct (tradeData s !! orderId order).
  - intros s' E. apply (BookTrade_notifies trade (trade_listeners s) s s'). exact E.
  - unfold TradeBookingService_OnMessage, mbind, M_bind, m_bind. simpl.
    rewrite (preserves_for_each tradeData); [by destruct s|].
    intros l. preserve.
Qed.

End BookingTheorem.

(* ===================================================================== *)
(** * AlgoExecutionService: the order the factory builds *)
(* ===================================================================== *)

Section AlgoExecutionTheorem.
Context {D : Type} {dbl : Double D} {ho : HashOrder D}.




End AlgoExecutionTheorem.

(* ===================================================================== *)
(** * MarketDataService: aggregation by price *)
(* ===================================================================== *)

(** [R] holds between every two elements at different positions, the
    earlier one first. *)
Fixpoint pairwise {A} (R : A -> A -> Prop) (l : list A) : Prop :=
  match l with
  | [] => True
  | x :: l' => Forall (R x) l' /\ pairwise R l'
  end.

Section Pairwise.
Context {A : Type} (R : A -> A -> Prop).
Hypothesis R_sym : forall a b, R a b -> R b a.

Lemma pairwise_Permutation (l l' : list A) :
  Permutation l l' -> pairwise R l -> pairwise R l'.
Proof.
  induction 1 as [|x l l' Hp IH|x y l|l l' l'' _ IH1 _ IH2]; simpl.
  - done.
  - intros [Hx Hl]. split; [|auto]. by rewrite <- Hp.
  - intros [Hy [Hx Hl]]. apply Forall_cons in Hy as [Hyx Hy].
    repeat split; try done. constructor; [by apply R_sym | done].
  - auto.
Qed.

Lemma pairwise_lookup (l : list A) :
  pairwise R l ->
  forall i j a b, i ≠ j -> l !! i = Some a -> l !! j = Some b -> R a b.
Proof.
  induction l as [|x l IH]; simpl; [intros _ i j a b _ Hi; by destruct i|].
  intros [Hx Hl] i j a b Hij Hi Hj.
  destruct i as [|i], j as [|j]; simpl in *; try done.
  - injection Hi as <-. rewrite Forall_forall in Hx. apply Hx.
    by eapply list_elem_of_lookup_2.
  - injection Hj as <-. apply R_sym. rewrite Forall_forall in Hx. apply Hx.
    by eapply list_elem_of_lookup_2.
  - apply (IH Hl i j); [lia | done | done].
Qed.

End Pairwise.

Section AggregateFacts.
Context {D : Type} {dbl : Double D} {ho : HashOrder D}.

(** The orders of a stack whose price equals [p], by [==]. *)
Definition at_price (p : D) (stack : list (Order D)) : list (Order D) :=
  filter (fun o => d_eqb p (order_price o) = true) stack.

(** The sum of their quantities, in [Z]. *)
Definition quantity_at (p : D) (stack : list (Order D)) : Z :=
  Zsum (map order_quantity (at_price p stack)).

(** [==] is symmetric and transitive (as it is on binary64), and
    reflexive on the prices met (none of them is a NaN). *)
Hypothesis d_eqb_sym : forall a b : D, d_eqb a b = d_eqb b a.
Hypothesis d_eqb_trans :
  forall a b c : D, d_eqb a b = true -> d_eqb b c = true -> d_eqb a c = true.

Definition prices_distinct (a b : D * Z) : Prop := d_eqb a.1 b.1 = false.

(** What holds of the price map once the orders [seen] are in it. *)
Record priceMap_inv (seen : list (Order D)) (priceMap : list (D * Z)) : Prop := {
  inv_distinct : pairwise prices_distinct priceMap;
  inv_sum : forall k v, (k, v) ∈ priceMap ->
              d_eqb k k = true /\ v = wrap64 (quantity_at k seen);
  inv_cover : forall o, o ∈ seen ->
              exists k v, (k, v) ∈ priceMap /\ d_eqb k (order_price o) = true
}.

Lemma quantity_at_snoc p seen o :
  quantity_at p (seen ++ [o])
  = quantity_at p seen + (if d_eqb p (order_price o) then order_quantity o else 0).
Proof.
  unfold quantity_at, at_price. rewrite filter_app, map_app.
  assert (Zsum_app : forall l1 l2, Zsum (l1 ++ l2) = Zsum l1 + Zsum l2).
  { induction l1 as [|x l1 IH]; intros l2; simpl; [done|]. rewrite IH. lia. }
  rewrite Zsum_app. f_equal.
  rewrite filter_cons, filter_nil.
  destruct (d_eqb p (order_price o)); simpl.
  - destruct (decide (true = true)); [simpl; lia | done].
  - destruct (decide (false = true)); [done | reflexivity].
Qed.

(** [priceMap_add] when no stored key equals the price: a new slot. *)
Lemma priceMap_add_fresh p q pm :
  Forall (fun kv => d_eqb kv.1 p = false) pm ->
  priceMap_add p q pm = pm ++ [(p, Long.add 0 q)].
Proof.
  induction 1 as [|[k v] pm Hk _ IH]; simpl; [done|].
  simpl in Hk. rewrite Hk, IH. done.
Qed.

(** [priceMap_add] when some stored key equals the price: the first
    such slot grows. *)
Lemma priceMap_add_found p q pm :
  ~ Forall (fun kv => d_eqb kv.1 p = false) pm ->
  exists pre k v post,
    pm = pre ++ (k, v) :: post /\
    Forall (fun kv => d_eqb kv.1 p = false) pre /\
    d_eqb k p = true /\
    priceMap_add p q pm = pre ++ (k, Long.add v q) :: post.
Proof.
  induction pm as [|[k v] pm IH]; intros Hn; [by destruct Hn|].
  simpl. destruct (d_eqb k p) eqn:Hk.
  - exists [], k, v, pm. repeat split; done.
  - destruct IH as (pre & k' & v' & post & -> & Hpre & Hk' & ->).
    { intros Hall. apply Hn. by constructor. }
    exists ((k, v) :: pre), k', v', post. repeat split; try done.
    by constructor.
Qed.

Lemma pairwise_app_inv {A} (R : A -> A -> Prop) (l1 l2 : list A) :
  pairwise R (l1 ++ l2) <->
  pairwise R l1 /\ pairwise R l2 /\ (forall a b, a ∈ l1 -> b ∈ l2 -> R a b).
Proof.
  induction l1 as [|x l1 IH]; simpl.
  - split; [intros ?; repeat split; [done|]; intros a b Ha; by inversion Ha|].
    by intros (_ & ? & _).
  - rewrite Forall_app, IH. split.
    + intros [[Hx1 Hx2] (H1 & H2 & H12)]. repeat split; try done.
      intros a b Ha Hb. apply elem_of_cons in Ha as [->|Ha]; [|by apply H12].
      rewrite Forall_forall in Hx2. by apply Hx2.
    + intros [[Hx1 H1] (H2 & H12)]. repeat split; try done.
      * rewrite Forall_forall. intros b Hb. apply H12; [by left | done].
      * intros a b Ha Hb. apply H12; [by right | done].
Qed.

Lemma priceMap_add_inv seen pm o :
  d_eqb (order_price o) (order_price o) = true ->
  priceMap_inv seen pm ->
  priceMap_inv (seen ++ [o]) (priceMap_add (order_price o) (order_quantity o) pm).
Proof.
  intros Hrefl [Hd Hs Hc].
  set (p := order_price o). set (q := order_quantity o).
  destruct (decide (Forall (fun kv : D * Z => d_eqb kv.1 p = false) pm)) as [Hfresh|Hfound].
  - (* no key equals p *)
    rewrite (priceMap_add_fresh _ _ _ Hfresh).
    assert (Hzero : quantity_at p seen = 0).
    { unfold quantity_at, at_price.
      assert (Hnil : filter (fun o' : Order D => d_eqb p (order_price o') = true) seen = []).
      { apply filter_none. rewrite Forall_forall. intros o' Ho' Hpo'.
        destruct (Hc o') as (k & v & Hkv & Hk); [done|].
        rewrite Forall_forall in Hfresh.
        specialize (Hfresh (k, v) Hkv). simpl in Hfresh.
        rewrite d_eqb_sym in Hpo'.
        rewrite (d_eqb_trans _ _ _ Hk Hpo') in Hfresh. done. }
      rewrite Hnil. done. }
    split.
    + apply pairwise_app_inv. split; [done|]. split; [by split|].
      intros a b Ha Hb. apply list_elem_of_singleton in Hb as ->.
      rewrite Forall_forall in Hfresh. by apply Hfresh.
    + intros k v Hkv. apply elem_of_app in Hkv as [Hkv|Hkv].
      * destruct (Hs k v Hkv) as [Hkk Hv]. split; [done|].
        rewrite quantity_at_snoc.
        rewrite Forall_forall in Hfresh.
        specialize (Hfresh (k, v) Hkv). simpl in Hfresh.
        fold p. rewrite Hfresh, Z.add_0_r. exact Hv.
      * apply list_elem_of_singleton in Hkv. injection Hkv as -> ->. split; [done|].
        rewrite quantity_at_snoc, Hzero. subst p. rewrite Hrefl. reflexivity.
    + intros o' Ho'. apply elem_of_app in Ho' as [Ho'|Ho'].
      * destruct (Hc o' Ho') as (k & v & Hkv & Hk). exists k, v.
        split; [apply elem_of_app; by left | done].
      * apply list_elem_of_singleton in Ho' as ->. exists p, (Long.add 0 q).
        split; [apply elem_of_app; right; by apply list_elem_of_singleton | done].
  - (* the first key that equals p *)
    destruct (priceMap_add_found p q pm Hfound)
      as (pre & k & v & post & -> & Hpre & Hk & ->).
    assert (Hother : forall k' v', (k', v') ∈ pre ++ post -> d_eqb k' p = false).
    { intros k' v' Hin. destruct (d_eqb k' p) eqn:Hk'; [|done]. exfalso.
      apply pairwise_app_inv in Hd as (_ & [Hkpost _] & Hprepost).
      apply elem_of_app in Hin as [Hin|Hin].
      - rewrite Forall_forall in Hpre.
        specialize (Hpre (k', v') Hin). simpl in Hpre.
        congruence.
      - rewrite Forall_forall in Hkpost.
        specialize (Hkpost (k', v') Hin).
        unfold prices_distinct in Hkpost. simpl in Hkpost.
        rewrite (d_eqb_sym k' p) in Hk'.
        rewrite (d_eqb_trans _ _ _ Hk Hk') in Hkpost. done. }
    split.
    + apply pairwise_app_inv in Hd as (H1 & [Hkpost H2] & H12).
      apply pairwise_app_inv. repeat split; try done.
      intros a b Ha Hb. apply elem_of_cons in Hb as [->|Hb].
      * apply (H12 a (k, v) Ha). by left.
      * apply (H12 a b Ha). by right.
    + intros k' v' Hin. rewrite quantity_at_snoc. fold p q.
      apply elem_of_app in Hin as [Hin|Hin];
        [|apply elem_of_cons in Hin as [Hin|Hin]].
      * destruct (Hs k' v') as [Hkk Hv]; [apply elem_of_app; by left|].
        split; [done|].
        rewrite (Hother k' v'), Z.add_0_r; [done | apply elem_of_app; by left].
      * injection Hin as -> ->.
        destruct (Hs k v) as [Hkk Hv]; [apply elem_of_app; right; by left|].
        split; [done|]. rewrite Hk, Hv. unfold Long.add. apply wrap64_add_l.
      * destruct (Hs k' v') as [Hkk Hv]; [apply elem_of_app; right; by right|].
        split; [done|].
        rewrite (Hother k' v'), Z.add_0_r; [done | apply elem_of_app; by right].
    + intros o' Ho'. apply elem_of_app in Ho' as [Ho'|Ho'].
      * destruct (Hc o' Ho') as (k' & v' & Hkv & Hk').
        apply elem_of_app in Hkv as [Hkv|Hkv];
          [|apply elem_of_cons in Hkv as [Hkv|Hkv]].
        -- exists k', v'. split; [apply elem_of_app; by left | done].
        -- injection Hkv as -> ->. exists k, (Long.add v q).
           split; [apply elem_of_app; right; by left | done].
        -- exists k', v'. split; [apply elem_of_app; right; by right | done].
      * apply list_elem_of_singleton in Ho' as ->. exists k, (Long.add v q).
        split; [apply elem_of_app; right; by left | done].
Qed.

End AggregateFacts.

Section AggregateTheorem.
Context {D : Type} {dbl : Double D} {ho : HashOrder D}.

(** [out] is [stack] aggregated by price: no two orders of [out] have
    equal prices; each carries [side] and, as its quantity, the sum of
    the quantities of the orders of [stack] at its price (as a 64-bit
    long, and exactly when the sum fits); every price of [stack] is the
    price of an order of [out]. *)
Definition aggregated (stack : list (Order D)) (side : PricingSide)
           (out : list (Order D)) : Prop :=
  (forall i j a b, i ≠ j -> out !! i = Some a -> out !! j = Some b ->
                   d_eqb (order_price a) (order_price b) = false) /\
  (forall o, o ∈ out ->
             order_side o = side /\
             order_quantity o = wrap64 (quantity_at (order_price o) stack) /\
             (in_long (quantity_at (order_price o) stack) ->
              order_quantity o = quantity_at (order_price o) stack)) /\
  (forall x, x ∈ stack ->
             exists o, o ∈ out /\ d_eqb (order_price o) (order_price x) = true).

Definition no_NaN (stack : list (Order D)) : Prop :=
  forall x, x ∈ stack -> d_eqb (order_price x) (order_price x) = true.

Section Laws.
Hypothesis d_eqb_sym : forall a b : D, d_eqb a b = d_eqb b a.
Hypothesis d_eqb_trans :
  forall a b c : D, d_eqb a b = true -> d_eqb b c = true -> d_eqb a c = true.

Lemma fold_priceMap_inv (stack : list (Order D)) :
  forall seen pm,
    no_NaN stack ->
    priceMap_inv seen pm ->
    priceMap_inv (seen ++ stack)
      (fold_left (fun priceMap o =>
                    priceMap_add (order_price o) (order_quantity o) priceMap)
                 stack pm).
Proof.
  induction stack as [|o stack IH]; intros seen pm Hn Hinv; simpl.
  - by rewrite app_nil_r.
  - replace (seen ++ o :: stack) with ((seen ++ [o]) ++ stack)
      by (by rewrite <- app_assoc).
    apply IH.
    + intros x Hx. apply Hn. by right.
    + apply priceMap_add_inv; [done | done | by apply Hn; left | done].
Qed.

Lemma fill_priceMap_inv (stack : list (Order D)) :
  no_NaN stack -> priceMap_inv stack (fill_priceMap stack).
Proof.
  intros Hn. apply (fold_priceMap_inv stack [] [] Hn).
  split; [done | intros k v Hin; by inversion Hin | intros o Hin; by inversion Hin].
Qed.

Lemma Aggregate_aggregated (stack : list (Order D)) (side : PricingSide) :
  no_NaN stack -> aggregated stack side (Aggregate stack side).
Proof.
  intros Hn. destruct (fill_priceMap_inv stack Hn) as [Hd Hs Hc].
  unfold Aggregate.
  set (pm := fill_priceMap stack) in *.
  pose proof (iteration_order_perm pm) as Hperm.
  set (pm' := iteration_order pm) in *.
  set (mk := fun '(price, quantity) => mkOrder price quantity side).
  assert (Hmk : forall kv : D * Z,
             order_price (mk kv) = kv.1 /\ order_quantity (mk kv) = kv.2
             /\ order_side (mk kv) = side) by (by intros []).
  repeat split.
  - intros i j a b Hij Hi Hj.
    rewrite list_lookup_fmap in Hi, Hj.
    destruct (pm' !! i) as [kvi|] eqn:Ei; [|done].
    destruct (pm' !! j) as [kvj|] eqn:Ej; [|done].
    simpl in Hi, Hj. injection Hi as <-. injection Hj as <-.
    destruct (Hmk kvi) as (-> & _), (Hmk kvj) as (-> & _).
    apply (pairwise_lookup prices_distinct) with (l := pm') (i := i) (j := j);
      try done.
    + intros x y Hxy. unfold prices_distinct in *. by rewrite d_eqb_sym.
    + apply (pairwise_Permutation prices_distinct) with (l := pm);
        [| by symmetry | done].
      intros x y Hxy. unfold prices_distinct in *. by rewrite d_eqb_sym.
  - apply list_elem_of_fmap in H as (kv & -> & Hkv). apply Hmk.
  - apply list_elem_of_fmap in H as ([k v] & -> & Hkv). simpl.
    apply (Hs k v). by rewrite <- Hperm.
  - apply list_elem_of_fmap in H as ([k v] & -> & Hkv). simpl. intros Hin.
    destruct (Hs k v) as [_ ->]; [by rewrite <- Hperm|]. by apply wrap64_id.
  - intros x Hx. destruct (Hc x Hx) as (k & v & Hkv & Hk).
    exists (mk (k, v)). split; [|done].
    apply list_elem_of_fmap. exists (k, v). split; [done|]. by rewrite Hperm.
Qed.

(** C9.  AggregateDepth replaces the book stored for the product by
    its aggregate and returns it.  On each side of the new book no two
    orders have equal prices, the quantity of each order is the sum of
    the quantities of the orders that were on that side at its price
    (as a 64-bit long; the sum itself when it fits in a long), every
    price that was on the side is still there, and every order is
    tagged with its side: BID on the bid stack, OFFER on the offer
    stack.  Prices are compared with == on double, which is symmetric
    and transitive; the book holds no NaN price. *)
Theorem AggregateDepth_aggregates (s : @System D) (product : string) :
  let before := default default_OrderBook (orderBookMap s !! product) in
  no_NaN (bidStack before) ->
  no_NaN (offerStack before) ->
  exists after s',
    AggregateDepth product s = (Ok after, s') /\
    orderBookMap s' !! product = Some after /\
    book_product after = book_product before /\
    aggregated (bidStack before) BID (bidStack after) /\
    aggregated (offerStack before) OFFER (offerStack after).
Proof.
  intros before Hb Ho.
  set (after := mkOrderBook (book_product before)
                  (Aggregate (bidStack before) BID)
                  (Aggregate (offerStack before) OFFER)).
  exists after.
  unfold AggregateDepth, orderBookMap_at, mbind, M_bind, m_bind. simpl.
  unfold before in *. clear before.
  destruct (orderBookMap s !! product) as [b|] eqn:E; simpl in *.
  - eexists. split; [reflexivity|]. destruct s; simpl.
    split; [apply lookup_insert_eq|]. split; [done|].
    split; by apply Aggregate_aggregated.
  - eexists. split; [reflexivity|]. destruct s; simpl.
    split; [apply lookup_insert_eq|]. split; [done|].
    split; by apply Aggregate_aggregated.
Qed.

End Laws.

End AggregateTheorem.

(* ===================================================================== *)
(** * InquiryService: what one OnMessage of a RECEIVED inquiry does *)
(* ===================================================================== *)

Section InquiryFacts.
Context {D : Type} {dbl : Double D}.

Local Abbreviation ISys := (@InquirySystem D).

(** [OnMessage] uses the [OnMessage] it is given only on an inquiry that
    [Publish] has moved out of [RECEIVED]. *)
Lemma OnMessage_body_ext (f g : Inquiry D -> M ISys (Inquiry D)) :
  (forall d s, inquiry_state d ≠ RECEIVED -> f d s = g d s) ->
  forall d s, OnMessage_body f d s = OnMessage_body g d s.
Proof.
  intros Hfg d s. unfold OnMessage_body, mbind, M_bind, m_bind. simpl.
  destruct (inquiry_state d) eqn:E; try reflexivity.
  unfold InquiryConnector_Publish, mbind, M_bind, m_bind. simpl.
  rewrite E. simpl. rewrite Hfg; [reflexivity | simpl; discriminate].
Qed.

Lemma OnMessage_body_leaf (f g : Inquiry D -> M ISys (Inquiry D)) d s :
  inquiry_state d ≠ RECEIVED -> OnMessage_body f d s = OnMessage_body g d s.
Proof.
  intros Hd. unfold OnMessage_body, mbind, M_bind, m_bind. simpl.
  destruct (inquiry_state d); try reflexivity. done.
Qed.

(** Two levels of nesting are all that [OnMessage] ever uses. *)
Lemma OnMessage_depth_enough (n : nat) (d : Inquiry D) (s : ISys) :
  OnMessage_depth (2 + n) d s = InquiryService_OnMessage d s.
Proof.
  unfold InquiryService_OnMessage. simpl.
  apply OnMessage_body_ext. intros d' s' Hd'.
  destruct n; [reflexivity|]. simpl. by apply OnMessage_body_leaf.
Qed.

(** The state after every listener has been notified of [d]. *)
Definition notified (ls : list InquiryListener) (d : Inquiry D) (s : ISys) : ISys :=
  mkInquirySystem (inquiryData s) (inquiry_listeners s)
    (foldl (fun h l => match l with
                       | HistoricalInquiryListener => PersistData (inquiryId d) d h
                       end) (historicalInquiry s) ls)
    (inquiry_calls s ++ map (fun l => ProcessAdd_Inquiry l d) ls).

Lemma notify_run (ls : list InquiryListener) (d : Inquiry D) :
  forall s : ISys,
    for_each ls (fun listener => InquiryListener_ProcessAdd listener d) s
    = (Ok tt, notified ls d s).
Proof.
  induction ls as [|l ls IH]; intros s; simpl.
  - unfold m_ret, notified. simpl. rewrite app_nil_r. by destruct s.
  - unfold m_bind, InquiryListener_ProcessAdd, mbind, M_bind, m_bind. simpl.
    destruct l. simpl. rewrite IH. f_equal.
    unfold notified. destruct s. simpl. by rewrite <- app_assoc.
Qed.

(** One [OnMessage] of an inquiry in state [RECEIVED], step by step. *)
Lemma OnMessage_RECEIVED (d : Inquiry D) (s : ISys) :
  inquiry_state d = RECEIVED ->
  let quoted := SetState QUOTED d in
  let done := SetState DONE d in
  let ls := inquiry_listeners s in
  exists s',
    InquiryService_OnMessage d s = (Ok done, s') /\
    inquiryData s' = delete (inquiryId d) (inquiryData s) /\
    inquiry_listeners s' = ls /\
    inquiry_calls s'
    = inquiry_calls s
      ++ [OnMessage_Inquiry d; Publish_Inquiry d; OnMessage_Inquiry quoted]
      ++ map (fun l => ProcessAdd_Inquiry l done) (ls ++ ls ++ ls) /\
    historicalInquiry s'
    = foldl (fun h l => match l with
                        | HistoricalInquiryListener => PersistData (inquiryId d) done h
                        end) (historicalInquiry s) (ls ++ ls ++ ls).
Proof.
  intros Hd quoted done ls.
  unfold InquiryService_OnMessage. simpl.
  unfold OnMessage_body at 1. unfold mbind, M_bind, m_bind. simpl.
  rewrite Hd. unfold InquiryConnector_Publish, mbind, M_bind, m_bind. simpl.
  rewrite Hd. simpl.
  unfold OnMessage_body, mbind, M_bind, m_bind. simpl.
  repeat (rewrite notify_run; simpl).
  eexists. split; [reflexivity|]. destruct s as [m ls0 h cs]. simpl in *.
  repeat split.
  - rewrite !delete_delete_eq, delete_insert_eq, delete_delete_eq. done.
  - rewrite !map_app, <- !app_assoc. reflexivity.
  - rewrite !foldl_app. reflexivity.
Qed.

End InquiryFacts.

(** C3.  The inquiry line of the inquiry scenario, fed through
    InquiryConnector::Subscribe to the service wired as in main: the single
    OnMessage returns, the inquiry passes RECEIVED, QUOTED, DONE and is
    absent from the store afterwards, but the one registered listener
    receives ProcessAdd three times, each time with the inquiry in state
    DONE, and three records reach the historical sink. *)
Theorem inquiry_notified_three_times :
  let run :=
    InquiryConnector_Subscribe (D:=spec_float)
      [ "INQ1,91282CAV3,BUY,1000000,100-000,RECEIVED" ] wired_InquirySystem in
  let received :=
    mkInquiry "INQ1" Scenario.US2Y BUY 1000000 Scenario.par RECEIVED in
  fst run = Ok tt /\
  inquiryData (snd run) !! "INQ1" = None /\
  inquiry_calls (snd run)
  = [ OnMessage_Inquiry received;
      Publish_Inquiry received;
      OnMessage_Inquiry (SetState QUOTED received);
      ProcessAdd_Inquiry HistoricalInquiryListener (SetState DONE received);
      ProcessAdd_Inquiry HistoricalInquiryListener (SetState DONE received);
      ProcessAdd_Inquiry HistoricalInquiryListener (SetState DONE received) ] /\
  map inquiry_state (outFile (historicalInquiry (snd run))) = [DONE; DONE; DONE].
Proof. vm_compute. repeat split. Qed.

(* ===================================================================== *)
(** * GetData *)
(* ===================================================================== *)

Section GetDataTheorem.
Context {D : Type} {dbl : Double D} {ho : HashOrder D}.

(** The outcome of a lookup that throws [runtime_error] on a missing
    key. *)
Definition found_or {V} (what : string) (o : option V) : result V :=
  match o with
  | Some v => Ok v
  | None => Throw (runtime_error what)
  end.

(** C5 (amended).  In every service but MarketDataService, GetData of a
    key that is not in the store throws runtime_error (NotFound), GetData
    of a stored key returns the stored value, and in both cases the store
    and the rest of the service are as before.  MarketDataService is
    different: GetData of a stored key returns the stored book, but
    GetData of a missing key that is a CUSIP of the product table
    creates an empty book of that product, stores it and returns it, and
    GetData of a missing key that is no known CUSIP throws
    invalid_argument (UnknownProduct) and leaves the store as it was. *)
Theorem GetData_lookup (key : string) :
  (forall s : @PricingSystem D,
      PricingService_GetData key s
      = (found_or ("Key not found: " +:+ key) (priceData s !! key), s)) /\
  (forall s : @System D,
      AlgoExecutionService_GetData key s
      = (found_or "Key not found" (algoExecutionData s !! key), s)) /\
  (forall s : @System D,
      ExecutionService_GetData key s
      = (found_or "Specified key not found" (executionOrderData s !! key), s)) /\
  (forall s : @System D,
      TradeBookingService_GetData key s
      = (found_or "Key not found" (tradeData s !! key), s)) /\
  (forall s : @System D,
      PositionService_GetData key s
      = (found_or ("Key not found: " +:+ key) (positionData s !! key), s)) /\
  (forall s : @System D,
      RiskService_GetData key s
      = (found_or ("Key not found: " +:+ key) (pv01Data s !! key), s)) /\
  (forall s : @InquirySystem D,
      InquiryService_GetData key s
      = (found_or "Key not found" (inquiryData s !! key), s)) /\
  (forall (V : Type) (dataMap : gmap string V),
      BaseService_GetData dataMap key = found_or "Key not found" (dataMap !! key)) /\
  (forall s : @System D,
      MarketDataService_GetData key s
      = match orderBookMap s !! key with
        | Some stored => (Ok stored, s)
        | None =>
            match ProductFactory.QueryProduct key with
            | Ok product =>
                (Ok (mkOrderBook product [] []),
                 set_orderBookMap (insert key (mkOrderBook product [] [])) s)
            | Throw e => (Throw e, s)
            | Undef => (Undef, s)
            end
        end) /\
  ((exists product,
       ProductFactory.QueryProduct key = Ok product /\ productId product = key) \/
   ProductFactory.QueryProduct key
   = Throw (invalid_argument ("Unknown CUSIP: " +:+ key))).
Proof.
  split; [|split; [|split; [|split; [|split; [|split; [|split; [|split; [|split]]]]]]]].
  - intros s. unfold PricingService_GetData, mbind, M_bind, m_bind. simpl.
    by destruct (priceData s !! key).
  - intros s. unfold AlgoExecutionService_GetData, mbind, M_bind, m_bind. simpl.
    by destruct (algoExecutionData s !! key).
  - intros s. unfold ExecutionService_GetData, mbind, M_bind, m_bind. simpl.
    by destruct (executionOrderData s !! key).
  - intros s. unfold TradeBookingService_GetData, mbind, M_bind, m_bind. simpl.
    by destruct (tradeData s !! key).
  - intros s. unfold PositionService_GetData, mbind, M_bind, m_bind. simpl.
    by destruct (positionData s !! key).
  - intros s. unfold RiskService_GetData, mbind, M_bind, m_bind. simpl.
    by destruct (pv01Data s !! key).
  - intros s. unfold InquiryService_GetData, mbind, M_bind, m_bind. simpl.
    by destruct (inquiryData s !! key).
  - intros V dataMap. unfold BaseService_GetData. by destruct (dataMap !! key).
  - intros s.
    unfold MarketDataService_GetData, orderBookMap_at, mbind, M_bind, m_bind. simpl.
    destruct (orderBookMap s !! key) as [b|] eqn:E; simpl.
    + by rewrite E.
    + unfold lift. destruct (ProductFactory.QueryProduct key); simpl; try done.
      destruct s; simpl. by rewrite lookup_insert_eq.
  - destruct (ProductFactory.QueryProduct key) as [b| |] eqn:E.
    + left. exists b. split; [done|]. by apply QueryProduct_productId.
    + right. unfold ProductFactory.QueryProduct in *.
      by destruct (ProductFactory.table_find key _).
    + unfold ProductFactory.QueryProduct in *.
      by destruct (ProductFactory.table_find key _).
Qed.

End GetDataTheorem.

(** C5, the claim as stated fails: GetData on MarketDataService with a key
    that is not in the store does not fail and changes the store. *)
Lemma MarketData_GetData_creates :
  let run := MarketDataService_GetData "91282CAV3" Scenario.system0 in
  orderBookMap Scenario.system0 !! "91282CAV3" = None /\
  fst run = Ok (mkOrderBook Scenario.US2Y [] []) /\
  orderBookMap (snd run) !! "91282CAV3" = Some (mkOrderBook Scenario.US2Y [] []).
Proof. vm_compute. repeat split. Qed.

(* ===================================================================== *)
(** * [==] on binary64 *)
(* ===================================================================== *)

Module Binary64Facts.

(** Zeros of either sign are one value for [==]. *)
Definition unsigned_zero (x : spec_float) : spec_float :=
  match x with
  | S754_zero _ => S754_zero false
  | _ => x
  end.

Lemma SFeqb_true_iff (x y : spec_float) :
  SFeqb x y = true <-> x ≠ S754_nan /\ unsigned_zero x = unsigned_zero y.
Proof.
  unfold SFeqb.
  destruct x as [sx|sx| |sx mx ex], y as [sy|sy| |sy my ey];
    try destruct sx; try destruct sy; simpl;
    try (split; [discriminate | intros [? ?]; congruence]);
    try (split; [done | discriminate]);
    try (split; [done | intros [? ?]; done]).
  - (* both negative *)
    destruct (Z.compare_spec ex ey) as [->| |]; simpl;
      try (split; [discriminate | intros [_ [= ? ?]]; lia]).
    change (Pos.compare_cont Eq mx my) with (Pos.compare mx my).
    destruct (Pos.compare_spec mx my) as [->| |]; simpl;
      try (split; [discriminate | intros [_ [= ?]]; lia]).
    done.
  - (* both positive *)
    destruct (Z.compare_spec ex ey) as [->| |]; simpl;
      try (split; [discriminate | intros [_ [= ? ?]]; lia]).
    change (Pos.compare_cont Eq mx my) with (Pos.compare mx my).
    destruct (Pos.compare_spec mx my) as [->| |]; simpl;
      try (split; [discriminate | intros [_ [= ?]]; lia]).
    done.
Qed.

Lemma SFeqb_sym (x y : spec_float) : SFeqb x y = SFeqb y x.
Proof.
  destruct (SFeqb x y) eqn:E1, (SFeqb y x) eqn:E2; try done.
  - apply SFeqb_true_iff in E1 as [Hx Hxy].
    assert (SFeqb y x = true); [|congruence].
    apply SFeqb_true_iff. split; [|done].
    intros ->. destruct x; simpl in *; congruence.
  - apply SFeqb_true_iff in E2 as [Hy Hyx].
    assert (SFeqb x y = true); [|congruence].
    apply SFeqb_true_iff. split; [|done].
    intros ->. destruct y; simpl in *; congruence.
Qed.

Lemma SFeqb_trans (x y z : spec_float) :
  SFeqb x y = true -> SFeqb y z = true -> SFeqb x z = true.
Proof.
  rewrite !SFeqb_true_iff. intros [Hx Hxy] [Hy Hyz]. split; congruence.
Qed.

End Binary64Facts.

(* ===================================================================== *)
(** * Concrete runs of the connectors and services *)
(* ===================================================================== *)

Module Runs.

Import Scenario.

Definition price_header : string := "Timestamp,CUSIP,Bid,Ask,Spread".
Definition price_line : string :=
  "2024-12-20 09:00:00.000,91282CAV3,99-316,100-002,0.0078125".

Definition book_header : string :=
  "Timestamp,CUSIP,Bid1,BidSize1,Ask1,AskSize1,Bid2,BidSize2,Ask2,AskSize2,Bid3,BidSize3,Ask3,AskSize3,Bid4,BidSize4,Ask4,AskSize4,Bid5,BidSize5,Ask5,AskSize5".
Definition book_line : string :=
  "2024-12-20 09:00:00.000,91282CAV3,99-31+,1000000,100-000,1000000,99-310,2000000,100-00+,2000000,99-306,3000000,100-010,3000000,99-30+,4000000,100-012,4000000,99-300,5000000,100-020,5000000".

(** A clock that ticks in nanoseconds and is read once a second. *)
Definition clock0 : Clock :=
  mkClock 1000000 (fun n => Z.of_nat n * 1000000000).

Definition pricing0 : @PricingSystem spec_float := wired_PricingSystem clock0.

#[local] Instance order : HashOrder spec_float := insertion_order spec_float.


(** A book with two bids at 99-310. *)
Definition doubled_book : OrderBook spec_float :=
  mkOrderBook US2Y
    [ mkOrder (BondAnalytics.lit 9996875 5) 1000000 BID;
      mkOrder (BondAnalytics.lit 9996875 5) 2000000 BID ]
    [ mkOrder (Binary64.of_Z 100) 2000000 OFFER ].

Definition system_doubled : @System spec_float :=
  set_orderBookMap (insert "91282CAV3" doubled_book) system0.

Definition an_order : ExecutionOrder spec_float :=
  mkExecutionOrder US2Y BID "Algo00000000000" MARKET par 1000000 0
                   "AlgoParent00001" false.

End Runs.

Lemma BookTrade_leaves_store_witness :
  let run := TradeBookingService_BookTrade Scenario.T1 Scenario.system0 in
  tradeData (snd run) = tradeData Scenario.system0 /\
  fst (TradeBookingService_GetData "T1" (snd run))
  = Throw (runtime_error "Key not found") /\
  filter trade_level (calls (snd run))
  = filter trade_level (calls Scenario.system0)
    ++ map (fun l => ProcessAdd_Trade l Scenario.T1) (trade_listeners Scenario.system0).
Proof.
  destruct (BookTrade_leaves_store Scenario.system0 Scenario.T1 Runs.an_order)
    as (H1 & _ & H3 & _ & H5 & _).
  split; [exact H1|]. split; [exact H3|].
  apply H5. vm_compute. reflexivity.
Defined.


(** The aggregation scenario: two bids at one price become one bid with
    the sum of the quantities. *)
Example Aggregate_two_bids :
  Aggregate (ho:=Runs.order) (bidStack Runs.doubled_book) BID
  = [ mkOrder (BondAnalytics.lit 9996875 5) 3000000 BID ].
Proof. vm_compute. reflexivity. Qed.

Lemma AggregateDepth_aggregates_witness :
  exists after s',
    AggregateDepth (ho:=Runs.order) "91282CAV3" Runs.system_doubled = (Ok after, s') /\
    orderBookMap s' !! "91282CAV3" = Some after /\
    book_product after = Scenario.US2Y /\
    aggregated (bidStack Runs.doubled_book) BID (bidStack after) /\
    aggregated (offerStack Runs.doubled_book) OFFER (offerStack after).
Proof.
  apply (AggregateDepth_aggregates (dbl:=Binary64.double) (ho:=Runs.order)
           Binary64Facts.SFeqb_sym Binary64Facts.SFeqb_trans
           Runs.system_doubled "91282CAV3").
  - intros x Hx. vm_compute in Hx.
    repeat (apply elem_of_cons in Hx as [->|Hx]; [reflexivity|]).
    by apply elem_of_nil in Hx.
  - intros x Hx. vm_compute in Hx.
    repeat (apply elem_of_cons in Hx as [->|Hx]; [reflexivity|]).
    by apply elem_of_nil in Hx.
Defined.

(* ===================================================================== *)
(** * The fractional price codec *)
(* ===================================================================== *)

(** C7, the claim as stated fails: ["99-162+"] has four characters after
    the dash, and Frac2Price accepts exactly three. *)
Lemma decode_99_162_plus_rejected :
  Frac2Price (D:=spec_float) "99-162+"
  = Throw (invalid_argument
             "Invalid format: Fractional part should be exactly 3 characters.") /\
  Frac2Price (D:=spec_float) "99-162+" ≠ Ok (BondAnalytics.lit 99515625 6).
Proof. vm_compute. split; [reflexivity | discriminate]. Qed.

(** C7 (amended).  On binary64 doubles, and on exact rationals alike:
    decode("99-16+") returns 99.515625 = 99 + 16/32 + 4/256, while
    decode("99-162+") is rejected with invalid_argument because the part
    after the dash is not three characters long; encode(99.515625) returns
    "99-16+", and encode(100.0) returns "100-000", the 32nds printed with
    two digits. *)
Theorem codec_literal_cases :
  let v64 : spec_float := BondAnalytics.lit 99515625 6 in
  let vQ : Qc := BondAnalytics.lit 99515625 6 in
  (Frac2Price "99-16+" = Ok v64 /\
   v64 = d_add (d_add (d_of_Z 99) (d_div (d_of_Z 16) (d_of_Z 32)))
               (d_div (d_of_Z 4) (d_of_Z 256)) /\
   Frac2Price (D:=spec_float) "99-162+"
   = Throw (invalid_argument
              "Invalid format: Fractional part should be exactly 3 characters.") /\
   Price2Frac v64 = Ok "99-16+" /\
   Price2Frac (d_of_Z 100 : spec_float) = Ok "100-000") /\
  (Frac2Price "99-16+" = Ok vQ /\
   vQ = d_add (d_add (d_of_Z 99) (d_div (d_of_Z 16) (d_of_Z 32)))
              (d_div (d_of_Z 4) (d_of_Z 256)) /\
   Frac2Price (D:=Qc) "99-162+"
   = Throw (invalid_argument
              "Invalid format: Fractional part should be exactly 3 characters.") /\
   Price2Frac vQ = Ok "99-16+" /\
   Price2Frac (d_of_Z 100 : Qc) = Ok "100-000").
Proof.
  split.
  - vm_compute. repeat split.
  - repeat split; vm_compute; try apply (f_equal (@Ok Qc)); apply Qc_is_canon; reflexivity.
Qed.

(* ===================================================================== *)
(** * Numerals: printing and parsing agree *)
(* ===================================================================== *)

Module NumeralFacts.

Import Numeral.

(** Strings made of decimal digits only. *)
Fixpoint digits_only (s : string) : bool :=
match s with
| EmptyString => true
| String c s' => is_digit c && digits_only s'
end.

Lemma string_of_uint_digits (u : Decimal.uint) :
  digits_only (NilEmpty.string_of_uint u) = true.
Proof. induction u; simpl; try done. Qed.

Lemma is_digit_not_dash (c : ascii) : is_digit c = true -> Ascii.eqb c "-" = false.
Proof. destruct c as [[] [] [] [] [] [] [] []]; try discriminate; reflexivity. Qed.

Lemma is_digit_not_space (c : ascii) : is_digit c = true -> is_space c = false.
Proof. destruct c as [[] [] [] [] [] [] [] []]; try discriminate; reflexivity. Qed.

Lemma is_digit_no_sign (c : ascii) (s : string) :
  is_digit c = true -> take_sign (String c s) = (false, String c s).
Proof. destruct c as [[] [] [] [] [] [] [] []]; try discriminate; reflexivity. Qed.

(** The decimal numeral of a natural number: a non-empty string of digits
    whose value is the number. *)
Lemma to_string_nonneg (X : Z) :
  0 <= X ->
  exists u c s,
    to_string X = NilEmpty.string_of_uint u /\
    NilEmpty.string_of_uint u = String c s /\
    Z.of_uint u = X.
Proof.
  intros HX. unfold to_string. destruct X as [|p|p]; [| |lia].
  - exists (Decimal.D0 Decimal.Nil), "0"%char, "". repeat split.
  - simpl. pose proof (DecimalPos.Unsigned.to_uint_nonnil p) as Hn.
    pose proof (DecimalPos.Unsigned.of_to p) as Hp.
    destruct (Pos.to_uint p) as [|u|u|u|u|u|u|u|u|u|u] eqn:E; [done|..];
      (eexists _, _, _; split; [reflexivity|]; split; [reflexivity|];
       unfold Z.of_uint; rewrite Hp; reflexivity).
Qed.

Lemma span_digits_all (s : string) :
  digits_only s = true -> span_digits s = (s, "").
Proof.
  induction s as [|c s IH]; simpl; [done|].
  intros [Hc Hs]%andb_prop. rewrite Hc, (IH Hs). reflexivity.
Qed.

Lemma digits_value_uint (u : Decimal.uint) :
  digits_value (NilEmpty.string_of_uint u) = Z.of_uint u.
Proof. unfold digits_value. rewrite NilEmpty.usu. reflexivity. Qed.

(** [std::stod] on the decimal numeral of a natural number. *)
Lemma stod_to_string {D} {dbl : Double D} (X : Z) :
  0 <= X ->
  d_is_finite (d_of_Z X) = true ->
  stod (to_string X) = Ok (d_of_Z X).
Proof.
  intros HX Hfin. destruct (to_string_nonneg X HX) as (u & c & s & -> & Es & Hu).
  pose proof (string_of_uint_digits u) as Hd.
  unfold stod. rewrite Es in *. simpl in Hd. apply andb_prop in Hd as [Hc Hs].
  simpl skip_spaces. rewrite (is_digit_not_space c Hc).
  rewrite (is_digit_no_sign c s Hc).
  rewrite span_digits_all by (simpl; by rewrite Hc, Hs).
  simpl. rewrite <- Es, digits_value_uint, Hu, Hfin. reflexivity.
Qed.

(** ** Cutting a string at its dash *)

Lemma length_append (s t : string) :
  String.length (s +:+ t) = (String.length s + String.length t)%nat.
Proof. induction s as [|c s IH]; simpl; [done | by rewrite IH]. Qed.

Lemma substring_whole (s : string) : substring 0 (String.length s) s = s.
Proof. induction s as [|c s IH]; simpl; [done | by rewrite IH]. Qed.

Lemma substring_prefix (s t : string) :
  substring 0 (String.length s) (s +:+ t) = s.
Proof.
  induction s as [|c s IH]; simpl; [by destruct t | by rewrite IH].
Qed.

Lemma find_dash (s t : string) :
  digits_only s = true ->
  PriceUtils.find "-" (s +:+ String "-" t) = Some (String.length s).
Proof.
  induction s as [|c s IH]; simpl; [done|].
  intros [Hc Hs]%andb_prop. rewrite (is_digit_not_dash c Hc), (IH Hs). reflexivity.
Qed.

Lemma substr_from_dash (s t : string) :
  PriceUtils.substr_from (String.length s + 1) (s +:+ String "-" t) = t.
Proof.
  unfold PriceUtils.substr_from. rewrite length_append. simpl.
  replace (String.length s + S (String.length t) - (String.length s + 1))%nat
    with (String.length t) by lia.
  induction s as [|c s IH]; simpl; [apply substring_whole | exact IH].
Qed.

Lemma append_assoc (a b c : string) : (a +:+ b) +:+ c = a +:+ (b +:+ c).
Proof.
  induction a as [|x a IH]; [done|].
  change (String x ((a +:+ b) +:+ c) = String x (a +:+ b +:+ c)). by f_equal.
Qed.

End NumeralFacts.

(* ===================================================================== *)
(** * The codec on valid price strings *)
(* ===================================================================== *)

(** The 32nds as the encoder prints them: two digits. *)
Definition two_digits (YY : Z) : string :=
(if YY <? 10 then "0" else "") +:+ Numeral.to_string YY.

(** The last character of a price string: a digit, or [+] for 4. *)
Definition last_char (Z256 : Z) (plus : bool) : string :=
if plus then "+" else Numeral.to_string Z256.

(** The string [X-YYZ]. *)
Definition frac_string (X YY Z256 : Z) (plus : bool) : string :=
Numeral.to_string X +:+ "-" +:+ two_digits YY +:+ last_char Z256 plus.

(** [X-YYZ] is a valid price string: X a natural number that an [int]
    holds, YY in 00..31, Z in 0..7, or [+] in place of 4. *)
Definition valid_frac (X YY Z256 : Z) (plus : bool) : Prop :=
0 <= X <= INT_MAX /\ 0 <= YY <= 31 /\ 0 <= Z256 <= 7 /\ (plus = true -> Z256 = 4).

Module CodecFacts.

Import Numeral NumeralFacts.

Lemma Z_range_ind (P : Z -> Prop) (n : nat) :
  (forall k : nat, (k <= n)%nat -> P (Z.of_nat k)) ->
  forall z, 0 <= z <= Z.of_nat n -> P z.
Proof.
  intros HP z Hz. rewrite <- (Z2Nat.id z) by lia. apply HP. lia.
Qed.

(** [std::stod] on a non-empty string of digits. *)
Lemma stod_digits {D} {dbl : Double D} (s : string) :
  digits_only s = true ->
  s ≠ "" ->
  d_is_finite (d_of_Z (digits_value s)) = true ->
  stod s = Ok (d_of_Z (digits_value s)).
Proof.
  intros Hd Hne Hfin. destruct s as [|c s]; [done|].
  simpl in Hd. apply andb_prop in Hd as [Hc Hs].
  unfold stod. simpl skip_spaces. rewrite (is_digit_not_space c Hc).
  rewrite (is_digit_no_sign c s Hc).
  rewrite span_digits_all by (simpl; by rewrite Hc, Hs).
  simpl. rewrite Hfin. reflexivity.
Qed.

(** The three characters after the dash, once [+] has been replaced. *)
Definition plus_replaced (fractionalPart : string) : string :=
match String.get 2 fractionalPart with
| Some "+"%char => PriceUtils.set_char 2 "4" fractionalPart
| _ => fractionalPart
end.

(** What the decoder reads in the three characters after the dash. *)
Lemma fraction_fields (YY Z256 : Z) (plus : bool) :
  0 <= YY <= 31 -> 0 <= Z256 <= 7 -> (plus = true -> Z256 = 4) ->
  let r := two_digits YY +:+ last_char Z256 plus in
  String.length r = 3%nat /\
  digits_only (substring 0 2 (plus_replaced r)) = true /\
  substring 0 2 (plus_replaced r) ≠ "" /\
  digits_value (substring 0 2 (plus_replaced r)) = YY /\
  digits_only (substring 2 1 (plus_replaced r)) = true /\
  substring 2 1 (plus_replaced r) ≠ "" /\
  digits_value (substring 2 1 (plus_replaced r)) = Z256.
Proof.
  intros HYY HZ Hplus. revert Hplus.
  pattern YY. apply (Z_range_ind _ 31); [|exact HYY]. intros k Hk.
  pattern Z256. apply (Z_range_ind _ 7); [|exact HZ]. intros j Hj.
  do 32 (destruct k as [|k]; [
    do 8 (destruct j as [|j]; [
      destruct plus; intros Hp;
        [ try (specialize (Hp eq_refl); discriminate Hp) | ];
        vm_compute; repeat split; discriminate |]); lia |]).
  lia.
Qed.

End CodecFacts.

Section Decode.
Context {D : Type} {dbl : Double D}.
Import Numeral NumeralFacts CodecFacts.

(** The price [X + YY/32 + Z/256], computed as the decoder computes it. *)
Definition price_of (X YY Z256 : Z) : D :=
d_add (d_add (d_of_Z X) (d_div (d_of_Z YY) BASE32)) (d_div (d_of_Z Z256) BASE256).

(** Decoding a valid price string, in any arithmetic in which the three
    integers read are finite doubles. *)
Lemma Frac2Price_valid (X YY Z256 : Z) (plus : bool) :
  valid_frac X YY Z256 plus ->
  d_is_finite (d_of_Z X) = true ->
  d_is_finite (d_of_Z YY) = true ->
  d_is_finite (d_of_Z Z256) = true ->
  Frac2Price (frac_string X YY Z256 plus) = Ok (price_of X YY Z256).
Proof.
  intros (HX & HYY & HZ & Hplus) FX FYY FZ.
  destruct (fraction_fields YY Z256 plus HYY HZ Hplus)
    as (Hlen & Hd1 & Hn1 & Hv1 & Hd2 & Hn2 & Hv2).
  set (r := two_digits YY +:+ last_char Z256 plus) in *.
  unfold Frac2Price, frac_string. fold r.
  change ("-" +:+ r) with (String "-" r).
  destruct (to_string_nonneg X (proj1 HX)) as (u & c & s & Eu & Es & Hu).
  assert (Hdig : digits_only (to_string X) = true)
    by (rewrite Eu; apply string_of_uint_digits).
  rewrite (find_dash _ _ Hdig), substring_prefix, substr_from_dash.
  rewrite (stod_to_string X (proj1 HX) FX). simpl rethrow.
  change (mbind ?k (Ok ?a)) with (k a). cbv beta.
  rewrite Hlen. simpl negb. cbv iota.
  fold (plus_replaced r).
  rewrite (stod_digits _ Hd1 Hn1) by (rewrite Hv1; exact FYY).
  rewrite (stod_digits _ Hd2 Hn2) by (rewrite Hv2; exact FZ).
  rewrite Hv1, Hv2. reflexivity.
Qed.

Lemma in_int_range (z : Z) : INT_MIN <= z <= INT_MAX -> in_int z = true.
Proof. unfold in_int. intros. apply andb_true_intro. split; apply Z.leb_le; lia. Qed.

(** The string that the encoder assembles from the three integers it
    computes. *)
Lemma Price2Frac_parts (price : D) (X YY Z256 : Z) :
  0 <= YY <= 31 -> 0 <= Z256 <= 7 ->
  cast_int (d_floor price) = Ok X ->
  cast_int (d_mul (d_sub price (d_of_Z X)) BASE32) = Ok YY ->
  cast_int (d_mul (d_sub price (d_of_Z X)) BASE256) = Ok (8 * YY + Z256) ->
  Price2Frac price = Ok (frac_string X YY Z256 (Z256 =? 4)).
Proof.
  intros HYY HZ Hint Hxy Hz. unfold Price2Frac. rewrite Hint.
  change (mbind ?k (Ok ?a)) with (k a). cbv beta.
  rewrite Hxy. change (mbind ?k (Ok ?a)) with (k a). cbv beta.
  rewrite Hz. change (mbind ?k (Ok ?a)) with (k a). cbv beta.
  unfold FRACTIONAL_THRESHOLD.
  assert (Hrem : Z.rem (8 * YY + Z256) 8 = Z256).
  { rewrite Z.rem_mod_nonneg by lia. symmetry.
    apply (Z.mod_unique _ _ YY); lia. }
  rewrite Hrem. unfold frac_string, two_digits, last_char.
  rewrite !append_assoc. destruct (Z256 =? 4); reflexivity.
Qed.

End Decode.

Module ExactFacts.

Local Open Scope Q_scope.

Lemma this_of_Z (z : Z) : this (Exact.of_Z z) == inject_Z z.
Proof. apply Qred_correct. Qed.

Lemma this_plus (a b : Qc) : this (a + b)%Qc == this a + this b.
Proof. apply Qred_correct. Qed.

Lemma this_minus (a b : Qc) : this (a - b)%Qc == this a - this b.
Proof.
  unfold Qcminus. rewrite this_plus. unfold Qcopp. simpl.
  rewrite Qred_correct. reflexivity.
Qed.

Lemma this_mult (a b : Qc) : this (a * b)%Qc == this a * this b.
Proof. apply Qred_correct. Qed.

Lemma this_div (a b : Qc) : this (a / b)%Qc == this a / this b.
Proof.
  unfold Qcdiv. rewrite this_mult. unfold Qcinv. simpl.
  rewrite Qred_correct. reflexivity.
Qed.

(** Truncation of a non-negative rational given as any fraction. *)
Lemma to_Z_fraction (q : Qc) (n : Z) (d : positive) :
  this q == n # d -> (0 <= n)%Z -> Exact.to_Z q = Some (n / Zpos d)%Z.
Proof.
  intros E Hn. unfold Exact.to_Z. f_equal.
  unfold Qeq in E. simpl in E.
  assert (HN : (0 <= Qnum q)%Z) by nia.
  rewrite Z.quot_div_nonneg by lia.
  rewrite <- (Z.div_mul_cancel_r (Qnum q) (Zpos (Qden q)) (Zpos d)) by lia.
  rewrite E, (Z.mul_comm (Zpos (Qden q)) (Zpos d)).
  apply Z.div_mul_cancel_r; lia.
Qed.

Lemma Qfloor_fraction (q : Q) (n : Z) (d : positive) :
  q == n # d -> Qfloor q = (n / Zpos d)%Z.
Proof. intros E. rewrite (Qfloor_comp _ _ E). reflexivity. Qed.

End ExactFacts.

Section ExactCodec.
Import Numeral NumeralFacts CodecFacts ExactFacts.

Variables X YY Z256 : Z.
Hypothesis HX : 0 <= X <= INT_MAX.
Hypothesis HYY : 0 <= YY <= 31.
Hypothesis HZ : 0 <= Z256 <= 7.

Let value : Qc := price_of X YY Z256.

Lemma value_fraction : (this value == (256 * X + 8 * YY + Z256) # 256)%Q.
Proof.
  unfold value, price_of, BASE32, BASE256. simpl d_add. simpl d_div. simpl d_of_Z.
  rewrite !this_plus, !this_div, !this_of_Z.
  unfold Qeq, Qdiv, Qmult, Qplus, Qinv, inject_Z. simpl. lia.
Qed.

Lemma cast_int_fraction (q : Qc) (n : Z) (d : positive) :
  (this q == n # d)%Q -> 0 <= n -> in_int (n / Zpos d) = true ->
  cast_int q = Ok (n / Zpos d).
Proof.
  intros E Hn Hin. unfold cast_int. simpl d_to_Z.
  rewrite (to_Z_fraction q n d E Hn), Hin. reflexivity.
Qed.

Lemma floor_value : d_floor value = d_of_Z X.
Proof.
  simpl d_floor. simpl d_of_Z. unfold Exact.floor. f_equal.
  rewrite (Qfloor_fraction _ _ _ value_fraction).
  symmetry. apply (Z.div_unique _ _ _ (8 * YY + Z256)); lia.
Qed.

Lemma intpart_value : cast_int (d_floor value) = Ok X.
Proof.
  rewrite floor_value, (cast_int_fraction _ X 1).
  - by rewrite Z.div_1_r.
  - simpl d_of_Z. apply this_of_Z.
  - lia.
  - rewrite Z.div_1_r. apply in_int_range. unfold INT_MIN, INT_MAX in *. lia.
Qed.

Lemma fracpart_fraction :
  (this (d_sub value (d_of_Z X)) == (8 * YY + Z256) # 256)%Q.
Proof.
  simpl d_sub. simpl d_of_Z. rewrite this_minus, value_fraction, this_of_Z.
  unfold Qeq, Qminus, Qplus, Qopp, inject_Z. simpl. lia.
Qed.

Lemma xy_value : cast_int (d_mul (d_sub value (d_of_Z X)) BASE32) = Ok YY.
Proof.
  assert (E : (8 * YY + Z256) / 8 = YY)
    by (symmetry; apply (Z.div_unique _ _ _ Z256); lia).
  rewrite (cast_int_fraction _ (8 * YY + Z256) 8).
  - by rewrite E.
  - unfold BASE32. simpl d_mul. simpl (d_of_Z 32).
    rewrite this_mult, fracpart_fraction, this_of_Z.
    unfold Qeq, Qmult, inject_Z. simpl. lia.
  - lia.
  - rewrite E. apply in_int_range. unfold INT_MIN, INT_MAX. lia.
Qed.

Lemma z256_value :
  cast_int (d_mul (d_sub value (d_of_Z X)) BASE256) = Ok (8 * YY + Z256).
Proof.
  rewrite (cast_int_fraction _ (8 * YY + Z256) 1).
  - by rewrite Z.div_1_r.
  - unfold BASE256. simpl d_mul. simpl (d_of_Z 256).
    rewrite this_mult, fracpart_fraction, this_of_Z.
    unfold Qeq, Qmult, inject_Z. simpl. lia.
  - lia.
  - rewrite Z.div_1_r. apply in_int_range. unfold INT_MIN, INT_MAX. lia.
Qed.

(** Encoding the price of a valid string prints [+] for 4. *)
Lemma Price2Frac_value :
  Price2Frac value = Ok (frac_string X YY Z256 (Z256 =? 4)).
Proof.
  apply Price2Frac_parts; [done | done | | |].
  - exact intpart_value.
  - exact xy_value.
  - exact z256_value.
Qed.

End ExactCodec.

(* ===================================================================== *)
(** * The codec in IEEE binary64 *)
(* ===================================================================== *)

(** Every number that the codec meets on a valid price string is a
    multiple of 1/256 below 2^53/256: binary64 holds these and adds,
    subtracts, floors and truncates them without rounding. *)

Module Binary64Exact.

Import Binary64.

(** ** Binary digits *)

Lemma digits2_pos_bounds (p : positive) :
  2 ^ (Zpos (digits2_pos p) - 1) <= Zpos p < 2 ^ Zpos (digits2_pos p).
Proof.
  induction p as [p IH|p IH|]; simpl digits2_pos.
  - rewrite Pos2Z.inj_succ. replace (Z.succ (Zpos (digits2_pos p)) - 1)
      with (Z.succ (Zpos (digits2_pos p) - 1)) by lia.
    rewrite !Z.pow_succ_r by lia. lia.
  - rewrite Pos2Z.inj_succ. replace (Z.succ (Zpos (digits2_pos p)) - 1)
      with (Z.succ (Zpos (digits2_pos p) - 1)) by lia.
    rewrite !Z.pow_succ_r by lia. lia.
  - simpl. lia.
Qed.

Lemma digits2_pos_unique (p : positive) (d : Z) :
  2 ^ (d - 1) <= Zpos p < 2 ^ d -> Zpos (digits2_pos p) = d.
Proof.
  intros [Hlo Hhi]. pose proof (digits2_pos_bounds p) as [Blo Bhi].
  assert (0 < d).
  { destruct (Z_lt_le_dec 0 d); [done|]. 
    assert (2 ^ d <= 1); [|lia].
    destruct (Z.eq_dec d 0) as [->|]; [simpl; lia|].
    rewrite Z.pow_neg_r by lia. lia. }
  destruct (Z_lt_le_dec (Zpos (digits2_pos p)) d) as [Hlt|Hge].
  - assert (2 ^ Zpos (digits2_pos p) <= 2 ^ (d - 1)) by (apply Z.pow_le_mono_r; lia).
    lia.
  - destruct (Z_lt_le_dec d (Zpos (digits2_pos p))) as [Hlt|Hle]; [|lia].
    assert (2 ^ d <= 2 ^ (Zpos (digits2_pos p) - 1)) by (apply Z.pow_le_mono_r; lia).
    lia.
Qed.

Lemma digits2_pos_mul_pow2 (p q : positive) (k : Z) :
  0 <= k -> Zpos q = Zpos p * 2 ^ k ->
  Zpos (digits2_pos q) = Zpos (digits2_pos p) + k.
Proof.
  intros Hk E. apply digits2_pos_unique. rewrite E.
  pose proof (digits2_pos_bounds p) as [Blo Bhi].
  replace (Zpos (digits2_pos p) + k - 1) with ((Zpos (digits2_pos p) - 1) + k) by lia.
  rewrite !Z.pow_add_r by lia.
  assert (0 < 2 ^ k) by (apply Z.pow_pos_nonneg; lia).
  nia.
Qed.

Lemma iter_xO_Z (m t : positive) : Zpos (Pos.iter xO m t) = Zpos m * 2 ^ Zpos t.
Proof.
  induction t as [|t IH] using Pos.peano_ind.
  - simpl. lia.
  - rewrite Pos.iter_succ, Pos2Z.inj_xO, IH, Pos2Z.inj_succ, Z.pow_succ_r by lia. lia.
Qed.

(** ** Shifting right what has zeros at its low end *)

Definition exact_record (m : Z) : shr_record :=
  {| shr_m := m; shr_r := false; shr_s := false |}.

Lemma shr_1_even (m : Z) : 0 <= m -> shr_1 (exact_record (2 * m)) = exact_record m.
Proof. intros Hm. destruct m as [|p|p]; [done | done | lia]. Qed.

Lemma pow2_xO (p : positive) : 2 ^ Zpos p~0 = 2 ^ Zpos p * 2 ^ Zpos p.
Proof. rewrite Pos2Z.inj_xO, <- Z.pow_add_r by lia. f_equal. lia. Qed.

Lemma pow2_xI (p : positive) : 2 ^ Zpos p~1 = 2 * (2 ^ Zpos p * 2 ^ Zpos p).
Proof.
  rewrite Pos2Z.inj_xI, Z.pow_add_r, Z.pow_1_r by lia.
  change (2 * Zpos p) with (Zpos p~0). rewrite pow2_xO. lia.
Qed.

Lemma iter_shr_1_pow2 (p : positive) :
  forall m, 0 <= m ->
    SpecFloat.iter_pos shr_1 p (exact_record (m * 2 ^ Zpos p)) = exact_record m.
Proof.
  induction p as [p IH|p IH|]; intros m Hm.
  - assert (0 < 2 ^ Zpos p) by (apply Z.pow_pos_nonneg; lia).
    change (SpecFloat.iter_pos shr_1 p
              (SpecFloat.iter_pos shr_1 p
                 (shr_1 (exact_record (m * 2 ^ Zpos p~1)))) = exact_record m).
    rewrite pow2_xI.
    replace (m * (2 * (2 ^ Zpos p * 2 ^ Zpos p)))
      with (2 * ((m * 2 ^ Zpos p) * 2 ^ Zpos p)) by lia.
    rewrite shr_1_even by nia. rewrite IH by nia. apply IH. lia.
  - assert (0 < 2 ^ Zpos p) by (apply Z.pow_pos_nonneg; lia).
    change (SpecFloat.iter_pos shr_1 p
              (SpecFloat.iter_pos shr_1 p (exact_record (m * 2 ^ Zpos p~0)))
            = exact_record m).
    rewrite pow2_xO.
    replace (m * (2 ^ Zpos p * 2 ^ Zpos p))
      with ((m * 2 ^ Zpos p) * 2 ^ Zpos p) by lia.
    rewrite IH by nia. apply IH. lia.
  - change (shr_1 (exact_record (m * 2 ^ 1)) = exact_record m).
    replace (m * 2 ^ 1) with (2 * m) by lia. by apply shr_1_even.
Qed.

(** ** Rounding what needs no rounding *)

(** The float with [prec] significant bits whose value is [m * 2^e]. *)
Definition norm (m : positive) (e : Z) : spec_float :=
  let d := Zpos (digits2_pos m) in
  S754_finite false (Z.to_pos (Zpos m * 2 ^ (prec - d))) (e - (prec - d)).

Lemma binary_round_aux_full (mz : positive) (ez : Z) :
  Zpos (digits2_pos mz) = prec -> -1074 <= ez <= 971 ->
  binary_round_aux prec emax false (Zpos mz) ez loc_Exact = S754_finite false mz ez.
Proof.
  intros Hd He. unfold binary_round_aux, shr_fexp, Zdigits2, fexp, SpecFloat.emin.
  rewrite Hd. unfold prec, emax in *.
  assert (E0 : Z.max (53 + ez - 53) (3 - 1024 - 53) - ez = 0) by lia.
  rewrite E0. simpl. rewrite Hd, E0. simpl.
  destruct (Z.leb_spec ez (1024 - 53)); [done | lia].
Qed.

Lemma binary_round_aux_shifted (M mz n : positive) (ez : Z) :
  Zpos M = Zpos mz * 2 ^ Zpos n ->
  Zpos (digits2_pos mz) = prec -> -1074 <= ez + Zpos n <= 971 ->
  binary_round_aux prec emax false (Zpos M) ez loc_Exact
  = S754_finite false mz (ez + Zpos n).
Proof.
  intros HM Hd He.
  assert (HdM : Zpos (digits2_pos M) = prec + Zpos n)
    by (rewrite <- Hd; apply (digits2_pos_mul_pow2 mz M); [lia | done]).
  unfold binary_round_aux, shr_fexp, Zdigits2, fexp, SpecFloat.emin.
  rewrite HdM. unfold prec, emax in *.
  replace (Z.max (53 + Zpos n + ez - 53) (3 - 1024 - 53) - ez) with (Zpos n) by lia.
  unfold shr. simpl shr_record_of_loc. fold (exact_record (Zpos M)).
  rewrite HM, iter_shr_1_pow2 by lia.
  assert (E0 : Z.max (53 + (ez + Zpos n) - 53) (3 - 1024 - 53) - (ez + Zpos n) = 0) by lia.
  simpl. rewrite Hd, E0. simpl.
  destruct (Z.leb_spec (ez + Zpos n) (1024 - 53)); [done | lia].
Qed.

Lemma binary_round_norm (m M : positive) (k e : Z) :
  0 <= k -> Zpos M = Zpos m * 2 ^ k ->
  Zpos (digits2_pos m) <= prec ->
  -1074 <= e - (prec - Zpos (digits2_pos m)) <= 971 ->
  binary_round prec emax false M (e - k) = norm m e.
Proof.
  intros Hk HM Hd He. unfold norm, binary_round.
  set (d := Zpos (digits2_pos m)) in *.
  assert (HdM : Zpos (digits2_pos M) = d + k) by (by apply (digits2_pos_mul_pow2 m M)).
  assert (Hpow : 0 < 2 ^ (prec - d)) by (apply Z.pow_pos_nonneg; unfold prec in *; lia).
  assert (Hmz : Zpos (Z.to_pos (Zpos m * 2 ^ (prec - d))) = Zpos m * 2 ^ (prec - d))
    by (apply Z2Pos.id; nia).
  assert (Hdz : Zpos (digits2_pos (Z.to_pos (Zpos m * 2 ^ (prec - d)))) = prec).
  { rewrite (digits2_pos_mul_pow2 m _ (prec - d)); [fold d; lia | unfold prec in *; lia | done]. }
  rewrite HdM. unfold fexp, SpecFloat.emin, shl_align.
  replace (Z.max (d + k + (e - k) - prec) (3 - emax - prec) - (e - k))
    with (d + k - prec) by (unfold prec, emax in *; lia).
  destruct (d + k - prec) as [|t|t] eqn:Et.
  - (* the mantissa has exactly prec bits *)
    assert (M = Z.to_pos (Zpos m * 2 ^ (prec - d))) as <-.
    { apply Pos2Z.inj. rewrite Hmz, HM. f_equal. f_equal. lia. }
    rewrite binary_round_aux_full; [f_equal; lia | | unfold prec in *; lia].
    rewrite HdM. lia.
  - (* more bits than prec, the low ones zero *)
    rewrite (binary_round_aux_shifted M (Z.to_pos (Zpos m * 2 ^ (prec - d))) t).
    + f_equal. lia.
    + rewrite Hmz, HM, <- Z.mul_assoc, <- Z.pow_add_r by (unfold prec in *; lia).
      f_equal. f_equal. lia.
    + done.
    + unfold prec in *. lia.
  - (* fewer bits than prec: shifted left *)
    assert (Pos.iter xO M t = Z.to_pos (Zpos m * 2 ^ (prec - d))) as ->.
    { apply Pos2Z.inj. rewrite Hmz, iter_xO_Z, HM, <- Z.mul_assoc, <- Z.pow_add_r by lia.
      f_equal. f_equal. lia. }
    rewrite binary_round_aux_full; [f_equal; unfold prec, emax in *; lia | done |].
    unfold prec, emax in *. lia.
Qed.

(** ** Multiples of 1/256 *)

Definition mant (p : positive) : positive :=
  Z.to_pos (Zpos p * 2 ^ (prec - Zpos (digits2_pos p))).

Definition expo (p : positive) : Z := -8 - (prec - Zpos (digits2_pos p)).

(** The double whose value is [V / 256]. *)
Definition of_256ths (V : Z) : spec_float :=
  match V with
  | Z0 => S754_zero false
  | Zpos p => S754_finite false (mant p) (expo p)
  | Zneg _ => S754_nan
  end.

Lemma norm_256ths (p : positive) : norm p (-8) = of_256ths (Zpos p).
Proof. reflexivity. Qed.

Lemma digits2_pos_le (p : positive) (n : Z) :
  0 <= n -> Zpos p < 2 ^ n -> Zpos (digits2_pos p) <= n.
Proof.
  intros Hn Hp. pose proof (digits2_pos_bounds p) as [Blo _].
  destruct (Z_lt_le_dec n (Zpos (digits2_pos p))) as [Hlt|]; [|done].
  assert (2 ^ n <= 2 ^ (Zpos (digits2_pos p) - 1)) by (apply Z.pow_le_mono_r; lia).
  lia.
Qed.

Lemma mant_value (p : positive) :
  Zpos p < 2 ^ prec ->
  Zpos (mant p) = Zpos p * 2 ^ (prec - Zpos (digits2_pos p)).
Proof.
  intros Hp. pose proof (digits2_pos_le p prec ltac:(done) Hp).
  assert (0 < 2 ^ (prec - Zpos (digits2_pos p))) by (apply Z.pow_pos_nonneg; lia).
  unfold mant. rewrite Z2Pos.id; [done | nia].
Qed.

Lemma expo_range (p : positive) :
  Zpos p < 2 ^ prec -> -8 - prec < expo p <= -8.
Proof.
  intros Hp. pose proof (digits2_pos_le p prec ltac:(done) Hp). unfold expo. lia.
Qed.

Lemma shl_align_value (mx : positive) (ex ez : Z) :
  ez <= ex -> Zpos (fst (shl_align mx ex ez)) = Zpos mx * 2 ^ (ex - ez).
Proof.
  intros H. unfold shl_align. destruct (ez - ex) as [|t|t] eqn:E.
  - replace (ex - ez) with 0 by lia. simpl. lia.
  - lia.
  - simpl fst. rewrite iter_xO_Z. f_equal. f_equal. lia.
Qed.

Lemma align_256ths (p : positive) (ez : Z) :
  Zpos p < 2 ^ prec -> ez <= expo p ->
  Zpos (fst (shl_align (mant p) (expo p) ez)) = Zpos p * 2 ^ (-8 - ez).
Proof.
  intros Hp He. pose proof (digits2_pos_le p prec ltac:(done) Hp).
  rewrite shl_align_value, mant_value, <- Z.mul_assoc, <- Z.pow_add_r by (unfold expo in *; lia).
  f_equal. f_equal. unfold expo. lia.
Qed.

Lemma binary_normalize_256ths (V ez : Z) :
  ez <= -8 -> 0 <= V < 2 ^ prec ->
  binary_normalize prec emax (V * 2 ^ (-8 - ez)) ez false = of_256ths V.
Proof.
  intros Hk [HV0 HV]. destruct V as [|p|p]; [done | | lia].
  assert (0 < 2 ^ (-8 - ez)) by (apply Z.pow_pos_nonneg; lia).
  destruct (Zpos p * 2 ^ (-8 - ez)) as [|M|M] eqn:EM; [lia | | lia].
  unfold binary_normalize. rewrite <- norm_256ths.
  pose proof (digits2_pos_le p prec ltac:(done) HV).
  pose proof (Pos2Z.is_pos (digits2_pos p)).
  replace ez with (-8 - (-8 - ez)) at 1 by lia.
  apply binary_round_norm; unfold prec in *; try lia.
Qed.

Lemma SFadd_256ths (a b : Z) :
  0 <= a -> 0 <= b -> a + b < 2 ^ prec ->
  SFadd prec emax (of_256ths a) (of_256ths b) = of_256ths (a + b).
Proof.
  intros Ha Hb Hab.
  destruct a as [|pa|pa]; [by destruct b | | lia].
  destruct b as [|pb|pb]; [done | | lia].
  assert (Hpa : Zpos pa < 2 ^ prec) by lia.
  assert (Hpb : Zpos pb < 2 ^ prec) by lia.
  pose proof (expo_range pa Hpa). pose proof (expo_range pb Hpb).
  change (SFadd prec emax (of_256ths (Zpos pa)) (of_256ths (Zpos pb)))
    with (let ez := Z.min (expo pa) (expo pb) in
          binary_normalize prec emax
            (Zpos (fst (shl_align (mant pa) (expo pa) ez))
             + Zpos (fst (shl_align (mant pb) (expo pb) ez))) ez false).
  set (ez := Z.min (expo pa) (expo pb)). cbv zeta.
  rewrite !align_256ths by (try done; subst ez; lia).
  rewrite <- Z.mul_add_distr_r.
  apply binary_normalize_256ths; subst ez; lia.
Qed.

Lemma SFsub_256ths (a b : Z) :
  0 <= b <= a -> a < 2 ^ prec ->
  SFsub prec emax (of_256ths a) (of_256ths b) = of_256ths (a - b).
Proof.
  intros [Hb Hba] Ha.
  destruct b as [|pb|pb]; [| | lia].
  { rewrite Z.sub_0_r. by destruct a. }
  destruct a as [|pa|pa]; [lia | | lia].
  assert (Hpa : Zpos pa < 2 ^ prec) by lia.
  assert (Hpb : Zpos pb < 2 ^ prec) by lia.
  pose proof (expo_range pa Hpa). pose proof (expo_range pb Hpb).
  change (SFsub prec emax (of_256ths (Zpos pa)) (of_256ths (Zpos pb)))
    with (let ez := Z.min (expo pa) (expo pb) in
          binary_normalize prec emax
            (Zpos (fst (shl_align (mant pa) (expo pa) ez))
             - Zpos (fst (shl_align (mant pb) (expo pb) ez))) ez false).
  set (ez := Z.min (expo pa) (expo pb)). cbv zeta.
  rewrite !align_256ths by (try done; subst ez; lia).
  rewrite <- Z.mul_sub_distr_r.
  apply binary_normalize_256ths; subst ez; lia.
Qed.

Lemma norm_shift (p M : positive) (k e : Z) :
  0 <= k -> Zpos M = Zpos p * 2 ^ k -> Zpos (digits2_pos p) + k <= prec ->
  norm M (e - k) = norm p e.
Proof.
  intros Hk HM Hd. unfold norm. cbv zeta.
  rewrite (digits2_pos_mul_pow2 p M k Hk HM). f_equal; [|lia].
  f_equal. rewrite HM, <- Z.mul_assoc, <- Z.pow_add_r by lia.
  f_equal. f_equal. lia.
Qed.

Lemma of_Z_256ths (X : Z) :
  0 <= X -> 256 * X < 2 ^ prec -> of_Z X = of_256ths (256 * X).
Proof.
  intros HX Hlt. unfold of_Z.
  replace (256 * X) with (X * 2 ^ 8) in * by lia.
  destruct X as [|p|p]; [done | | lia].
  destruct (Zpos p * 2 ^ 8) as [|M|M] eqn:EM; [lia | | lia].
  unfold binary_normalize. rewrite <- norm_256ths.
  pose proof (digits2_pos_le M prec ltac:(done) Hlt) as HdM.
  rewrite (digits2_pos_mul_pow2 p M 8 ltac:(done) (eq_sym EM)) in HdM.
  pose proof (Pos2Z.is_pos (digits2_pos p)).
  change (-8) with (0 - 8). rewrite (norm_shift p M 8 0) by (done || lia).
  change 0 with (0 - 0) at 1.
  apply (binary_round_norm p p 0 0); unfold prec in *; lia.
Qed.

Lemma shiftr_mant (p k : positive) :
  Zpos p < 2 ^ prec -> expo p = Zneg k ->
  Z.shiftr (Zpos (mant p)) (Zpos k) = Zpos p / 256.
Proof.
  intros Hp Ek. pose proof (digits2_pos_le p prec ltac:(done) Hp).
  rewrite Z.shiftr_div_pow2, mant_value by done.
  replace (Zpos k) with (8 + (prec - Zpos (digits2_pos p))) by (unfold expo in Ek; lia).
  rewrite Z.pow_add_r by lia.
  apply Z.div_mul_cancel_r; [done|].
  apply Z.pow_nonzero; lia.
Qed.

Lemma to_Z_256ths (V : Z) :
  0 <= V < 2 ^ prec -> to_Z (of_256ths V) = Some (V / 256).
Proof.
  intros [HV0 HV]. destruct V as [|p|p]; [done | | lia].
  pose proof (expo_range p HV). unfold of_256ths, to_Z.
  destruct (expo p) as [|k|k] eqn:Ek; [lia | lia |].
  by rewrite (shiftr_mant p k HV Ek).
Qed.

Lemma floor_256ths (V : Z) :
  0 <= V < 2 ^ prec -> floor (of_256ths V) = of_Z (V / 256).
Proof.
  intros [HV0 HV]. destruct V as [|p|p]; [done | | lia].
  pose proof (expo_range p HV). unfold of_256ths, floor, floor_Z.
  destruct (expo p) as [|k|k] eqn:Ek; [lia | lia |].
  by rewrite (shiftr_mant p k HV Ek).
Qed.

Lemma is_finite_256ths (V : Z) : 0 <= V -> is_finite (of_256ths V) = true.
Proof. by destruct V. Qed.

Lemma to_Q_256ths (V : Z) :
  0 <= V < 2 ^ prec -> (to_Q (of_256ths V) == V # 256)%Q.
Proof.
  intros [HV0 HV]. destruct V as [|p|p]; [done | | lia].
  pose proof (expo_range p HV).
  pose proof (digits2_pos_le p prec ltac:(done) HV).
  unfold of_256ths, to_Q.
  destruct (expo p) as [|k|k] eqn:Ek; [lia | lia |].
  unfold Qeq, cond_Zopp. cbn [Qnum Qden].
  rewrite Pos2Z.inj_pow, mant_value by done.
  replace (Zpos k) with (8 + (prec - Zpos (digits2_pos p))) by (unfold expo in Ek; lia).
  rewrite Z.pow_add_r by lia. change (2 ^ 8) with 256. lia.
Qed.

(** ** The quotients and products of the codec, case by case *)

#[local] Instance spec_float_eq_dec : EqDecision spec_float.
Proof. solve_decision. Defined.

Definition all_upto (n : nat) (P : Z -> bool) : bool :=
  forallb P (map Z.of_nat (seq 0 (S n))).

Lemma all_upto_spec (n : nat) (P : Z -> bool) :
  all_upto n P = true -> forall z, 0 <= z <= Z.of_nat n -> P z = true.
Proof.
  intros H z Hz. unfold all_upto in H. rewrite forallb_forall in H.
  apply H, in_map_iff. exists (Z.to_nat z). split; [lia|].
  apply in_seq. lia.
Qed.

Lemma div_BASE32 (YY : Z) :
  0 <= YY <= 31 ->
  SFdiv prec emax (of_Z YY) (of_Z 32) = of_256ths (8 * YY).
Proof.
  intros H. eapply bool_decide_eq_true.
  revert YY H. apply (all_upto_spec 31 (fun YY =>
    bool_decide (SFdiv prec emax (of_Z YY) (of_Z 32) = of_256ths (8 * YY)))).
  by vm_compute.
Qed.

Lemma div_BASE256 (Z256 : Z) :
  0 <= Z256 <= 7 ->
  SFdiv prec emax (of_Z Z256) (of_Z 256) = of_256ths Z256.
Proof.
  intros H. eapply bool_decide_eq_true.
  revert Z256 H. apply (all_upto_spec 7 (fun Z256 =>
    bool_decide (SFdiv prec emax (of_Z Z256) (of_Z 256) = of_256ths Z256))).
  by vm_compute.
Qed.

Lemma mul_BASE32 (f : Z) :
  0 <= f <= 255 ->
  to_Z (SFmul prec emax (of_256ths f) (of_Z 32)) = Some (f / 8).
Proof.
  intros H. eapply bool_decide_eq_true.
  revert f H. apply (all_upto_spec 255 (fun f =>
    bool_decide (to_Z (SFmul prec emax (of_256ths f) (of_Z 32)) = Some (f / 8)))).
  by vm_compute.
Qed.

Lemma mul_BASE256 (f : Z) :
  0 <= f <= 255 ->
  to_Z (SFmul prec emax (of_256ths f) (of_Z 256)) = Some f.
Proof.
  intros H. eapply bool_decide_eq_true.
  revert f H. apply (all_upto_spec 255 (fun f =>
    bool_decide (to_Z (SFmul prec emax (of_256ths f) (of_Z 256)) = Some f))).
  by vm_compute.
Qed.

End Binary64Exact.

Section Binary64Codec.
Import Binary64 Binary64Exact.

Variables X YY Z256 : Z.
Hypothesis HX : 0 <= X <= INT_MAX.
Hypothesis HYY : 0 <= YY <= 31.
Hypothesis HZ : 0 <= Z256 <= 7.

Let value : spec_float := price_of X YY Z256.

Lemma below_2_prec (V : Z) : V <= 256 * X + 8 * YY + Z256 -> V < 2 ^ prec.
Proof.
  intros HV. change (2 ^ prec) with 9007199254740992.
  unfold INT_MAX in HX. lia.
Qed.

Lemma of_Z_intpart : of_Z X = of_256ths (256 * X).
Proof. apply of_Z_256ths; [lia | apply below_2_prec; lia]. Qed.

Lemma value_256ths : value = of_256ths (256 * X + 8 * YY + Z256).
Proof.
  unfold value, price_of, BASE32, BASE256.
  change (SFadd prec emax
            (SFadd prec emax (of_Z X) (SFdiv prec emax (of_Z YY) (of_Z 32)))
            (SFdiv prec emax (of_Z Z256) (of_Z 256))
          = of_256ths (256 * X + 8 * YY + Z256)).
  rewrite of_Z_intpart, (div_BASE32 YY HYY), (div_BASE256 Z256 HZ).
  rewrite !SFadd_256ths; try lia; try (apply below_2_prec; lia).
  done.
Qed.

Lemma to_Z_of_Z : to_Z (of_Z X) = Some X.
Proof.
  rewrite of_Z_intpart, to_Z_256ths by (split; [lia | apply below_2_prec; lia]).
  f_equal. rewrite Z.mul_comm. by apply Z.div_mul.
Qed.

Lemma floor_value64 : floor value = of_Z X.
Proof.
  rewrite value_256ths, floor_256ths by (split; [lia | apply below_2_prec; lia]).
  f_equal. symmetry. apply (Z.div_unique _ _ _ (8 * YY + Z256)); lia.
Qed.

Lemma intpart_value64 : cast_int (d_floor value) = Ok X.
Proof.
  unfold cast_int. change (d_to_Z (d_floor value)) with (to_Z (floor value)).
  rewrite floor_value64, to_Z_of_Z, in_int_range; [done|].
  unfold INT_MIN, INT_MAX in *. lia.
Qed.

Lemma fracpart_256ths : d_sub value (d_of_Z X) = of_256ths (8 * YY + Z256).
Proof.
  change (SFsub prec emax value (of_Z X) = of_256ths (8 * YY + Z256)).
  rewrite value_256ths, of_Z_intpart, SFsub_256ths
    by (try apply below_2_prec; lia).
  f_equal. lia.
Qed.

Lemma xy_value64 : cast_int (d_mul (d_sub value (d_of_Z X)) BASE32) = Ok YY.
Proof.
  rewrite fracpart_256ths. unfold cast_int, BASE32.
  change (d_to_Z (d_mul ?a (d_of_Z 32))) with (to_Z (SFmul prec emax a (of_Z 32))).
  rewrite mul_BASE32 by lia.
  replace ((8 * YY + Z256) / 8) with YY
    by (apply (Z.div_unique _ _ _ Z256); lia).
  rewrite in_int_range; [done|]. unfold INT_MIN, INT_MAX. lia.
Qed.

Lemma z256_value64 :
  cast_int (d_mul (d_sub value (d_of_Z X)) BASE256) = Ok (8 * YY + Z256).
Proof.
  rewrite fracpart_256ths. unfold cast_int, BASE256.
  change (d_to_Z (d_mul ?a (d_of_Z 256))) with (to_Z (SFmul prec emax a (of_Z 256))).
  rewrite mul_BASE256 by lia.
  rewrite in_int_range; [done|]. unfold INT_MIN, INT_MAX. lia.
Qed.

Lemma Price2Frac_value64 :
  Price2Frac value = Ok (frac_string X YY Z256 (Z256 =? 4)).
Proof.
  apply Price2Frac_parts; [done | done | | |].
  - exact intpart_value64.
  - exact xy_value64.
  - exact z256_value64.
Qed.

Lemma to_Q_value64 :
  (to_Q value == inject_Z X + inject_Z YY / 32 + inject_Z Z256 / 256)%Q.
Proof.
  rewrite value_256ths, to_Q_256ths by (split; [lia | apply below_2_prec; lia]).
  unfold Qeq, Qdiv, Qmult, Qplus, Qinv, inject_Z. simpl. lia.
Qed.

Lemma Frac2Price_value64 (plus : bool) :
  (plus = true -> Z256 = 4) ->
  Frac2Price (frac_string X YY Z256 plus) = Ok value.
Proof.
  intros Hplus. apply Frac2Price_valid; [done | | |].
  - change (is_finite (of_Z X) = true). rewrite of_Z_intpart.
    apply is_finite_256ths. lia.
  - change (is_finite (of_Z YY) = true).
    rewrite of_Z_256ths by (change (2 ^ prec) with 9007199254740992; lia).
    apply is_finite_256ths. lia.
  - change (is_finite (of_Z Z256) = true).
    rewrite of_Z_256ths by (change (2 ^ prec) with 9007199254740992; lia).
    apply is_finite_256ths. lia.
Qed.

End Binary64Codec.

(** C6.  Round trip of the codec.  For every valid price string
    s = X-YYZ (X a natural number that an int holds, printed in decimal;
    YY two digits in 00..31; Z a digit 0..7, or + meaning 4), decoding s
    returns X + YY/32 + Z/256, and encoding that value returns X-YYZ with
    + in place of a last 4: the string s itself unless s was written with
    a last character 4.  This holds of the code run on IEEE binary64
    doubles, where the decoded double is finite and stands for exactly
    that rational number, and of the code run on exact rationals. *)
Theorem codec_round_trip (X YY Z256 : Z) (plus : bool) :
  valid_frac X YY Z256 plus ->
  let s := frac_string X YY Z256 plus in
  let s' := frac_string X YY Z256 (Z256 =? 4) in
  let ieee : spec_float := price_of X YY Z256 in
  let exact : Qc := price_of X YY Z256 in
  (Frac2Price s = Ok ieee /\
   Binary64.is_finite ieee = true /\
   (Binary64.to_Q ieee == inject_Z X + inject_Z YY / 32 + inject_Z Z256 / 256)%Q /\
   Price2Frac ieee = Ok s') /\
  (Frac2Price s = Ok exact /\
   (this exact == inject_Z X + inject_Z YY / 32 + inject_Z Z256 / 256)%Q /\
   Price2Frac exact = Ok s') /\
  (plus = true \/ Z256 ≠ 4 -> s' = s).
Proof.
  intros Hv s s' ieee exact. pose proof Hv as (HX & HYY & HZ & Hplus).
  split; [|split].
  - split; [by apply Frac2Price_value64|].
    split.
    { unfold ieee. rewrite (value_256ths X YY Z256 HX HYY HZ).
      apply Binary64Exact.is_finite_256ths. lia. }
    split; [by apply to_Q_value64 | by apply Price2Frac_value64].
  - split; [by apply Frac2Price_valid|].
    split; [|by apply Price2Frac_value].
    unfold exact. rewrite (value_fraction X YY Z256).
    unfold Qeq, Qdiv, Qmult, Qplus, Qinv, inject_Z. simpl. lia.
  - intros Halias. unfold s, s'. f_equal.
    destruct plus.
    + rewrite (Hplus eq_refl). reflexivity.
    + destruct Halias as [|Hne]; [done|].
      by apply Z.eqb_neq in Hne as ->.
Qed.

Lemma codec_round_trip_witness :
  (Frac2Price "99-16+" = Ok (price_of 99 16 4 : spec_float) /\
   Binary64.is_finite (price_of 99 16 4) = true /\
   (Binary64.to_Q (price_of 99 16 4)
    == inject_Z 99 + inject_Z 16 / 32 + inject_Z 4 / 256)%Q /\
   Price2Frac (price_of 99 16 4 : spec_float) = Ok "99-16+") /\
  (Frac2Price "99-16+" = Ok (price_of 99 16 4 : Qc) /\
   (this (price_of 99 16 4 : Qc)
    == inject_Z 99 + inject_Z 16 / 32 + inject_Z 4 / 256)%Q /\
   Price2Frac (price_of 99 16 4 : Qc) = Ok "99-16+") /\
  (true = true \/ 4 ≠ 4 -> "99-16+" = "99-16+").
Proof.
  apply (codec_round_trip 99 16 4 true).
  unfold valid_frac, INT_MAX. repeat split; lia.
Defined.

(** The bounds of [valid_frac] on the integer part are those of the
    code: the encoder holds it in an [int], and prints it without the
    leading zeros that the decoder accepts. *)
Example Price2Frac_beyond_int :
  Price2Frac (price_of 2147483648 0 0 : spec_float) = Undef.
Proof. by vm_compute. Qed.

Example Frac2Price_leading_zero :
  Frac2Price "099-16+" = Ok (price_of 99 16 4 : spec_float) /\
  Price2Frac (price_of 99 16 4 : spec_float) = Ok "99-16+".
Proof. by vm_compute. Qed.

(* ===================================================================== *)
(** * Further properties of the services *)
(* ===================================================================== *)

(* ===================================================================== *)
(** * Further properties of the price codec *)
(* ===================================================================== *)

Section EncodeDecode.
Import Binary64 Binary64Exact.

(** X1.  Encoding then decoding.  On binary64, for every price V/256 with
    0 <= V and an integer part that an int holds, Price2Frac prints the
    string X-YYZ with X = V / 256, YY = (V mod 256) / 8 and Z = V mod 8
    (as + when it is 4), and Frac2Price reads that string back as the
    same double. *)
Theorem Price2Frac_then_Frac2Price (V : Z) :
  0 <= V < 256 * 2 ^ 31 ->
  let price := of_256ths V in
  let s := frac_string (V / 256) (V mod 256 / 8) (V mod 8) (V mod 8 =? 4) in
  Price2Frac price = Ok s /\ Frac2Price s = Ok price.
Proof.
  intros HV price s.
  set (X := V / 256). set (YY := V mod 256 / 8). set (Z256 := V mod 8).
  assert (HX : 0 <= X <= INT_MAX).
  { unfold X, INT_MAX. split; [apply Z.div_pos; lia|].
    assert (V / 256 < 2 ^ 31) by (apply Z.div_lt_upper_bound; lia). lia. }
  assert (HYY : 0 <= YY <= 31).
  { unfold YY. pose proof (Z.mod_pos_bound V 256 ltac:(lia)).
    split; [apply Z.div_pos; lia|].
    assert (V mod 256 / 8 < 32) by (apply Z.div_lt_upper_bound; lia). lia. }
  assert (HZ : 0 <= Z256 <= 7).
  { unfold Z256. pose proof (Z.mod_pos_bound V 8 ltac:(lia)). lia. }
  assert (EV : V = 256 * X + 8 * YY + Z256).
  { unfold X, YY, Z256.
    pose proof (Z.div_mod V 256 ltac:(lia)) as E1.
    pose proof (Z.div_mod (V mod 256) 8 ltac:(lia)) as E2.
    pose proof (Z.mod_pos_bound (V mod 256) 8 ltac:(lia)) as B2.
    rewrite <- (Z.mod_unique V 8 (32 * (V / 256) + V mod 256 / 8) (V mod 256 mod 8));
      lia. }
  assert (Eprice : price = price_of X YY Z256).
  { unfold price. rewrite EV. symmetry. by apply value_256ths. }
  rewrite Eprice. split.
  - by apply Price2Frac_value64.
  - apply Frac2Price_value64; try done. by intros ?%Z.eqb_eq.
Qed.

Lemma Price2Frac_then_Frac2Price_witness :
  Price2Frac (of_256ths 25476) = Ok "99-16+" /\
  Frac2Price "99-16+" = Ok (of_256ths 25476).
Proof.
  apply (Price2Frac_then_Frac2Price 25476). lia.
Defined.

End EncodeDecode.

Section RejectedStrings.
Context {D : Type} {dbl : Double D}.
Import Numeral NumeralFacts.

Lemma to_string_negative (X : Z) :
  X < 0 -> exists rest, to_string X = String "-" rest.
Proof.
  intros HX. destruct X as [|p|p]; [lia | lia |].
  by exists (NilZero.string_of_uint (Pos.to_uint p)).
Qed.

Lemma Frac2Price_leading_dash (s : string) :
  Frac2Price (String "-" s)
  = Throw (invalid_argument "Invalid format: Integer part is not a valid number.").
Proof. reflexivity. Qed.

(** X2.  A negative price is printed but not read back.  When the floor
    of a price is a negative int, whatever Price2Frac prints for the
    price starts with the minus sign of the integer part; Frac2Price
    takes that sign for the dash, finds nothing before it, and rejects
    the string. *)
Theorem negative_price_not_read_back (price : D) (X : Z) (s : string) :
  cast_int (d_floor price) = Ok X ->
  X < 0 ->
  Price2Frac price = Ok s ->
  Frac2Price s
  = Throw (invalid_argument "Invalid format: Integer part is not a valid number.").
Proof.
  intros Hfloor HX Hs. unfold Price2Frac in Hs. rewrite Hfloor in Hs.
  change (mbind ?k (Ok ?a)) with (k a) in Hs. cbv beta in Hs.
  destruct (cast_int (d_mul (d_sub price (d_of_Z X)) BASE32)) as [xy| |];
    try discriminate Hs.
  change (mbind ?k (Ok ?a)) with (k a) in Hs. cbv beta in Hs.
  destruct (cast_int (d_mul (d_sub price (d_of_Z X)) BASE256)) as [z256| |];
    try discriminate Hs.
  change (mbind ?k (Ok ?a)) with (k a) in Hs. cbv beta zeta in Hs.
  injection Hs as <-.
  destruct (to_string_negative X HX) as [rest ->].
  rewrite !append_assoc.
  change (String "-" rest +:+ ?t) with (String "-" (rest +:+ t)).
  apply Frac2Price_leading_dash.
Qed.

End RejectedStrings.

Lemma negative_price_not_read_back_witness :
  let price := SFdiv Binary64.prec Binary64.emax (Binary64.of_Z (-1)) (Binary64.of_Z 2) in
  cast_int (d_floor price) = Ok (-1) /\
  Price2Frac price = Ok "-1-160" /\
  Frac2Price (D:=spec_float) "-1-160"
  = Throw (invalid_argument "Invalid format: Integer part is not a valid number.").
Proof.
  split; [by vm_compute|]. split; [by vm_compute|].
  apply (negative_price_not_read_back
           (SFdiv Binary64.prec Binary64.emax (Binary64.of_Z (-1)) (Binary64.of_Z 2))
           (-1) "-1-160"); [by vm_compute | lia | by vm_compute].
Defined.

Section WrongLength.
Context {D : Type} {dbl : Double D}.
Import Numeral NumeralFacts.

Lemma find_first_dash (ip r : string) :
  find "-" ip = None ->
  find "-" (ip +:+ String "-" r) = Some (String.length ip).
Proof.
  induction ip as [|c ip IH]; [done|].
  change (String c ip +:+ String "-" r) with (String c (ip +:+ String "-" r)).
  simpl. destruct (Ascii.eqb c "-"); [done|].
  destruct (find "-" ip); [done|]. intros _. by rewrite IH.
Qed.

(** X3.  The length guard of the decoder.  Whenever the text before the
    first dash is a number that stod accepts, and the text after that
    dash is not exactly three characters long, Frac2Price throws
    invalid_argument with the message of the length check, whatever the
    characters after the dash are. *)
Theorem Frac2Price_wrong_length (ip r : string) (v : D) :
  find "-" ip = None ->
  stod ip = Ok v ->
  String.length r <> 3%nat ->
  Frac2Price (ip +:+ "-" +:+ r)
  = Throw (invalid_argument
             "Invalid format: Fractional part should be exactly 3 characters.").
Proof.
  intros Hdash Hv Hlen. unfold Frac2Price.
  change ("-" +:+ r) with (String "-" r).
  rewrite (find_first_dash ip r Hdash), substring_prefix, substr_from_dash, Hv.
  simpl rethrow. change (mbind ?k (Ok ?a)) with (k a). cbv beta.
  unfold FRACTIONAL_LENGTH.
  destruct (Nat.eqb_spec (String.length r) 3); [done | reflexivity].
Qed.

End WrongLength.

Lemma Frac2Price_wrong_length_witness :
  Frac2Price (D:=spec_float) "99-162+"
  = Throw (invalid_argument
             "Invalid format: Fractional part should be exactly 3 characters.").
Proof.
  apply (Frac2Price_wrong_length (D:=spec_float) "99" "162+" (Binary64.of_Z 99));
    [reflexivity | by vm_compute | by vm_compute].
Defined.

(* ===================================================================== *)
(** * [<] on binary64 *)
(* ===================================================================== *)

Module Binary64Order.

Lemma SFltb_irrefl (x : spec_float) : SFltb x x = false.
Proof.
  unfold SFltb, SFcompare.
  destruct x as [[]|[]| |[] m e]; try reflexivity;
    rewrite Z.compare_refl; change (Pcompare m m Eq) with (Pos.compare m m);
    by rewrite Pos.compare_refl.
Qed.

Lemma SFltb_trans (x y z : spec_float) :
  SFltb x y = true -> SFltb y z = true -> SFltb x z = true.
Proof.
  unfold SFltb, SFcompare.
  destruct x as [[]|[]| |[] mx ex], y as [[]|[]| |[] my ey], z as [[]|[]| |[] mz ez];
    try discriminate; try reflexivity;
    change (Pcompare ?a ?b Eq) with (Pos.compare a b);
    destruct (Z.compare_spec ex ey), (Z.compare_spec ey ez), (Z.compare_spec ex ez);
    try discriminate; try reflexivity; try lia;
    destruct (Pos.compare_spec mx my), (Pos.compare_spec my mz),
             (Pos.compare_spec mx mz);
    simpl; try discriminate; try reflexivity; try lia.
Qed.

End Binary64Order.

(* ===================================================================== *)
(** * The best bid and the best offer of a book *)
(* ===================================================================== *)

Section BestBidOfferTheorem.
Context {D : Type} {dbl : Double D}.

Hypothesis d_ltb_irrefl : forall x : D, d_ltb x x = false.
Hypothesis d_ltb_trans :
  forall x y z : D, d_ltb x y = true -> d_ltb y z = true -> d_ltb x z = true.

Lemma max_element_from_spec (rest : list (Order D)) :
  forall (largest : Order D) (seen : list (Order D)),
    largest ∈ seen ->
    (forall o, o ∈ seen -> ComparePriceAsc largest o = false) ->
    let best := max_element_from largest rest in
    best ∈ seen ++ rest /\
    (forall o, o ∈ seen ++ rest -> ComparePriceAsc best o = false).
Proof.
  induction rest as [|x rest IH]; intros largest seen Hin Hmax; simpl.
  - by rewrite app_nil_r.
  - replace (seen ++ x :: rest) with ((seen ++ [x]) ++ rest)
      by (by rewrite <- app_assoc).
    apply IH.
    + apply elem_of_app.
      destruct (ComparePriceAsc largest x); [right | left]; [|done].
      by apply list_elem_of_singleton.
    + intros o [Ho|Ho%list_elem_of_singleton]%elem_of_app.
      * destruct (ComparePriceAsc largest x) eqn:E; [|by apply Hmax].
        destruct (ComparePriceAsc x o) eqn:E'; [|done].
        pose proof (Hmax o Ho) as Hc. unfold ComparePriceAsc in *.
        by rewrite (d_ltb_trans _ _ _ E E') in Hc.
      * subst o. destruct (ComparePriceAsc largest x) eqn:E; [|done].
        apply d_ltb_irrefl.
Qed.

Lemma min_element_from_spec (rest : list (Order D)) :
  forall (smallest : Order D) (seen : list (Order D)),
    smallest ∈ seen ->
    (forall o, o ∈ seen -> ComparePriceAsc o smallest = false) ->
    let best := min_element_from smallest rest in
    best ∈ seen ++ rest /\
    (forall o, o ∈ seen ++ rest -> ComparePriceAsc o best = false).
Proof.
  induction rest as [|x rest IH]; intros smallest seen Hin Hmin; simpl.
  - by rewrite app_nil_r.
  - replace (seen ++ x :: rest) with ((seen ++ [x]) ++ rest)
      by (by rewrite <- app_assoc).
    apply IH.
    + apply elem_of_app.
      destruct (ComparePriceAsc x smallest); [right | left]; [|done].
      by apply list_elem_of_singleton.
    + intros o [Ho|Ho%list_elem_of_singleton]%elem_of_app.
      * destruct (ComparePriceAsc x smallest) eqn:E; [|by apply Hmin].
        destruct (ComparePriceAsc o x) eqn:E'; [|done].
        pose proof (Hmin o Ho) as Hc. unfold ComparePriceAsc in *.
        by rewrite (d_ltb_trans _ _ _ E' E) in Hc.
      * subst o. destruct (ComparePriceAsc x smallest) eqn:E; [|done].
        apply d_ltb_irrefl.
Qed.

(** X4.  The best bid and offer.  With [<] on double irreflexive and
    transitive, OrderBook::BestBidOffer on a book whose two stacks are
    not empty returns an order of the bid stack that no bid exceeds in
    price, and an order of the offer stack that no offer undercuts. *)
Theorem BestBidOffer_best (b : OrderBook D) :
  bidStack b <> [] -> offerStack b <> [] ->
  exists bo,
    BestBidOffer b = Ok bo /\
    bidOrder bo ∈ bidStack b /\
    (forall o, o ∈ bidStack b ->
       d_ltb (order_price (bidOrder bo)) (order_price o) = false) /\
    offerOrder bo ∈ offerStack b /\
    (forall o, o ∈ offerStack b ->
       d_ltb (order_price o) (order_price (offerOrder bo)) = false).
Proof.
  intros Hb Ho. unfold BestBidOffer.
  destruct (bidStack b) as [|bid0 bids]; [done|].
  destruct (offerStack b) as [|offer0 offers]; [done|].
  eexists. split; [reflexivity|]. simpl.
  destruct (max_element_from_spec bids bid0 [bid0]) as [H1 H2].
  { by apply list_elem_of_singleton. }
  { intros o ->%list_elem_of_singleton. apply d_ltb_irrefl. }
  destruct (min_element_from_spec offers offer0 [offer0]) as [H3 H4].
  { by apply list_elem_of_singleton. }
  { intros o ->%list_elem_of_singleton. apply d_ltb_irrefl. }
  done.
Qed.

End BestBidOfferTheorem.

(** Three bids and three offers, none sorted: best bid 99-160, best
    offer 99-240. *)
Definition ladder_book : OrderBook spec_float :=
  mkOrderBook Scenario.US2Y
    [ mkOrder (Binary64Exact.of_256ths 25344) 1000000 BID;
      mkOrder (Binary64Exact.of_256ths 25472) 2000000 BID;
      mkOrder (Binary64Exact.of_256ths 25408) 3000000 BID ]
    [ mkOrder (Binary64Exact.of_256ths 25600) 1000000 OFFER;
      mkOrder (Binary64Exact.of_256ths 25536) 2000000 OFFER;
      mkOrder (Binary64Exact.of_256ths 25664) 3000000 OFFER ].

Lemma BestBidOffer_best_witness :
  exists bo,
    BestBidOffer ladder_book = Ok bo /\
    bidOrder bo ∈ bidStack ladder_book /\
    (forall o, o ∈ bidStack ladder_book ->
       SFltb (order_price (bidOrder bo)) (order_price o) = false) /\
    offerOrder bo ∈ offerStack ladder_book /\
    (forall o, o ∈ offerStack ladder_book ->
       SFltb (order_price o) (order_price (offerOrder bo)) = false).
Proof.
  apply (BestBidOffer_best (D:=spec_float) (dbl:=Binary64.double)
           Binary64Order.SFltb_irrefl Binary64Order.SFltb_trans ladder_book);
    discriminate.
Defined.

Example BestBidOffer_ladder :
  BestBidOffer ladder_book
  = Ok (mkBidOffer (mkOrder (Binary64Exact.of_256ths 25472) 2000000 BID)
                   (mkOrder (Binary64Exact.of_256ths 25536) 2000000 OFFER)).
Proof. by vm_compute. Qed.

(* ===================================================================== *)
(** * Market data: what one line does to the stored book *)
(* ===================================================================== *)

Section ParseOrderBookTheorem.
Context {D : Type} {dbl : Double D} {ho : HashOrder D} {ao : ArgOrder}.

(** The bid and the offer that level [i] of a line holds. *)
Definition level_of (fields : list string) (i : nat) : result (Order D * Order D) :=
  f_bid ← vec_at fields (4 * i + 2);
  bidPrice ← Frac2Price f_bid;
  f_bidSize ← vec_at fields (4 * i + 3);
  bidSize ← Numeral.stol f_bidSize;
  f_ask ← vec_at fields (4 * i + 4);
  askPrice ← Frac2Price f_ask;
  f_askSize ← vec_at fields (4 * i + 5);
  askSize ← Numeral.stol f_askSize;
  Ok (mkOrder bidPrice bidSize BID, mkOrder askPrice askSize OFFER).

Fixpoint levels_of (fields : list string) (idx : list nat)
  : result (list (Order D * Order D)) :=
  match idx with
  | [] => Ok []
  | i :: idx' =>
      l ← level_of fields i;
      ls ← levels_of fields idx';
      Ok (l :: ls)
  end.

(** [b] with more orders at the back of its stacks. *)
Definition with_levels (b : OrderBook D) (levels : list (Order D * Order D))
  : OrderBook D :=
  mkOrderBook (book_product b) (bidStack b ++ levels.*1) (offerStack b ++ levels.*2).

Lemma set_orderBookMap_twice (f g : gmap string (OrderBook D) -> gmap string (OrderBook D))
    (s : @System D) :
  set_orderBookMap g (set_orderBookMap f s) = set_orderBookMap (fun m => g (f m)) s.
Proof. by destruct s. Qed.

Lemma set_orderBookMap_ext (f g : gmap string (OrderBook D) -> gmap string (OrderBook D))
    (s : @System D) :
  f (orderBookMap s) = g (orderBookMap s) -> set_orderBookMap f s = set_orderBookMap g s.
Proof. intros E. unfold set_orderBookMap. by rewrite E. Qed.

Lemma read_order_Ok (fields : list string) (p q : nat) (side : PricingSide)
    (f_price f_size : string) (price : D) (size : Z) :
  vec_at fields p = Ok f_price -> Frac2Price f_price = Ok price ->
  vec_at fields q = Ok f_size -> Numeral.stol f_size = Ok size ->
  read_order fields p q side = Ok (price, size).
Proof.
  intros Hp Hprice Hq Hsize. unfold read_order, mbind, result_bind, rbind.
  destruct (size_first side); by rewrite Hp, Hprice, Hq, Hsize.
Qed.

Lemma parse_level_run (fields : list string) (pid : string) (i : nat)
    (l : Order D * Order D) (b : OrderBook D) (s : @System D) :
  level_of fields i = Ok l ->
  orderBookMap s !! pid = Some b ->
  parse_level fields pid i s
  = (Ok tt, set_orderBookMap (insert pid (with_levels b [l])) s).
Proof.
  intros Hl Hb. unfold level_of in Hl. unfold parse_level.
  unfold mbind, result_bind, rbind in Hl.
  destruct (vec_at fields (4 * i + 2)) as [f_bid| |] eqn:E1; try discriminate.
  destruct (Frac2Price f_bid) as [bidPrice| |] eqn:E2; try discriminate.
  destruct (vec_at fields (4 * i + 3)) as [f_bidSize| |] eqn:E3; try discriminate.
  destruct (Numeral.stol f_bidSize) as [bidSize| |] eqn:E4; try discriminate.
  destruct (vec_at fields (4 * i + 4)) as [f_ask| |] eqn:E5; try discriminate.
  destruct (Frac2Price f_ask) as [askPrice| |] eqn:E6; try discriminate.
  destruct (vec_at fields (4 * i + 5)) as [f_askSize| |] eqn:E7; try discriminate.
  destruct (Numeral.stol f_askSize) as [askSize| |] eqn:E8; try discriminate.
  injection Hl as <-.
  rewrite (read_order_Ok _ _ _ BID _ _ _ _ E1 E2 E3 E4).
  rewrite (read_order_Ok _ _ _ OFFER _ _ _ _ E5 E6 E7 E8).
  unfold mbind, M_bind, m_bind, lift, modify. simpl. f_equal.
  rewrite set_orderBookMap_twice. apply set_orderBookMap_ext.
  apply map_eq. intros k. destruct (decide (k = pid)) as [->|Hk].
  - rewrite lookup_insert_eq, !lookup_alter_eq, Hb. simpl.
    reflexivity.
  - by rewrite lookup_insert_ne, !lookup_alter_ne.
Qed.

Lemma with_levels_app (b : OrderBook D) (l1 l2 : list (Order D * Order D)) :
  with_levels (with_levels b l1) l2 = with_levels b (l1 ++ l2).
Proof. unfold with_levels. simpl. by rewrite !fmap_app, !app_assoc. Qed.

Lemma with_levels_nil (b : OrderBook D) : with_levels b [] = b.
Proof. destruct b. unfold with_levels. simpl. by rewrite !app_nil_r. Qed.

Lemma set_orderBookMap_id (pid : string) (b : OrderBook D) (s : @System D) :
  orderBookMap s !! pid = Some b -> set_orderBookMap (insert pid b) s = s.
Proof.
  intros Hb. unfold set_orderBookMap. rewrite insert_id by done. by destruct s.
Qed.

Lemma parse_levels_run (fields : list string) (pid : string) (idx : list nat) :
  forall (levels : list (Order D * Order D)) (b : OrderBook D) (s : @System D),
    levels_of fields idx = Ok levels ->
    orderBookMap s !! pid = Some b ->
    for_each idx (parse_level fields pid) s
    = (Ok tt, set_orderBookMap (insert pid (with_levels b levels)) s).
Proof.
  induction idx as [|i idx IH]; intros levels b s Hl Hb; simpl in *.
  - injection Hl as <-. by rewrite with_levels_nil, set_orderBookMap_id.
  - unfold mbind, result_bind, rbind in Hl.
    destruct (level_of fields i) as [l| |] eqn:El; try discriminate.
    destruct (levels_of fields idx) as [ls| |] eqn:Els; try discriminate.
    injection Hl as <-.
    unfold m_bind. rewrite (parse_level_run fields pid i l b s El Hb).
    rewrite (IH ls (with_levels b [l])); [|done|].
    + f_equal. rewrite set_orderBookMap_twice. apply set_orderBookMap_ext.
      by rewrite insert_insert_eq, with_levels_app.
    + destruct s. simpl. apply lookup_insert_eq.
Qed.

Lemma AggregateDepth_run (pid : string) (b : OrderBook D) (s : @System D) :
  orderBookMap s !! pid = Some b ->
  let agg := mkOrderBook (book_product b) (Aggregate (bidStack b) BID)
                         (Aggregate (offerStack b) OFFER) in
  AggregateDepth pid s = (Ok agg, set_orderBookMap (insert pid agg) s).
Proof.
  intros Hb agg. unfold AggregateDepth, orderBookMap_at, mbind, M_bind, m_bind.
  simpl. by rewrite Hb.
Qed.

(** X5.  A market data line adds to the book; it does not replace it.
    When the product of a line has the book [b0] in the store (the empty
    book of the product, if the CUSIP is known and has none yet) and the
    bookDepth levels of the line parse as [levels], ParseOrderBook
    returns, and stores for the product, the aggregate of [b0] extended
    by the bids and the offers of the line; nothing else changes.  The
    sizes of an earlier line at a price therefore stay in the book and
    are added to those of the later lines. *)
Theorem ParseOrderBook_accumulates
    (line pid : string) (b0 : OrderBook D) (levels : list (Order D * Order D))
    (s : @System D) :
  vec_at (Text.split_commas line) 1 = Ok pid ->
  orderBookMap s !! pid = Some b0 \/
  (orderBookMap s !! pid = None /\
   exists product, ProductFactory.QueryProduct pid = Ok product /\
                   b0 = mkOrderBook product [] []) ->
  levels_of (Text.split_commas line) (seq 0 (Z.to_nat (bookDepth s))) = Ok levels ->
  let book :=
    mkOrderBook (book_product b0)
      (Aggregate (bidStack b0 ++ levels.*1) BID)
      (Aggregate (offerStack b0 ++ levels.*2) OFFER) in
  ParseOrderBook line s = (Ok book, set_orderBookMap (insert pid book) s).
Proof.
  intros Hpid Hb0 Hlevels book. unfold ParseOrderBook.
  unfold mbind at 1, M_bind at 1, m_bind at 1, lift at 1. rewrite Hpid.
  set (s0 := set_orderBookMap (insert pid b0) s).
  assert (Hget : MarketDataService_GetData pid s = (Ok b0, s0)).
  { unfold MarketDataService_GetData, orderBookMap_at, mbind, M_bind, m_bind. simpl.
    destruct Hb0 as [Hb | (Hn & product & Hq & ->)].
    - rewrite Hb. simpl. rewrite Hb. unfold s0. by rewrite set_orderBookMap_id.
    - rewrite Hn. unfold lift. rewrite Hq. simpl.
      destruct s. simpl in *. by rewrite lookup_insert_eq. }
  unfold mbind at 1, M_bind at 1, m_bind at 1. rewrite Hget.
  unfold mbind at 1, M_bind at 1, m_bind at 1.
  change (get s0) with (Ok s0, s0).
  unfold mbind at 1, M_bind at 1, m_bind at 1.
  assert (Hd : bookDepth s0 = bookDepth s) by (by destruct s).
  rewrite Hd.
  rewrite (parse_levels_run _ pid _ levels b0 s0 Hlevels);
    [| unfold s0; destruct s; apply lookup_insert_eq].
  rewrite (AggregateDepth_run pid (with_levels b0 levels));
    [| unfold s0; destruct s; apply lookup_insert_eq].
  simpl. f_equal.
  unfold s0. rewrite !set_orderBookMap_twice. apply set_orderBookMap_ext.
  by rewrite !insert_insert_eq.
Qed.

End ParseOrderBookTheorem.

Module MarketRuns.

Import Scenario Runs.

(** The services after the market data file of one line. *)
Definition after_one_line : @System spec_float :=
  snd (MarketDataConnector_Subscribe (ho:=order) (ao:=right_to_left)
         [book_header; book_line] system0).

(** The five levels of [book_line]. *)
Definition book_line_levels : list (Order spec_float * Order spec_float) :=
  Eval vm_compute in
    match levels_of (Text.split_commas book_line) (seq 0 5) with
    | Ok levels => levels
    | _ => []
    end.

(** The book of the product after one line. *)
Definition book_one_line : OrderBook spec_float :=
  Eval vm_compute in
    default default_OrderBook (orderBookMap after_one_line !! "91282CAV3").

End MarketRuns.

Lemma ParseOrderBook_accumulates_witness :
  let b0 := MarketRuns.book_one_line in
  let levels := MarketRuns.book_line_levels in
  let book :=
    mkOrderBook (book_product b0)
      (Aggregate (ho:=Runs.order) (bidStack b0 ++ levels.*1) BID)
      (Aggregate (ho:=Runs.order) (offerStack b0 ++ levels.*2) OFFER) in
  ParseOrderBook (ho:=Runs.order) (ao:=right_to_left) Runs.book_line
    MarketRuns.after_one_line
  = (Ok book, set_orderBookMap (insert "91282CAV3" book) MarketRuns.after_one_line).
Proof.
  apply (ParseOrderBook_accumulates (ho:=Runs.order) (ao:=right_to_left) Runs.book_line "91282CAV3"
           MarketRuns.book_one_line MarketRuns.book_line_levels
           MarketRuns.after_one_line).
  - by vm_compute.
  - left. by vm_compute.
  - by vm_compute.
Defined.

(** The same line twice: every size in the book is doubled. *)
Example book_line_twice :
  match fst (ParseOrderBook (ho:=Runs.order) (ao:=right_to_left) Runs.book_line
    MarketRuns.after_one_line) with
  | Ok b => Some (map order_quantity (bidStack b), map order_quantity (offerStack b))
  | _ => None
  end
  = Some ([2000000; 4000000; 6000000; 8000000; 10000000],
          [2000000; 4000000; 6000000; 8000000; 10000000]).
Proof. by vm_compute. Qed.

(* ===================================================================== *)
(** * The two tables of bonds *)
(* ===================================================================== *)

Section ProductTables.
Context {D : Type} {dbl : Double D}.

(** X6.  ProductFactory and BondAnalytics know the same bonds.  For
    every CUSIP, either QueryProduct returns a bond whose identifier is
    that CUSIP and QueryPV01 returns a PV01, or both throw
    invalid_argument with the message "Unknown CUSIP: " followed by the
    CUSIP. *)
Theorem product_tables_agree (cusip : string) :
  (exists (b : Bond) (v : D),
      ProductFactory.QueryProduct cusip = Ok b /\
      productId b = cusip /\
      BondAnalytics.QueryPV01 cusip = Ok v) \/
  (ProductFactory.QueryProduct cusip
   = Throw (invalid_argument ("Unknown CUSIP: " +:+ cusip)) /\
   BondAnalytics.QueryPV01 (D:=D) cusip
   = Throw (invalid_argument ("Unknown CUSIP: " +:+ cusip))).
Proof.
  cbv beta iota zeta fix delta
    [ProductFactory.QueryProduct BondAnalytics.QueryPV01 ProductFactory.table_find
     ProductFactory.productConstructors BondAnalytics.pv01Map].
  repeat match goal with
         | |- context [String.eqb ?k cusip] =>
             destruct (String.eqb_spec k cusip) as [<-|_];
             [left; eexists; eexists; repeat split; reflexivity|]
         end.
  right. split; reflexivity.
Qed.

End ProductTables.

(* ===================================================================== *)
(** * Positions: a trade on a bond without analytics *)
(* ===================================================================== *)

Section UnknownProduct.
Context {D : Type} {dbl : Double D}.
Import PositionOps.

(** Every position is stored under the identifier of its product, as
    AddTrade stores it. *)
Definition keyed_by_product (s : @System D) : Prop :=
  forall k p, positionData s !! k = Some p -> productId (position_product p) = k.

Lemma position_for_product (s : @System D) (trade : Trade D) :
  keyed_by_product s ->
  productId (position_product (position_for s trade))
  = productId (trade_product trade).
Proof.
  intros Hk. unfold position_for.
  destruct (positionData s !! productId (trade_product trade)) as [p|] eqn:E; [|done].
  by apply Hk.
Qed.

(** X7.  AddTrade is not all-or-nothing.  With the risk listener first
    among the listeners of PositionService, as main registers it, a trade
    on a product for which QueryPV01 throws makes AddTrade end with that
    exception after the position has been updated in the store: the new
    position stays booked, while the risk store is untouched, the
    listeners after the risk listener are never called and nothing is
    persisted. *)
Theorem AddTrade_unknown_product
    (trade : Trade D) (s : @System D) (rest : list PositionListener) (e : exn) :
  keyed_by_product s ->
  position_listeners s = RiskServiceListener :: rest ->
  BondAnalytics.QueryPV01 (D:=D) (productId (trade_product trade)) = Throw e ->
  let position :=
    AddPosition (book trade) (signed_quantity trade) (position_for s trade) in
  exists s',
    PositionService_AddTrade trade s = (Throw e, s') /\
    positionData s'
    = <[productId (trade_product trade) := position]> (positionData s) /\
    pv01Data s' = pv01Data s /\
    historicalPosition s' = historicalPosition s /\
    historicalRisk s' = historicalRisk s /\
    calls s' = calls s ++ [ProcessAdd_Position RiskServiceListener position].
Proof.
  intros Hk Hls Hq position.
  pose proof (position_for_product s trade Hk) as Hp.
  unfold PositionService_AddTrade, mbind, M_bind, m_bind. simpl.
  fold (position_for s trade). fold position.
  rewrite Hls. simpl. unfold m_bind.
  unfold PositionListener_ProcessAdd, mbind, M_bind, m_bind. simpl.
  unfold RiskService_AddPosition, mbind, M_bind, m_bind, lift.
  change (position_product position) with (position_product (position_for s trade)).
  rewrite Hp, Hq.
  eexists. split; [reflexivity|]. by destruct s.
Qed.

End UnknownProduct.

Module UnknownRuns.

Definition ghost_bond : Bond := mkBond "000000000" "GHOST" 0 "2030/01/01".

Definition ghost_trade : Trade spec_float :=
  mkTrade ghost_bond "G1" Scenario.par "TRSY1" 1000000 BUY.

End UnknownRuns.

Lemma AddTrade_unknown_product_witness :
  let position :=
    PositionOps.AddPosition "TRSY1" 1000000 (mkPosition UnknownRuns.ghost_bond ∅) in
  exists s',
    PositionService_AddTrade UnknownRuns.ghost_trade Scenario.system0
    = (Throw (invalid_argument "Unknown CUSIP: 000000000"), s') /\
    positionData s' = <["000000000" := position]> (positionData Scenario.system0) /\
    pv01Data s' = pv01Data Scenario.system0 /\
    historicalPosition s' = historicalPosition Scenario.system0 /\
    historicalRisk s' = historicalRisk Scenario.system0 /\
    calls s'
    = calls Scenario.system0 ++ [ProcessAdd_Position RiskServiceListener position].
Proof.
  apply (AddTrade_unknown_product UnknownRuns.ghost_trade
           Scenario.system0 [HistoricalPositionListener]
           (invalid_argument "Unknown CUSIP: 000000000")).
  - intros k p H. by vm_compute in H.
  - reflexivity.
  - reflexivity.
Defined.

(* ===================================================================== *)
(** * Positions: runs of trades *)
(* ===================================================================== *)

Section PositionRunsTheorems.
Context {D : Type} {dbl : Double D}.
Import PositionOps.

(** The slots of a position are C++ longs. *)
Definition slots_in_long (pos : Position) : Prop :=
  forall b q, bookPositionData pos !! b = Some q -> in_long q.

Lemma GetPosition_in_long (pos : Position) (b : string) :
  slots_in_long pos -> in_long (GetPosition pos b).
Proof.
  intros H. unfold GetPosition.
  destruct (bookPositionData pos !! b) as [q|] eqn:E; [by apply (H b)|].
  unfold in_long, LONG_MIN, LONG_MAX. lia.
Qed.

Lemma position_run (p : string) (ts : list (Trade D)) (s : @System D) (pos : Position) :
  known p ->
  Forall (fun t => productId (trade_product t) = p) ts ->
  positionData s !! p = Some pos ->
  productId (position_product pos) = p ->
  slots_in_long pos ->
  exists s',
    for_each ts PositionService_AddTrade s = (Ok tt, s') /\
    positionData s' !! p = Some (foldl apply_trade pos ts) /\
    GetAggregatePosition (foldl apply_trade pos ts)
    = wrap64 (GetAggregatePosition pos + Zsum (map trade_signed ts)) /\
    (forall b, GetPosition (foldl apply_trade pos ts) b
               = wrap64 (GetPosition pos b
                         + Zsum (map trade_signed (on_book b ts)))).
Proof.
  intros Hk Hts Hs Hp Hl.
  destruct (PositionService_AddTrade_runs p ts Hk Hts s pos Hs Hp) as (s' & E & Hpos').
  exists s'.
  destruct (apply_trades_sums ts pos (GetAggregatePosition pos) (GetPosition pos))
    as [Ha Hb].
  { rewrite GetAggregatePosition_slots_sum. by rewrite wrap64_idem. }
  { intros b. symmetry. by apply wrap64_id, GetPosition_in_long. }
  done.
Qed.

(** X8.  Trades add to the position that is there.  From a state that
    holds the position [pos] for a product of the product table, after
    AddTrade on the trades ts of that product every AddTrade has
    returned, the aggregate position is the old aggregate plus the sum of
    the signed quantities, and each book holds its old position plus the
    signed quantities of the trades booked to it, all as 64-bit longs. *)
Theorem position_run_additive
    (p : string) (ts : list (Trade D)) (s : @System D) (pos : Position) :
  known p ->
  Forall (fun t => productId (trade_product t) = p) ts ->
  positionData s !! p = Some pos ->
  productId (position_product pos) = p ->
  slots_in_long pos ->
  exists s' pos',
    for_each ts PositionService_AddTrade s = (Ok tt, s') /\
    positionData s' !! p = Some pos' /\
    GetAggregatePosition pos'
    = wrap64 (GetAggregatePosition pos + Zsum (map trade_signed ts)) /\
    (forall b, GetPosition pos' b
               = wrap64 (GetPosition pos b
                         + Zsum (map trade_signed (on_book b ts)))).
Proof.
  intros Hk Hts Hs Hp Hl.
  destruct (position_run p ts s pos Hk Hts Hs Hp Hl) as (s' & H).
  exists s', (foldl apply_trade pos ts). exact H.
Qed.

Lemma Zsum_Permutation (l1 l2 : list Z) : l1 ≡ₚ l2 -> Zsum l1 = Zsum l2.
Proof.
  induction 1 as [|x l1 l2 _ IH|x y l|l1 l2 l3 _ IH1 _ IH2]; simpl; lia.
Qed.

(** X9.  The order of the trades does not matter.  Two runs of AddTrade
    from the same state, on two lists of trades of one product of the
    product table that are the same up to their order, both return, and
    leave the same aggregate position and the same position in every
    book. *)
Theorem position_order_independent
    (p : string) (ts1 ts2 : list (Trade D)) (s : @System D) (pos : Position) :
  known p ->
  Forall (fun t => productId (trade_product t) = p) ts1 ->
  ts1 ≡ₚ ts2 ->
  positionData s !! p = Some pos ->
  productId (position_product pos) = p ->
  slots_in_long pos ->
  exists s1 s2 pos1 pos2,
    for_each ts1 PositionService_AddTrade s = (Ok tt, s1) /\
    for_each ts2 PositionService_AddTrade s = (Ok tt, s2) /\
    positionData s1 !! p = Some pos1 /\
    positionData s2 !! p = Some pos2 /\
    GetAggregatePosition pos1 = GetAggregatePosition pos2 /\
    (forall b, GetPosition pos1 b = GetPosition pos2 b).
Proof.
  intros Hk Hts1 Hperm Hs Hp Hl.
  assert (Hts2 : Forall (fun t => productId (trade_product t) = p) ts2)
    by (by rewrite <- Hperm).
  destruct (position_run p ts1 s pos Hk Hts1 Hs Hp Hl) as (s1 & E1 & P1 & A1 & B1).
  destruct (position_run p ts2 s pos Hk Hts2 Hs Hp Hl) as (s2 & E2 & P2 & A2 & B2).
  exists s1, s2, (foldl apply_trade pos ts1), (foldl apply_trade pos ts2).
  repeat split; try done.
  - rewrite A1, A2. do 2 f_equal. apply Zsum_Permutation. by rewrite Hperm.
  - intros b. rewrite B1, B2. do 2 f_equal. apply Zsum_Permutation.
    unfold on_book. by rewrite Hperm.
Qed.

(** X10.  AddTrade touches one position only.  Whatever the listeners
    do, return or throw, the position store after AddTrade is the store
    before it with the position of the traded product replaced by the
    updated one: GetData of that product then returns the updated
    position, and GetData of any other key answers as before. *)
Theorem AddTrade_position_store (trade : Trade D) (s : @System D) :
  let pid := productId (trade_product trade) in
  let position := apply_trade (position_for s trade) trade in
  let s' := snd (PositionService_AddTrade trade s) in
  positionData s' = <[pid := position]> (positionData s) /\
  fst (PositionService_GetData pid s') = Ok position /\
  (forall key, key <> pid ->
     fst (PositionService_GetData key s') = fst (PositionService_GetData key s)).
Proof.
  intros pid position s'.
  assert (Hd : positionData s' = <[pid := position]> (positionData s)).
  { unfold s'.
    change (PositionService_AddTrade trade s)
      with (for_each (position_listeners s)
              (fun listener => PositionListener_ProcessAdd (D:=D) listener position)
              (set_positionData (insert pid position) s)).
    rewrite (preserves_for_each positionData); [by destruct s|].
    intros l. apply PositionListener_ProcessAdd_positionData. }
  split; [exact Hd|].
  unfold PositionService_GetData, mbind, M_bind, m_bind. simpl. rewrite Hd. split.
  - by rewrite lookup_insert_eq.
  - intros key Hkey. rewrite lookup_insert_ne by done.
    by destruct (positionData s !! key).
Qed.

End PositionRunsTheorems.

Module PositionRunsDemo.

Import Scenario PositionOps.

(** The position after the purchase T1, and the services holding it. *)
Definition long_TRSY1 : Position := AddPosition "TRSY1" 3000000 (mkPosition US2Y ∅).

Definition after_T1 : @System spec_float := snd (PositionService_AddTrade T1 system0).

(** A sale on the book of T1. *)
Definition T3 : Trade spec_float := mkTrade US2Y "T3" par "TRSY1" 3000000 SELL.

Lemma after_T1_position : positionData after_T1 !! "91282CAV3" = Some long_TRSY1.
Proof. by vm_compute. Qed.

Lemma long_TRSY1_slots : slots_in_long long_TRSY1.
Proof.
  intros b q H. unfold long_TRSY1, AddPosition in H. simpl in H.
  apply lookup_insert_Some in H as [[_ <-]|[_ H]]; [apply wrap64_range|].
  by rewrite lookup_empty in H.
Qed.

Lemma US2Y_known : known "91282CAV3".
Proof. reflexivity. Qed.

End PositionRunsDemo.

Lemma position_run_additive_witness :
  exists s' pos',
    for_each [PositionRunsDemo.T3; Scenario.T2] PositionService_AddTrade
             PositionRunsDemo.after_T1 = (Ok tt, s') /\
    positionData s' !! "91282CAV3" = Some pos' /\
    PositionOps.GetAggregatePosition pos'
    = wrap64 (PositionOps.GetAggregatePosition PositionRunsDemo.long_TRSY1
              + Zsum (map trade_signed [PositionRunsDemo.T3; Scenario.T2])) /\
    (forall b, PositionOps.GetPosition pos' b
               = wrap64 (PositionOps.GetPosition PositionRunsDemo.long_TRSY1 b
                         + Zsum (map trade_signed
                                   (on_book b [PositionRunsDemo.T3; Scenario.T2])))).
Proof.
  apply (position_run_additive "91282CAV3" [PositionRunsDemo.T3; Scenario.T2]
           PositionRunsDemo.after_T1 PositionRunsDemo.long_TRSY1).
  - exact PositionRunsDemo.US2Y_known.
  - by repeat constructor.
  - exact PositionRunsDemo.after_T1_position.
  - reflexivity.
  - exact PositionRunsDemo.long_TRSY1_slots.
Defined.

Lemma position_order_independent_witness :
  exists s1 s2 pos1 pos2,
    for_each [PositionRunsDemo.T3; Scenario.T2] PositionService_AddTrade
             PositionRunsDemo.after_T1 = (Ok tt, s1) /\
    for_each [Scenario.T2; PositionRunsDemo.T3] PositionService_AddTrade
             PositionRunsDemo.after_T1 = (Ok tt, s2) /\
    positionData s1 !! "91282CAV3" = Some pos1 /\
    positionData s2 !! "91282CAV3" = Some pos2 /\
    PositionOps.GetAggregatePosition pos1 = PositionOps.GetAggregatePosition pos2 /\
    (forall b, PositionOps.GetPosition pos1 b = PositionOps.GetPosition pos2 b).
Proof.
  apply (position_order_independent "91282CAV3"
           [PositionRunsDemo.T3; Scenario.T2] [Scenario.T2; PositionRunsDemo.T3]
           PositionRunsDemo.after_T1 PositionRunsDemo.long_TRSY1).
  - exact PositionRunsDemo.US2Y_known.
  - by repeat constructor.
  - apply perm_swap.
  - exact PositionRunsDemo.after_T1_position.
  - reflexivity.
  - exact PositionRunsDemo.long_TRSY1_slots.
Defined.

(** A purchase and a sale of the same size on one book cancel. *)
Example buy_then_sell_is_flat :
  match positionData (snd (PositionService_AddTrade PositionRunsDemo.T3
                             PositionRunsDemo.after_T1)) !! "91282CAV3" with
  | Some pos => Some (PositionOps.GetPosition pos "TRSY1",
                      PositionOps.GetAggregatePosition pos)
  | None => None
  end = Some (0, 0).
Proof. by vm_compute. Qed.

(* ===================================================================== *)
(** * Inquiries: every state *)
(* ===================================================================== *)

Section InquiryStates.
Context {D : Type} {dbl : Double D}.

Local Abbreviation ISys := (@InquirySystem D).

(** How often [OnMessage] notifies each listener of an inquiry that
    arrives in a given state. *)
Definition notifications (state : InquiryState) : nat :=
  match state with
  | RECEIVED => 3
  | QUOTED => 2
  | _ => 1
  end.

(** The inquiry as [OnMessage] leaves it. *)
Definition settled (d : Inquiry D) : Inquiry D :=
  match inquiry_state d with
  | RECEIVED | QUOTED => SetState DONE d
  | _ => d
  end.

Definition is_ProcessAdd (c : @InquiryCall D) : Prop :=
  match c with
  | ProcessAdd_Inquiry _ _ => True
  | _ => False
  end.

#[local] Instance is_ProcessAdd_dec c : Decision (is_ProcessAdd c).
Proof. destruct c; simpl; apply _. Defined.

Lemma notified_inquiryData ls (d : Inquiry D) (s : ISys) :
  inquiryData (notified ls d s) = inquiryData s.
Proof. reflexivity. Qed.

Lemma persist_all_outFile (ls : list InquiryListener) (k : string) (d : Inquiry D)
    (h : HistoricalDataService (Inquiry D)) :
  outFile (foldl (fun h l => match l with
                             | HistoricalInquiryListener => PersistData k d h
                             end) h ls)
  = outFile h ++ replicate (length ls) d.
Proof.
  revert h. induction ls as [|[] ls IH]; intros h; simpl; [by rewrite app_nil_r|].
  rewrite IH. simpl. by rewrite <- app_assoc.
Qed.

Lemma filter_ProcessAdd_map ls (d : Inquiry D) :
  filter is_ProcessAdd (map (fun l => ProcessAdd_Inquiry l d) ls)
  = map (fun l => ProcessAdd_Inquiry l d) ls.
Proof.
  induction ls as [|l ls IH]; [done|]. simpl. rewrite filter_cons. simpl.
  destruct (decide True); [|done]. by rewrite IH.
Qed.

Ltac tidy_calls :=
  rewrite !filter_app, !filter_ProcessAdd_map; simpl;
  rewrite ?filter_cons; simpl;
  rewrite ?filter_nil, ?app_nil_r, <- ?app_assoc; reflexivity.

(** One [OnMessage], whatever the state of the inquiry. *)
Lemma OnMessage_run (d : Inquiry D) (s : ISys) :
  let ls := inquiry_listeners s in
  let n := notifications (inquiry_state d) in
  exists s',
    InquiryService_OnMessage d s = (Ok (settled d), s') /\
    inquiryData s'
    = (if decide (inquiry_state (settled d) = DONE)
       then delete (inquiryId d) (inquiryData s)
       else <[inquiryId d := d]> (inquiryData s)) /\
    inquiry_listeners s' = ls /\
    filter is_ProcessAdd (inquiry_calls s')
    = filter is_ProcessAdd (inquiry_calls s)
      ++ mjoin (replicate n (map (fun l => ProcessAdd_Inquiry l (settled d)) ls)) /\
    outFile (historicalInquiry s')
    = outFile (historicalInquiry s) ++ replicate (n * length ls) (settled d).
Proof.
  intros ls n. subst n. unfold settled.
  unfold InquiryService_OnMessage. simpl.
  unfold OnMessage_body at 1. unfold mbind, M_bind, m_bind. simpl.
  destruct (inquiry_state d) eqn:Hd.
  - (* RECEIVED *)
    unfold InquiryConnector_Publish, mbind, M_bind, m_bind. simpl.
    rewrite Hd. simpl.
    unfold OnMessage_body, mbind, M_bind, m_bind. simpl.
    repeat (rewrite notify_run; simpl).
    eexists. split; [reflexivity|].
    destruct s as [m ls0 h cs]. simpl in *.
    subst ls. repeat split.
    + rewrite !delete_delete_eq, delete_insert_eq, delete_delete_eq. done.
    + tidy_calls.
    + change (SetState DONE (SetState QUOTED d)) with (SetState DONE d).
      rewrite !persist_all_outFile, <- !app_assoc, <- !replicate_add.
      do 2 f_equal. lia.
  - (* QUOTED *)
    repeat (rewrite notify_run; simpl).
    eexists. split; [reflexivity|].
    destruct s as [m ls0 h cs]. simpl in *.
    subst ls. repeat split.
    + by rewrite delete_insert_eq, delete_delete_eq.
    + tidy_calls.
    + rewrite !persist_all_outFile, <- !app_assoc, <- !replicate_add.
      do 2 f_equal. lia.
  - (* DONE *)
    simpl. repeat case_decide; try congruence. simpl.
    repeat (rewrite notify_run; simpl).
    eexists. split; [reflexivity|].
    destruct s as [m ls0 h cs]. simpl in *.
    subst ls. repeat split.
    + tidy_calls.
    + rewrite !persist_all_outFile. do 2 f_equal. lia.
  - (* REJECTED *)
    simpl. repeat case_decide; try congruence. simpl.
    repeat (rewrite notify_run; simpl).
    eexists. split; [reflexivity|].
    destruct s as [m ls0 h cs]. simpl in *.
    subst ls. repeat split.
    + tidy_calls.
    + rewrite !persist_all_outFile. do 2 f_equal. lia.
  - (* CUSTOMER_REJECTED *)
    simpl. repeat case_decide; try congruence. simpl.
    repeat (rewrite notify_run; simpl).
    eexists. split; [reflexivity|].
    destruct s as [m ls0 h cs]. simpl in *.
    subst ls. repeat split.
    + tidy_calls.
    + rewrite !persist_all_outFile. do 2 f_equal. lia.
Qed.

(** X11.  OnMessage, state by state.  OnMessage returns for every
    inquiry.  An inquiry that arrives RECEIVED or QUOTED leaves as DONE,
    any other leaves as it came.  An inquiry that leaves as DONE is
    removed from the store, also when an earlier inquiry was kept under
    its id; any other is stored under its id.  Each listener is notified
    three times of an inquiry that arrives RECEIVED, twice of one that
    arrives QUOTED and once of any other, always with the inquiry as it
    leaves, and as many records are appended to the historical file. *)
Theorem OnMessage_every_state (d : Inquiry D) (s : ISys) :
  let ls := inquiry_listeners s in
  let n := notifications (inquiry_state d) in
  exists s',
    InquiryService_OnMessage d s = (Ok (settled d), s') /\
    inquiryData s'
    = (if decide (inquiry_state (settled d) = DONE)
       then delete (inquiryId d) (inquiryData s)
       else <[inquiryId d := d]> (inquiryData s)) /\
    inquiry_listeners s' = ls /\
    filter is_ProcessAdd (inquiry_calls s')
    = filter is_ProcessAdd (inquiry_calls s)
      ++ mjoin (replicate n (map (fun l => ProcessAdd_Inquiry l (settled d)) ls)) /\
    outFile (historicalInquiry s')
    = outFile (historicalInquiry s) ++ replicate (n * length ls) (settled d).
Proof. apply OnMessage_run. Qed.

(** ** What the store keeps *)

(** Every stored inquiry is a rejected one, kept under its own id. *)
Definition rejected_only (s : ISys) : Prop :=
  forall k d, inquiryData s !! k = Some d ->
    inquiryId d = k /\
    (inquiry_state d = REJECTED \/ inquiry_state d = CUSTOMER_REJECTED).

Lemma OnMessage_rejected_only (d : Inquiry D) (s : ISys) :
  rejected_only s -> rejected_only (snd (InquiryService_OnMessage d s)).
Proof.
  intros Hs. destruct (OnMessage_run d s) as (s' & E & Hd & _).
  rewrite E. simpl. intros k x. rewrite Hd.
  destruct (decide (inquiry_state (settled d) = DONE)) as [Hdone|Hdone].
  - intros [_ Hx]%lookup_delete_Some. by apply Hs.
  - intros [[<- <-]|[_ Hx]]%lookup_insert_Some; [|by apply Hs].
    split; [done|]. unfold settled in Hdone.
    destruct (inquiry_state d) eqn:Hst; simpl in *; auto; try done;
      by rewrite ?Hst in Hdone.
Qed.

Lemma for_each_keeps {S X} (P : S -> Prop) (xs : list X) (body : X -> M S unit) :
  (forall x s, P s -> P (snd (body x s))) ->
  forall s, P s -> P (snd (for_each xs body s)).
Proof.
  intros Hb. induction xs as [|x xs IH]; intros s Hs; simpl; [done|].
  unfold m_bind. specialize (Hb x s Hs).
  destruct (body x s) as [[[]| |] s1]; simpl in *; auto.
Qed.

(** X12.  Only rejected inquiries are kept.  If every inquiry in the
    store of InquiryService is in state REJECTED or CUSTOMER_REJECTED
    and stored under its own id, as in the empty store, the same holds
    after InquiryConnector::Subscribe on any file, whether Subscribe
    returns or ends with an exception: an inquiry that is received,
    quoted or done is never kept. *)
Theorem Subscribe_keeps_rejected_only (lines : list string) (s : ISys) :
  rejected_only s ->
  rejected_only (snd (InquiryConnector_Subscribe lines s)).
Proof.
  unfold InquiryConnector_Subscribe. apply for_each_keeps. clear s.
  intros line s Hs. unfold mbind, M_bind, m_bind, lift.
  repeat match goal with
         | |- context [match ?r with Ok _ => _ | Throw _ => _ | Undef => _ end] =>
             destruct r; simpl; try done
         end.
  match goal with
  | |- context [InquiryService_OnMessage ?d s] =>
      pose proof (OnMessage_rejected_only d s Hs) as Hk;
      destruct (InquiryService_OnMessage d s) as [[?| |] s1]
  end; simpl in *; done.
Qed.

(** ** RejectInquiry *)

(** [RejectInquiry] takes a reference to the stored inquiry, so that its
    [SetState] changes the store; it then hands that inquiry to
    [OnMessage], which does not change an inquiry in state [REJECTED]. *)
Definition InquiryService_RejectInquiry (id : string) : M ISys unit :=
  inquiry ← InquiryService_GetData id;
  let inquiry := SetState REJECTED inquiry in
  _ ← modify (set_inquiryData (insert id inquiry));
  _ ← InquiryService_OnMessage inquiry;
  m_ret tt.

(** X13.  RejectInquiry.  On an id that is not in the store RejectInquiry
    throws runtime_error "Key not found" and changes nothing.  On a
    stored id it returns; the inquiry is afterwards in the store in
    state REJECTED, under that id and under its own, and each listener
    has been notified of it once. *)
Theorem RejectInquiry_outcome (id : string) (s : ISys) :
  (inquiryData s !! id = None /\
   InquiryService_RejectInquiry id s = (Throw (runtime_error "Key not found"), s)) \/
  (exists d s',
     inquiryData s !! id = Some d /\
     let rejected := SetState REJECTED d in
     InquiryService_RejectInquiry id s = (Ok tt, s') /\
     inquiryData s' = <[inquiryId d := rejected]> (<[id := rejected]> (inquiryData s)) /\
     filter is_ProcessAdd (inquiry_calls s')
     = filter is_ProcessAdd (inquiry_calls s)
       ++ map (fun l => ProcessAdd_Inquiry l rejected) (inquiry_listeners s) /\
     outFile (historicalInquiry s')
     = outFile (historicalInquiry s)
       ++ replicate (length (inquiry_listeners s)) rejected).
Proof.
  assert (Hget : InquiryService_GetData id s
                 = match inquiryData s !! id with
                   | Some v => (Ok v, s)
                   | None => (Throw (runtime_error "Key not found"), s)
                   end).
  { unfold InquiryService_GetData, mbind, M_bind, m_bind. simpl.
    by destruct (inquiryData s !! id). }
  unfold InquiryService_RejectInquiry.
  cbv beta iota delta [mbind M_bind m_bind modify]. rewrite Hget.
  destruct (inquiryData s !! id) as [d|] eqn:E; [right | by left].
  set (rejected := SetState REJECTED d).
  set (s0 := set_inquiryData (insert id rejected) s).
  destruct (OnMessage_run rejected s0) as (s' & Hrun & Hdata & Hls & Hcalls & Hfile).
  exists d, s'. split; [done|]. cbv zeta. fold rejected.
  fold s0. rewrite Hrun.
  split; [done|]. split; [|split].
  - rewrite Hdata. by destruct s.
  - rewrite Hcalls. simpl. rewrite app_nil_r. by destruct s.
  - rewrite Hfile. simpl. rewrite Nat.add_0_r. by destruct s.
Qed.

End InquiryStates.

Module InquiryRuns.

(** A file with an inquiry in each state. *)
Definition inquiries : list string :=
  [ "INQ1,91282CAV3,BUY,1000000,100-000,RECEIVED";
    "INQ2,91282CAV3,SELL,2000000,100-000,QUOTED";
    "INQ3,91282CAV3,BUY,3000000,100-000,REJECTED";
    "INQ4,91282CAV3,SELL,4000000,100-000,DONE";
    "INQ5,91282CAV3,BUY,5000000,100-000,CUSTOMER_REJECTED" ].

Definition after_inquiries : @InquirySystem spec_float :=
  snd (InquiryConnector_Subscribe inquiries wired_InquirySystem).

End InquiryRuns.

Lemma Subscribe_keeps_rejected_only_witness :
  rejected_only InquiryRuns.after_inquiries.
Proof.
  apply (Subscribe_keeps_rejected_only InquiryRuns.inquiries wired_InquirySystem).
  intros k d H. by vm_compute in H.
Defined.

(** Of the five inquiries of the file, the two rejected ones are kept,
    and eight records are written: three, two, one, one and one. *)
Example inquiries_kept :
  (inquiryData InquiryRuns.after_inquiries !! "INQ1",
   inquiryData InquiryRuns.after_inquiries !! "INQ2",
   inquiryData InquiryRuns.after_inquiries !! "INQ4") = (None, None, None) /\
  inquiry_state <$> inquiryData InquiryRuns.after_inquiries !! "INQ3" = Some REJECTED /\
  inquiry_state <$> inquiryData InquiryRuns.after_inquiries !! "INQ5"
  = Some CUSTOMER_REJECTED /\
  map inquiryId (outFile (historicalInquiry InquiryRuns.after_inquiries))
  = ["INQ1"; "INQ1"; "INQ1"; "INQ2"; "INQ2"; "INQ3"; "INQ4"; "INQ5"].
Proof. by vm_compute. Qed.

(* ===================================================================== *)
(** * Text records: fields and commas *)
(* ===================================================================== *)

Module TextFacts.

Import Text NumeralFacts.

(** No character of the string is a comma. *)
Fixpoint no_comma (s : string) : bool :=
  match s with
  | EmptyString => true
  | String c s' => negb (Ascii.eqb c ",") && no_comma s'
  end.

(** The fields written one after the other, a comma between any two. *)
Fixpoint join_commas (fields : list string) : string :=
  match fields with
  | [] => ""
  | [f] => f
  | f :: fields' => f +:+ "," +:+ join_commas fields'
  end.

Lemma append_nil_r (s : string) : s +:+ "" = s.
Proof.
  induction s as [|c s IH]; [done|].
  change (String c (s +:+ "") = String c s). by rewrite IH.
Qed.

Lemma aux_field (f : string) :
  no_comma f = true ->
  forall cur rest,
    split_commas_aux cur (f +:+ rest) = split_commas_aux (cur +:+ f) rest.
Proof.
  induction f as [|c f IH]; intros Hf cur rest.
  - by rewrite append_nil_r.
  - simpl in Hf. apply andb_prop in Hf as [Hc Hf].
    change (String c f +:+ rest) with (String c (f +:+ rest)). simpl.
    apply negb_true_iff in Hc. rewrite Hc, (IH Hf).
    f_equal. rewrite append_assoc. done.
Qed.

Lemma aux_comma (cur rest : string) :
  split_commas_aux cur ("," +:+ rest) = cur :: split_commas_aux "" rest.
Proof. reflexivity. Qed.

Lemma aux_end (cur : string) :
  split_commas_aux cur "" = if decide (cur = "") then [] else [cur].
Proof. by destruct cur. Qed.

Lemma aux_last_field (f : string) :
  no_comma f = true ->
  split_commas_aux "" f = if decide (f = "") then [] else [f].
Proof.
  intros Hf. rewrite <- (append_nil_r f) at 1.
  rewrite (aux_field f Hf), aux_end. done.
Qed.

Lemma split_join_cons (fields : list string) :
  forall f,
    Forall (fun f => no_comma f = true) (f :: fields) ->
    split_commas_aux "" (join_commas (f :: fields) +:+ ",") = f :: fields /\
    (last (f :: fields) <> Some "" ->
     split_commas_aux "" (join_commas (f :: fields)) = f :: fields).
Proof.
  induction fields as [|g fields IH]; intros f Hall.
  - pose proof (Forall_inv Hall) as Hf. simpl join_commas. split.
    + by rewrite (aux_field f Hf).
    + intros Hlast. rewrite (aux_last_field f Hf).
      destruct (decide (f = "")) as [->|]; done.
  - pose proof (Forall_inv Hall) as Hf. pose proof (Forall_inv_tail Hall) as Hfs.
    destruct (IH g Hfs) as [IH1 IH2].
    change (join_commas (f :: g :: fields))
      with (f +:+ "," +:+ join_commas (g :: fields)).
    split.
    + rewrite !append_assoc, (aux_field f Hf), aux_comma. by rewrite IH1.
    + intros Hlast. rewrite (aux_field f Hf), aux_comma, IH2; done.
Qed.

Lemma split_commas_join_last (fields : list string) :
  Forall (fun f => no_comma f = true) fields ->
  last fields <> Some "" ->
  split_commas (join_commas fields) = fields.
Proof.
  destruct fields as [|f fields]; [done|]. intros Hall Hlast.
  by apply (split_join_cons fields f Hall).
Qed.

End TextFacts.

(** X14.  Fields and commas.  The getline loop of the connectors cuts a
    line at its commas: a line made of fields that hold no comma, joined
    by commas, is cut back into those fields when the last field is not
    empty; one comma at the end of a line is dropped, so that a line
    never yields a last field that is empty unless two commas end it. *)
Theorem split_commas_join (f : string) (fields : list string) :
  Forall (fun f => TextFacts.no_comma f = true) (f :: fields) ->
  Text.split_commas (TextFacts.join_commas (f :: fields) +:+ ",") = f :: fields /\
  (last (f :: fields) <> Some "" ->
   Text.split_commas (TextFacts.join_commas (f :: fields)) = f :: fields).
Proof. apply TextFacts.split_join_cons. Qed.

Lemma split_commas_join_witness :
  Text.split_commas "91282CAV3,T1,100-000,TRSY1,3000000,BUY,"
  = ["91282CAV3"; "T1"; "100-000"; "TRSY1"; "3000000"; "BUY"] /\
  (last ["91282CAV3"; "T1"; "100-000"; "TRSY1"; "3000000"; "BUY"] <> Some "" ->
   Text.split_commas "91282CAV3,T1,100-000,TRSY1,3000000,BUY"
   = ["91282CAV3"; "T1"; "100-000"; "TRSY1"; "3000000"; "BUY"]).
Proof.
  apply (split_commas_join "91282CAV3" ["T1"; "100-000"; "TRSY1"; "3000000"; "BUY"]).
  by repeat constructor.
Defined.

(* ===================================================================== *)
(** * Reading a trade line *)
(* ===================================================================== *)

Module LineFacts.

Import Numeral NumeralFacts TextFacts.

Lemma is_digit_not_comma (c : ascii) : is_digit c = true -> Ascii.eqb c "," = false.
Proof. destruct c as [[] [] [] [] [] [] [] []]; try discriminate; reflexivity. Qed.

Lemma digits_no_comma (s : string) : digits_only s = true -> no_comma s = true.
Proof.
  induction s as [|c s IH]; [done|]. simpl.
  intros [Hc Hs]%andb_prop. by rewrite (is_digit_not_comma c Hc), IH.
Qed.

Lemma no_comma_append (s t : string) :
  no_comma s = true -> no_comma t = true -> no_comma (s +:+ t) = true.
Proof.
  induction s as [|c s IH]; [done|]. simpl.
  intros [Hc Hs]%andb_prop Ht.
  change (no_comma (String c (s +:+ t)) = true). simpl. by rewrite Hc, IH.
Qed.

Lemma to_string_digits (X : Z) : 0 <= X -> digits_only (to_string X) = true.
Proof.
  intros HX. destruct (to_string_nonneg X HX) as (u & _ & _ & -> & _ & _).
  apply string_of_uint_digits.
Qed.

Lemma to_string_no_comma (q : Z) : no_comma (to_string q) = true.
Proof.
  destruct q as [|p|p].
  - reflexivity.
  - apply digits_no_comma, to_string_digits. lia.
  - change (to_string (Zneg p)) with (String "-" (to_string (Zpos p))).
    simpl. apply digits_no_comma, to_string_digits. lia.
Qed.

Lemma to_string_not_empty (q : Z) : to_string q <> "".
Proof.
  destruct q as [|p|p]; [done | | done].
  destruct (to_string_nonneg (Zpos p)) as (u & c & s & -> & -> & _); [lia | done].
Qed.

Lemma frac_string_no_comma (X YY Z256 : Z) (plus : bool) :
  0 <= X -> 0 <= YY -> 0 <= Z256 ->
  no_comma (frac_string X YY Z256 plus) = true.
Proof.
  intros HX HYY HZ. unfold frac_string, two_digits, last_char.
  repeat apply no_comma_append; try reflexivity;
    try (apply digits_no_comma, to_string_digits; lia).
  - by destruct (YY <? 10).
  - destruct plus; [reflexivity|]. apply digits_no_comma, to_string_digits. lia.
Qed.

(** [std::stol] reads back what [std::to_string] prints for a long. *)
Lemma stol_to_string (q : Z) : in_long q -> stol (to_string q) = Ok q.
Proof.
  intros Hq.
  assert (Hpos : forall p, in_long (Zpos p) -> stol (to_string (Zpos p)) = Ok (Zpos p)).
  { intros p Hp.
    destruct (to_string_nonneg (Zpos p)) as (u & c & s & -> & Es & Hu); [lia|].
    pose proof (string_of_uint_digits u) as Hd.
    unfold stol. rewrite Es in *. simpl in Hd. apply andb_prop in Hd as [Hc Hs].
    simpl skip_spaces. rewrite (is_digit_not_space c Hc).
    rewrite (is_digit_no_sign c s Hc).
    rewrite span_digits_all by (simpl; by rewrite Hc, Hs).
    cbv beta iota zeta. rewrite <- Es, digits_value_uint, Hu.
    unfold in_long in Hp.
    destruct (Z.leb_spec LONG_MIN (Zpos p)), (Z.leb_spec (Zpos p) LONG_MAX);
      try lia. reflexivity. }
  destruct q as [|p|p]; [reflexivity | by apply Hpos |].
  change (to_string (Zneg p)) with (String "-" (to_string (Zpos p))).
  destruct (to_string_nonneg (Zpos p)) as (u & c & s & -> & Es & Hu); [lia|].
  pose proof (string_of_uint_digits u) as Hd.
  unfold stol. simpl skip_spaces. simpl take_sign. cbv beta iota zeta.
  rewrite span_digits_all by done. rewrite Es.
  cbv beta iota zeta. rewrite <- Es, digits_value_uint, Hu.
  unfold in_long in Hq.
  destruct (Z.leb_spec LONG_MIN (- Zpos p)), (Z.leb_spec (- Zpos p) LONG_MAX);
    try lia. reflexivity.
Qed.

Lemma known_no_comma (cusip : string) (b : Bond) :
  ProductFactory.QueryProduct cusip = Ok b -> no_comma cusip = true.
Proof.
  cbv beta iota zeta fix delta
    [ProductFactory.QueryProduct ProductFactory.table_find
     ProductFactory.productConstructors].
  repeat match goal with
         | |- context [String.eqb ?k cusip] =>
             destruct (String.eqb_spec k cusip) as [<-|_];
             [intros _; reflexivity|]
         end.
  intros; discriminate.
Qed.

End LineFacts.

Section TradeLine.
Import Numeral NumeralFacts TextFacts LineFacts.

(** X15.  A trade line is read as the trade it spells.  On binary64,
    for a CUSIP of the product table, a trade id and a book without
    commas, a valid price string X-YYZ, a quantity that a long holds
    printed in decimal, and a last field that is not empty, Subscribe on
    the line "cusip,id,X-YYZ,book,quantity,side" does exactly what
    OnMessage does on the trade of that product, id, price
    X + YY/32 + Z/256, book and quantity, bought when the last field is
    BUY and sold otherwise. *)
Theorem Subscribe_reads_trade_line
    (cusip tradeId bk side_text : string) (product : Bond)
    (X YY Z256 q : Z) (plus : bool) (s : @System spec_float) :
  ProductFactory.QueryProduct cusip = Ok product ->
  no_comma tradeId = true -> no_comma bk = true ->
  no_comma side_text = true -> side_text <> "" ->
  valid_frac X YY Z256 plus ->
  in_long q ->
  let line :=
    join_commas [cusip; tradeId; frac_string X YY Z256 plus; bk; to_string q;
                 side_text] in
  let trade :=
    mkTrade product tradeId (price_of X YY Z256) bk q
            (if String.eqb side_text "BUY" then BUY else SELL) in
  TradeBookingConnector_Subscribe [line] s = TradeBookingService_OnMessage trade s.
Proof.
  intros Hprod Hid Hbk Hside Hne (HX & HYY & HZ & Hplus) Hq line trade.
  assert (Htokens : Text.split_commas line
                    = [cusip; tradeId; frac_string X YY Z256 plus; bk; to_string q;
                       side_text]).
  { apply split_commas_join_last; [|simpl; congruence].
    repeat constructor; try done.
    - by apply (known_no_comma cusip product).
    - apply frac_string_no_comma; lia.
    - apply to_string_no_comma. }
  set (tokens := [cusip; tradeId; frac_string X YY Z256 plus; bk; to_string q;
                  side_text]) in *.
  assert (H0 : vec_at tokens 0 = Ok cusip) by reflexivity.
  assert (H1 : vec_at tokens 1 = Ok tradeId) by reflexivity.
  assert (H2 : vec_at tokens 2 = Ok (frac_string X YY Z256 plus)) by reflexivity.
  assert (H3 : vec_at tokens 3 = Ok bk) by reflexivity.
  assert (H4 : vec_at tokens 4 = Ok (to_string q)) by reflexivity.
  assert (H5 : vec_at tokens 5 = Ok side_text) by reflexivity.
  clearbody tokens.
  unfold TradeBookingConnector_Subscribe. simpl for_each.
  unfold m_bind at 1.
  cbv beta iota delta [mbind M_bind m_bind lift]. rewrite Htokens.
  rewrite H0, Hprod, H1, H2.
  rewrite (Frac2Price_value64 X YY Z256 HX HYY HZ plus Hplus).
  rewrite H3, H4, (stol_to_string q Hq), H5.
  fold trade.
  destruct (TradeBookingService_OnMessage trade s) as [[[]| |] s']; reflexivity.
Qed.

End TradeLine.

Lemma Subscribe_reads_trade_line_witness :
  TradeBookingConnector_Subscribe
    ["91282CAV3,T1,100-000,TRSY1,3000000,BUY"] Scenario.system0
  = TradeBookingService_OnMessage
      (mkTrade Scenario.US2Y "T1" (price_of 100 0 0) "TRSY1" 3000000 BUY)
      Scenario.system0.
Proof.
  apply (Subscribe_reads_trade_line "91282CAV3" "T1" "TRSY1" "BUY" Scenario.US2Y
           100 0 0 3000000 false Scenario.system0); try reflexivity.
  - discriminate.
  - unfold valid_frac, INT_MAX. repeat split; (lia || discriminate).
  - unfold in_long, LONG_MIN, LONG_MAX. lia.
Defined.

(* ===================================================================== *)
(** * HistoricalDataService: the cache and the file *)
(* ===================================================================== *)

Section Historical.
Context {V : Type}.

(** [PersistData] on each record of a list, the first record first. *)
Definition persist_all (records : list (string * V)) (h : HistoricalDataService V)
  : HistoricalDataService V :=
  foldl (fun h r => PersistData r.1 r.2 h) h records.

(** The last record of a list that was persisted under [key]. *)
Definition last_under (key : string) (records : list (string * V)) : option V :=
  snd <$> last (filter (fun r => r.1 = key) records).

Lemma last_under_snoc (key : string) (records : list (string * V)) (r : string * V) :
  last_under key (records ++ [r])
  = if decide (r.1 = key) then Some r.2 else last_under key records.
Proof.
  unfold last_under. rewrite filter_app, filter_cons, filter_nil.
  destruct (decide (r.1 = key)).
  - by rewrite last_snoc.
  - by rewrite app_nil_r.
Qed.

(** X16.  The historical cache and file.  After any run of PersistData,
    the result file holds, after what it held, every record persisted,
    in the order of the calls, and GetData of a key returns the last
    record persisted under that key: the one the cache held before if
    the run persisted none under it, and "Key not found" if there was
    none either. *)
Theorem PersistData_run (records : list (string * V)) (h : HistoricalDataService V) :
  let h' := persist_all records h in
  outFile h' = outFile h ++ records.*2 /\
  forall key,
    HistoricalDataService_GetData h' key
    = match last_under key records with
      | Some v => Ok v
      | None => HistoricalDataService_GetData h key
      end.
Proof.
  induction records as [|r records IH] using rev_ind; simpl.
  - split; [by rewrite app_nil_r | done].
  - destruct IH as [IHf IHc]. unfold persist_all in *. rewrite foldl_app. simpl.
    split.
    + rewrite IHf, fmap_app, app_assoc. done.
    + intros key. rewrite last_under_snoc.
      unfold HistoricalDataService_GetData, BaseService_GetData in *. simpl.
      destruct (decide (r.1 = key)) as [<-|Hk].
      * by rewrite lookup_insert_eq.
      * rewrite lookup_insert_ne by done. apply IHc.
Qed.

End Historical.

(* ===================================================================== *)
(** * GUIService: the throttle *)
(* ===================================================================== *)

Section GUI.
Context {D : Type}.

(** The number of ticks of [std::chrono::system_clock] in a
    millisecond. *)
Variable ticks_per_ms : Z.
Hypothesis ticks_per_ms_pos : 0 < ticks_per_ms.

(** [GUIServiceListener::ProcessAdd] on each price of a list, each with
    the clock reading of its call. *)
Fixpoint publish_all (events : list (Z * Price D)) (g : GUIService D)
  : result (GUIService D) :=
  match events with
  | [] => Ok g
  | (now, price) :: events' =>
      g' ← PublishThrottledPrice ticks_per_ms now price g;
      publish_all events' g'
  end.

(** Each reading is more than [ms] whole milliseconds after the one
    before it, the first after [start]. *)
Fixpoint spaced (ms : Z) (start : Z) (times : list Z) : Prop :=
  match times with
  | [] => True
  | t :: times' => (ms + 1) * ticks_per_ms <= t - start /\ spaced ms t times'
  end.

Lemma PublishThrottledPrice_step (now : Z) (price : Price D) (g g' : GUIService D) :
  0 <= throttle g ->
  PublishThrottledPrice ticks_per_ms now price g = Ok g' ->
  throttle g' = throttle g /\
  ((g' = g) \/
   ((throttle g + 1) * ticks_per_ms <= now - startTime g /\
    startTime g' = now /\
    gui_published g' = gui_published g ++ [price])).
Proof.
  intros Hms. unfold PublishThrottledPrice.
  destruct ((LONG_MIN <=? now - startTime g) && (now - startTime g <=? LONG_MAX));
    [|discriminate].
  destruct (Z.ltb_spec (throttle g) (Z.quot (now - startTime g) ticks_per_ms))
    as [Hlt|Hge]; intros [= <-]; (split; [done|]); [right | by left].
  split; [|done].
  destruct (Z_lt_le_dec (now - startTime g) ((throttle g + 1) * ticks_per_ms))
    as [Hsmall|]; [|done].
  exfalso.
  destruct (Z_lt_le_dec (now - startTime g) 0) as [Hneg|Hnn].
  - assert (Z.quot (now - startTime g) ticks_per_ms <= 0); [|lia].
    apply Z.quot_le_upper_bound; [done|]. lia.
  - assert (Z.quot (now - startTime g) ticks_per_ms < throttle g + 1); [|lia].
    apply Z.quot_lt_upper_bound; lia.
Qed.

(** X17.  The GUI throttle.  Of the prices that reach GUIService, in
    any run that stays defined, those handed to the connector are some
    of the prices received, in the order received, and the clock
    readings at which they are handed over are more than throttle whole
    milliseconds apart, the first more than throttle milliseconds after
    the start time of the service. *)
Theorem GUI_throttle (events : list (Z * Price D)) (g g' : GUIService D) :
  0 <= throttle g ->
  publish_all events g = Ok g' ->
  exists chosen : list (Z * Price D),
    sublist chosen events /\
    gui_published g' = gui_published g ++ chosen.*2 /\
    spaced (throttle g) (startTime g) chosen.*1 /\
    startTime g' = default (startTime g) (last chosen.*1).
Proof.
  revert g. induction events as [|[now price] events IH]; intros g Hms Hrun.
  - injection Hrun as <-. exists []. simpl. by rewrite app_nil_r.
  - simpl in Hrun. unfold mbind, result_bind, rbind in Hrun.
    destruct (PublishThrottledPrice ticks_per_ms now price g) as [g1| |] eqn:E1;
      try discriminate.
    destruct (PublishThrottledPrice_step now price g g1 Hms E1)
      as (Hth & [-> | (Hgap & Hstart & Hpub)]).
    + destruct (IH g Hms Hrun) as (chosen & Hsub & Hp & Hsp & Hst).
      exists chosen. split; [apply sublist_cons; exact Hsub|]. done.
    + destruct (IH g1) as (chosen & Hsub & Hp & Hsp & Hst); [lia | done |].
      exists ((now, price) :: chosen). split; [apply sublist_skip; exact Hsub|].
      simpl. rewrite Hp, Hpub, <- app_assoc. split; [done|].
      rewrite Hth, Hstart in Hsp. split; [done|].
      rewrite Hst, Hstart, last_cons.
      change (list_fmap (Z * Price D)%type Z fst chosen) with (chosen.*1).
      by destruct (last chosen.*1).
Qed.

End GUI.

Module GUIRuns.

(** A clock that ticks in nanoseconds, and four prices that arrive 100,
    301, 400 and 700 milliseconds after the service was built. *)
Definition ns : Z := 1000000.

Definition quote (n : Z) : Price spec_float :=
  mkPrice Scenario.US2Y (Binary64.of_Z n) (Binary64.of_Z 0).

Definition arrivals : list (Z * Price spec_float) :=
  [ (100 * ns, quote 100); (301 * ns, quote 101);
    (400 * ns, quote 102); (700 * ns, quote 103) ].

Definition gui_after : GUIService spec_float :=
  mkGUIService 300 (700 * ns) [quote 101; quote 103].

End GUIRuns.

Lemma GUI_throttle_witness :
  exists chosen : list (Z * Price spec_float),
    sublist chosen GUIRuns.arrivals /\
    gui_published GUIRuns.gui_after = [] ++ chosen.*2 /\
    spaced GUIRuns.ns 300 0 chosen.*1 /\
    startTime GUIRuns.gui_after = default 0 (last chosen.*1).
Proof.
  apply (GUI_throttle GUIRuns.ns ltac:(done) GUIRuns.arrivals
           (new_GUIService 0) GUIRuns.gui_after); [done | by vm_compute].
Defined.

(* ===================================================================== *)
(** * RiskService: the risk of a sector *)
(* ===================================================================== *)

Section BucketedRisk.
Context {D : Type} {dbl : Double D}.

Record BucketedSector : Type := mkBucketedSector {
  sector_products : list Bond;
  sector_name : string
}.

(** [PV01<BucketedSector<T>>]. *)
Record SectorPV01 : Type := mkSectorPV01 {
  sector : BucketedSector;
  sector_pv01 : D;
  sector_quantity : Z
}.

(** One round of the [std::accumulate] in [CalculateSectorPV01]: the
    running sum, and [totalQuantity], which the lambda updates through
    its reference. *)
Definition sector_step (pv01Data : gmap string (PV01 D)) (acc : D * Z) (product : Bond)
  : D * Z :=
  let '(sum, totalQuantity) := acc in
  match pv01Data !! productId product with
  | Some p =>
      (d_add sum (d_mul (pv01 p) (d_of_Z (pv01_quantity p))),
       Long.add totalQuantity (pv01_quantity p))
  | None => (sum, totalQuantity)
  end.

Definition CalculateSectorPV01 (pv01Data : gmap string (PV01 D)) (products : list Bond)
  : D * Z :=
  fold_left (sector_step pv01Data) products (d_of_Z 0, 0).

Definition GetBucketedRisk (sec : BucketedSector) (s : @System D) : SectorPV01 :=
  let '(totalPV01, totalQuantity) :=
    CalculateSectorPV01 (pv01Data s) (sector_products sec) in
  mkSectorPV01 sec totalPV01 totalQuantity.

(** The entries that the risk store holds for the products of a list,
    one for each occurrence of a product that has an entry. *)
Definition held (pv01Data : gmap string (PV01 D)) (products : list Bond)
  : list (PV01 D) :=
  omap (fun product => pv01Data !! productId product) products.

Lemma sector_fold (pv01Data : gmap string (PV01 D)) (products : list Bond) :
  forall (sum : D) (q : Z),
    let found := held pv01Data products in
    let r := fold_left (sector_step pv01Data) products (sum, q) in
    r.1 = fold_left (fun sum p => d_add sum (d_mul (pv01 p) (d_of_Z (pv01_quantity p))))
                    found sum /\
    wrap64 r.2 = wrap64 (q + Zsum (map pv01_quantity found)) /\
    (in_long q -> in_long r.2).
Proof.
  induction products as [|product products IH]; intros sum q; simpl.
  - rewrite Z.add_0_r. done.
  - unfold held. simpl. fold (held pv01Data products).
    destruct (pv01Data !! productId product) as [p|]; simpl.
    + destruct (IH (d_add sum (d_mul (pv01 p) (d_of_Z (pv01_quantity p))))
                   (Long.add q (pv01_quantity p))) as (H1 & H2 & H3).
      split; [exact H1|]. split.
      * rewrite H2. unfold Long.add. rewrite wrap64_add_l. f_equal. lia.
      * intros _. apply H3. apply wrap64_range.
    + apply IH.
Qed.

(** X18.  The risk of a sector.  GetBucketedRisk skips the products of
    the sector that have no entry in the risk store and takes each
    other product once for each time the sector lists it: the quantity
    it returns is the sum of the stored quantities as a 64-bit long, and
    the PV01 is the sum, taken from left to right from 0.0, of stored
    PV01 times stored quantity.  A sector none of whose products has an
    entry, the empty sector among them, gets quantity 0 and PV01 0.0. *)
Theorem GetBucketedRisk_sums (sec : BucketedSector) (s : @System D) :
  let found := held (pv01Data s) (sector_products sec) in
  GetBucketedRisk sec s
  = mkSectorPV01 sec
      (fold_left (fun sum p => d_add sum (d_mul (pv01 p) (d_of_Z (pv01_quantity p))))
                 found (d_of_Z 0))
      (wrap64 (Zsum (map pv01_quantity found))).
Proof.
  intros found. unfold GetBucketedRisk, CalculateSectorPV01.
  destruct (sector_fold (pv01Data s) (sector_products sec) (d_of_Z 0) 0)
    as (H1 & H2 & H3).
  destruct (fold_left (sector_step (pv01Data s)) (sector_products sec) (d_of_Z 0, 0))
    as [total q]. simpl in *.
  rewrite H1. f_equal. rewrite <- (wrap64_id q), H2; [done|].
  apply H3. unfold in_long, LONG_MIN, LONG_MAX. lia.
Qed.

End BucketedRisk.

(* ===================================================================== *)
(** * Booking executions: the books in turn *)
(* ===================================================================== *)

Section BookRotation.
Context {D : Type} {dbl : Double D} {ho : HashOrder D}.

Local Abbreviation Sys := (@System D).

(** The trade that the listener of TradeBookingService makes of an
    execution order when its counter is [count]. *)
Definition trade_of_order (count : Z) (order : ExecutionOrder D) : Trade D :=
  mkTrade (eo_product order) (orderId order) (eo_price order)
          ("TRSY" +:+ Numeral.to_string (count mod 3 + 1))
          (Long.add (visibleQuantity order) (hiddenQuantity order))
          (match eo_side order with BID => BUY | OFFER => SELL end).

Lemma BookTrade_tb_count (t : Trade D) :
  preserves tb_count (TradeBookingService_BookTrade (D:=D) t).
Proof. preserve. Qed.

Lemma BookTrade_trade_listeners (t : Trade D) :
  preserves trade_listeners (TradeBookingService_BookTrade (D:=D) t).
Proof. preserve. Qed.

Lemma ProcessAdd_order_step (order : ExecutionOrder D) (s s' : Sys) :
  0 <= tb_count s < LONG_MAX ->
  TradeBookingServiceListener_ProcessAdd order s = (Ok tt, s') ->
  tb_count s' = tb_count s + 1 /\
  trade_listeners s' = trade_listeners s /\
  filter trade_level (calls s')
  = filter trade_level (calls s)
    ++ map (fun l => ProcessAdd_Trade l (trade_of_order (tb_count s) order))
           (trade_listeners s).
Proof.
  intros Hc Hrun.
  set (s0 := set_tb_count (fun c => Long.add c 1) s).
  assert (E : TradeBookingServiceListener_ProcessAdd order s
              = TradeBookingService_BookTrade (trade_of_order (tb_count s) order) s0).
  { unfold TradeBookingServiceListener_ProcessAdd, mbind, M_bind, m_bind. simpl.
    fold s0. unfold trade_of_order. do 4 f_equal.
    unfold Long.add. rewrite Z.rem_mod_nonneg by lia.
    apply wrap64_id. unfold in_long, LONG_MIN, LONG_MAX.
    pose proof (Z.mod_pos_bound (tb_count s) 3 ltac:(lia)). lia. }
  rewrite E in Hrun.
  pose proof (BookTrade_tb_count (trade_of_order (tb_count s) order) s0) as Hcount.
  pose proof (BookTrade_trade_listeners (trade_of_order (tb_count s) order) s0) as Hls.
  rewrite Hrun in Hcount, Hls. simpl in Hcount, Hls.
  split; [|split].
  - rewrite Hcount. unfold s0. destruct s. simpl in *. unfold Long.add.
    apply wrap64_id. unfold in_long, LONG_MIN, LONG_MAX in *. lia.
  - rewrite Hls. by destruct s.
  - unfold TradeBookingService_BookTrade, mbind, M_bind, m_bind in Hrun.
    simpl in Hrun.
    rewrite (BookTrade_notifies _ _ _ _ Hrun). by destruct s.
Qed.

(** X20.  Execution orders are booked to TRSY1, TRSY2 and TRSY3 in
    turn.  When the listener of TradeBookingService has processed a
    list of execution orders and each call has returned, starting with
    its counter at c >= 0, the listeners of TradeBookingService have
    been given one trade for each order, in the order of the list, and
    no other call has been made at the service: the trade of the i-th
    order (from 0) has the id, the product and the price of the order,
    its visible plus its hidden quantity, side BUY for a BID and SELL
    for an OFFER, and the book TRSY1, TRSY2 or TRSY3 according to
    (c + i) mod 3; the counter is c plus the number of orders. *)
Theorem orders_booked_in_turn (orders : list (ExecutionOrder D)) (s s' : Sys) :
  0 <= tb_count s ->
  tb_count s + Z.of_nat (length orders) <= LONG_MAX ->
  for_each orders TradeBookingServiceListener_ProcessAdd s = (Ok tt, s') ->
  tb_count s' = tb_count s + Z.of_nat (length orders) /\
  filter trade_level (calls s')
  = filter trade_level (calls s)
    ++ mjoin (imap (fun i order =>
                      map (fun l => ProcessAdd_Trade l
                                      (trade_of_order (tb_count s + Z.of_nat i) order))
                          (trade_listeners s))
                   orders).
Proof.
  revert s. induction orders as [|order orders IH]; intros s Hc Hmax Hrun.
  - injection Hrun as <-. simpl. rewrite app_nil_r. split; [lia | done].
  - simpl in Hrun. unfold m_bind in Hrun.
    destruct (TradeBookingServiceListener_ProcessAdd order s) as [[[]| |] s1] eqn:E1;
      try discriminate.
    change (length (order :: orders)) with (S (length orders)) in *.
    rewrite Nat2Z.inj_succ in *.
    destruct (ProcessAdd_order_step order s s1) as (Hc1 & Hls1 & Hcalls1); [lia | done |].
    destruct (IH s1) as (Hc' & Hcalls'); [lia | lia | done |].
    split; [rewrite Hc', Hc1; lia|].
    rewrite Hcalls', Hcalls1, Hls1, Hc1. simpl. rewrite Z.add_0_r, <- app_assoc.
    do 3 f_equal. apply imap_ext. intros i o _. simpl.
    replace (tb_count s + 1 + Z.of_nat i) with (tb_count s + Z.of_nat (S i)) by lia.
    done.
Qed.

End BookRotation.

Module RotationRuns.

Import Scenario.

Definition order_n (id : string) (side : PricingSide) : ExecutionOrder spec_float :=
  mkExecutionOrder US2Y side id MARKET par 1000000 0 "AlgoParent00001" false.

Definition four_orders : list (ExecutionOrder spec_float) :=
  [ order_n "A0" BID; order_n "A1" OFFER; order_n "A2" BID; order_n "A3" BID ].

Definition after_orders : @System spec_float :=
  snd (for_each four_orders TradeBookingServiceListener_ProcessAdd system0).

End RotationRuns.

Lemma orders_booked_in_turn_witness :
  tb_count RotationRuns.after_orders
  = tb_count Scenario.system0 + Z.of_nat (length RotationRuns.four_orders) /\
  filter trade_level (calls RotationRuns.after_orders)
  = filter trade_level (calls Scenario.system0)
    ++ mjoin (imap (fun i order =>
                      map (fun l => ProcessAdd_Trade l
                                      (trade_of_order
                                         (tb_count Scenario.system0 + Z.of_nat i) order))
                          (trade_listeners Scenario.system0))
                   RotationRuns.four_orders).
Proof.
  apply (orders_booked_in_turn RotationRuns.four_orders Scenario.system0
           RotationRuns.after_orders).
  - by vm_compute.
  - by vm_compute.
  - by vm_compute.
Defined.

(** The books of the four trades, and the sides. *)
Example four_orders_books :
  omap (fun c => match c with
                 | ProcessAdd_Trade _ t => Some (book t, trade_side t)
                 | _ => None
                 end) (calls RotationRuns.after_orders)
  = [("TRSY1", BUY); ("TRSY2", SELL); ("TRSY3", BUY); ("TRSY1", BUY)].
Proof. by vm_compute. Qed.

(* ===================================================================== *)
(** * From a book to a position *)
(* ===================================================================== *)

Section Pipeline.
Context {D : Type} {dbl : Double D} {ho : HashOrder D}.
Import PositionOps.

Local Abbreviation Sys := (@System D).

(** The listeners that [InitializeServices] registers. *)
Definition wired (s : Sys) : Prop :=
  md_listeners s = [AlgoExecutionServiceListener] /\
  algo_listeners s = [ExecutionServiceListener] /\
  exec_listeners s = [TradeBookingServiceListener; HistoricalExecutionListener] /\
  trade_listeners s = [PositionServiceListener] /\
  position_listeners s = [RiskServiceListener; HistoricalPositionListener] /\
  risk_listeners s = [HistoricalRiskListener].

Definition said (c : Call) : Sys -> Sys := set_calls (fun cs => cs ++ [c]).

(** ** RiskService::AddPosition and its listener *)

Definition risk_of (position : Position) (v : D) : PV01 D :=
  mkPV01 (position_product position) v (GetAggregatePosition position).

Definition risk_store (position : Position) (v : D) (m : gmap string (PV01 D))
  : gmap string (PV01 D) :=
  let pid := productId (position_product position) in
  match m !! pid with
  | Some _ => alter (UpdateQuantity (GetAggregatePosition position)) pid m
  | None => <[pid := risk_of position v]> m
  end.

Definition after_risk (position : Position) (v : D) (s : Sys) : Sys :=
  let risk := risk_of position v in
  set_historicalRisk (PersistData (productId (position_product position)) risk)
    (said (ProcessAdd_PV01 HistoricalRiskListener risk)
       (set_pv01Data (risk_store position v) s)).

Lemma RiskService_AddPosition_run (position : Position) (v : D) (s : Sys) :
  risk_listeners s = [HistoricalRiskListener] ->
  BondAnalytics.QueryPV01 (productId (position_product position)) = Ok v ->
  RiskService_AddPosition position s = (Ok tt, after_risk position v s).
Proof.
  intros Hls Hv.
  unfold RiskService_AddPosition, mbind, M_bind, m_bind, lift.
  rewrite Hv.
  unfold after_risk, said, risk_store, risk_of.
  destruct s as [obm mdl depth aed al ac g eod el td tl tc pd pl pvd rl hp hr he cs].
  simpl in Hls. subst rl.
  unfold get, set_pv01Data. cbn [pv01Data].
  destruct (pvd !! productId (position_product position)) eqn:E; reflexivity.
Qed.

(** ** PositionService::AddTrade and its listeners *)

Definition after_position (trade : Trade D) (v : D) (s : Sys) : Sys :=
  let position := apply_trade (position_for s trade) trade in
  set_historicalPosition
    (PersistData (productId (position_product position)) position)
    (said (ProcessAdd_Position HistoricalPositionListener position)
       (after_risk position v
          (said (ProcessAdd_Position RiskServiceListener position)
             (set_positionData
                (insert (productId (trade_product trade)) position) s)))).

Lemma PositionService_AddTrade_chain (trade : Trade D) (v : D) (s : Sys) :
  position_listeners s = [RiskServiceListener; HistoricalPositionListener] ->
  risk_listeners s = [HistoricalRiskListener] ->
  keyed_by_product s ->
  BondAnalytics.QueryPV01 (productId (trade_product trade)) = Ok v ->
  PositionService_AddTrade trade s = (Ok tt, after_position trade v s).
Proof.
  intros Hpl Hrl Hk Hv.
  set (position := apply_trade (position_for s trade) trade).
  set (s1 := said (ProcessAdd_Position RiskServiceListener position)
               (set_positionData
                  (insert (productId (trade_product trade)) position) s)).
  assert (Hrisk : RiskService_AddPosition position s1
                  = (Ok tt, after_risk position v s1)).
  { apply RiskService_AddPosition_run.
    - unfold s1. by destruct s.
    - change (position_product position)
        with (position_product (position_for s trade)).
      by rewrite (position_for_product s trade Hk). }
  assert (E : PositionService_AddTrade trade s
              = m_bind (RiskService_AddPosition position)
                  (fun _ => m_bind (PositionListener_ProcessAdd
                                      HistoricalPositionListener position)
                              (fun _ => m_ret tt)) s1).
  { unfold PositionService_AddTrade, mbind, M_bind.
    unfold m_bind at 1, get at 1. unfold m_bind at 1, modify at 1.
    rewrite Hpl. reflexivity. }
  rewrite E. unfold m_bind at 1. rewrite Hrisk. reflexivity.
Qed.

(** ** TradeBookingServiceListener::ProcessAdd and BookTrade *)

Definition after_booking (order : ExecutionOrder D) (v : D) (s : Sys) : Sys :=
  let trade := trade_of_order (tb_count s) order in
  after_position trade v
    (said (ProcessAdd_Trade PositionServiceListener trade)
       (set_tb_count (fun c => Long.add c 1) s)).

Lemma TradeBookingServiceListener_ProcessAdd_chain
    (order : ExecutionOrder D) (v : D) (s : Sys) :
  trade_listeners s = [PositionServiceListener] ->
  position_listeners s = [RiskServiceListener; HistoricalPositionListener] ->
  risk_listeners s = [HistoricalRiskListener] ->
  keyed_by_product s ->
  0 <= tb_count s ->
  BondAnalytics.QueryPV01 (productId (eo_product order)) = Ok v ->
  TradeBookingServiceListener_ProcessAdd order s = (Ok tt, after_booking order v s).
Proof.
  intros Htl Hpl Hrl Hk Hc Hv.
  set (trade := trade_of_order (tb_count s) order).
  set (s1 := said (ProcessAdd_Trade PositionServiceListener trade)
               (set_tb_count (fun c => Long.add c 1) s)).
  assert (Hpos : PositionService_AddTrade trade s1
                 = (Ok tt, after_position trade v s1)).
  { apply PositionService_AddTrade_chain; unfold s1; try by destruct s.
    all: intros k p; destruct s; apply Hk. }
  assert (Ebook : Long.add (tb_count s `rem` 3) 1 = tb_count s mod 3 + 1).
  { unfold Long.add. rewrite Z.rem_mod_nonneg by lia.
    apply wrap64_id. unfold in_long, LONG_MIN, LONG_MAX.
    pose proof (Z.mod_pos_bound (tb_count s) 3 ltac:(lia)). lia. }
  assert (E : TradeBookingServiceListener_ProcessAdd order s
              = m_bind (PositionService_AddTrade trade) (fun _ => m_ret tt) s1).
  { unfold TradeBookingServiceListener_ProcessAdd, mbind, M_bind.
    unfold m_bind at 1, get at 1. unfold m_bind at 1, modify at 1.
    rewrite Ebook. fold (trade_of_order (tb_count s) order). fold trade.
    unfold TradeBookingService_BookTrade, mbind, M_bind.
    unfold m_bind at 1, get at 1.
    replace (trade_listeners (set_tb_count (λ c : Z, Long.add c 1) s))
      with [PositionServiceListener] by (by destruct s).
    reflexivity. }
  rewrite E. unfold m_bind at 1. rewrite Hpos. reflexivity.
Qed.

(** ** ExecutionService, as the listener of AlgoExecutionService *)

Definition after_execution (a : AlgoExecution D) (v : D) (s : Sys) : Sys :=
  let order := executionOrderRef a in
  set_historicalExecution (PersistData (orderId order) order)
    (said (ProcessAdd_ExecutionOrder HistoricalExecutionListener order)
       (after_booking order v
          (said (ProcessAdd_ExecutionOrder TradeBookingServiceListener order)
             (set_executionOrderData
                (fun m => <[orderId order := order]> (delete (orderId order) m))
                (said (ProcessAdd_AlgoExecution ExecutionServiceListener a) s))))).

Lemma ExecutionServiceListener_chain (a : AlgoExecution D) (v : D) (s : Sys) :
  exec_listeners s = [TradeBookingServiceListener; HistoricalExecutionListener] ->
  trade_listeners s = [PositionServiceListener] ->
  position_listeners s = [RiskServiceListener; HistoricalPositionListener] ->
  risk_listeners s = [HistoricalRiskListener] ->
  keyed_by_product s ->
  0 <= tb_count s ->
  BondAnalytics.QueryPV01 (productId (eo_product (executionOrderRef a))) = Ok v ->
  AlgoExecutionListener_ProcessAdd ExecutionServiceListener a s
  = (Ok tt, after_execution a v s).
Proof.
  intros Hel Htl Hpl Hrl Hk Hc Hv.
  set (order := executionOrderRef a).
  set (s1 := said (ProcessAdd_ExecutionOrder TradeBookingServiceListener order)
               (set_executionOrderData
                  (fun m => <[orderId order := order]> (delete (orderId order) m))
                  (said (ProcessAdd_AlgoExecution ExecutionServiceListener a) s))).
  assert (Hbook : TradeBookingServiceListener_ProcessAdd order s1
                  = (Ok tt, after_booking order v s1)).
  { apply TradeBookingServiceListener_ProcessAdd_chain; unfold s1; try by destruct s.
    all: intros k p; destruct s; apply Hk. }
  assert (E : AlgoExecutionListener_ProcessAdd ExecutionServiceListener a s
              = m_bind
                  (m_bind (TradeBookingServiceListener_ProcessAdd order)
                     (fun _ => m_bind (ExecutionOrderListener_ProcessAdd
                                         HistoricalExecutionListener order)
                                 (fun _ => m_ret tt)))
                  (fun _ => ExecutionService_ExecuteOrder order (market a)) s1).
  { unfold AlgoExecutionListener_ProcessAdd, ExecutionServiceListener_ProcessAdd,
      ExecutionService_AddExecutionOrder, mbind, M_bind.
    fold order.
    destruct s as [obm mdl depth aed al ac g eod el td tl tc pd pl pvd rl hp hr he cs].
    simpl in Hel. subst el. reflexivity. }
  rewrite E. unfold m_bind at 1. unfold m_bind at 1. rewrite Hbook. reflexivity.
Qed.

(** ** SimpleAlgoOrderFactory and AlgoExecutionService *)

Definition algo_order (orderBook : OrderBook D) (bo : BidOffer D) (count : Z)
    (g : RandomGen) : ExecutionOrder D :=
  let bid := bidOrder bo in
  let offer := offerOrder bo in
  let '(side, price, quantity) :=
    if d_leb (d_sub (order_price offer) (order_price bid)) (d_div (d_of_Z 1) (d_of_Z 128))
    then if Z.rem count 2 =? 0
         then (BID, order_price offer, order_quantity bid)
         else (OFFER, order_price bid, order_quantity offer)
    else (BID, order_price bid, order_quantity bid) in
  mkExecutionOrder (book_product orderBook) side
    ("Algo" +:+ draw g (drawn g) 11) MARKET price quantity 0
    ("AlgoParent" +:+ draw g (S (drawn g)) 5) false.

Definition after_ids (s : Sys) : Sys :=
  set_gen (fun _ => mkRandomGen (S (S (drawn (gen s)))) (draw (gen s)))
    (set_gen (fun _ => mkRandomGen (S (drawn (gen s))) (draw (gen s))) s).

Lemma CreateExecutionOrder_run
    (orderBook : OrderBook D) (bo : BidOffer D) (count : Z) (s : Sys) :
  BestBidOffer orderBook = Ok bo ->
  CreateExecutionOrder orderBook count s
  = (Ok (algo_order orderBook bo count (gen s)), after_ids s).
Proof.
  intros Hbo.
  unfold CreateExecutionOrder, RandomId, mbind, M_bind, m_bind. simpl.
  unfold lift. rewrite Hbo. simpl.
  unfold algo_order, after_ids.
  destruct (d_leb _ _); [destruct (_ =? _)|]; reflexivity.
Qed.

Lemma algo_order_product orderBook bo count g :
  eo_product (algo_order orderBook bo count g) = book_product orderBook.
Proof.
  unfold algo_order.
  destruct (d_leb _ _); [destruct (_ =? _)|]; reflexivity.
Qed.

Definition after_algo (orderBook : OrderBook D) (bo : BidOffer D) (v : D) (s : Sys)
  : Sys :=
  let order := algo_order orderBook bo (algo_count s) (gen s) in
  let a := mkAlgoExecution order BROKERTEC in
  after_execution a v
    (set_algoExecutionData (insert (productId (eo_product order)) a)
       (set_algo_count (fun c => Long.add c 1) (after_ids s))).

Lemma AlgoExecuteOrder_chain
    (orderBook : OrderBook D) (bo : BidOffer D) (v : D) (s : Sys) :
  wired s ->
  keyed_by_product s ->
  0 <= tb_count s ->
  BestBidOffer orderBook = Ok bo ->
  BondAnalytics.QueryPV01 (productId (book_product orderBook)) = Ok v ->
  AlgoExecuteOrder orderBook s = (Ok tt, after_algo orderBook bo v s).
Proof.
  intros (Hmd & Hal & Hel & Htl & Hpl & Hrl) Hk Hc Hbo Hv.
  set (order := algo_order orderBook bo (algo_count s) (gen s)).
  set (a := mkAlgoExecution order BROKERTEC).
  set (s1 := set_algoExecutionData (insert (productId (eo_product order)) a)
               (set_algo_count (fun c => Long.add c 1) (after_ids s))).
  assert (Hexec : AlgoExecutionListener_ProcessAdd ExecutionServiceListener a s1
                  = (Ok tt, after_execution a v s1)).
  { apply ExecutionServiceListener_chain; unfold s1, after_ids; try by destruct s.
    all: try (intros k p; destruct s; apply Hk).
    all: change (eo_product (executionOrderRef a))
           with (eo_product (algo_order orderBook bo (algo_count s) (gen s)));
         by rewrite algo_order_product. }
  assert (E : AlgoExecuteOrder orderBook s
              = m_bind (AlgoExecutionListener_ProcessAdd ExecutionServiceListener a)
                  (fun _ => m_ret tt) s1).
  { unfold AlgoExecuteOrder, mbind, M_bind.
    unfold m_bind at 1, get at 1. unfold m_bind at 1.
    rewrite (CreateExecutionOrder_run _ _ _ _ Hbo).
    change (algo_order orderBook bo (algo_count s) (gen s)) with order.
    unfold m_bind at 1, modify at 1. unfold m_bind at 1, modify at 1.
    unfold m_bind at 1, get at 1.
    change (mkAlgoExecution order BROKERTEC) with a.
    change (set_algoExecutionData (insert (productId (eo_product order)) a)
              (set_algo_count (fun c => Long.add c 1) (after_ids s))) with s1.
    replace (algo_listeners s1) with [ExecutionServiceListener]
      by (unfold s1, after_ids; by destruct s).
    reflexivity. }
  rewrite E. unfold m_bind at 1. rewrite Hexec. reflexivity.
Qed.

(** ** MarketDataService::OnMessage *)

Definition after_book (orderBook : OrderBook D) (bo : BidOffer D) (v : D) (s : Sys)
  : Sys :=
  after_algo orderBook bo v
    (said (ProcessAdd_OrderBook AlgoExecutionServiceListener orderBook)
       (set_orderBookMap (insert (productId (book_product orderBook)) orderBook)
          (said (OnMessage_OrderBook orderBook) s))).

Lemma MarketDataService_OnMessage_chain
    (orderBook : OrderBook D) (bo : BidOffer D) (v : D) (s : Sys) :
  wired s ->
  keyed_by_product s ->
  0 <= tb_count s ->
  BestBidOffer orderBook = Ok bo ->
  BondAnalytics.QueryPV01 (productId (book_product orderBook)) = Ok v ->
  MarketDataService_OnMessage orderBook s = (Ok tt, after_book orderBook bo v s).
Proof.
  intros Hw Hk Hc Hbo Hv.
  set (s1 := said (ProcessAdd_OrderBook AlgoExecutionServiceListener orderBook)
               (set_orderBookMap (insert (productId (book_product orderBook)) orderBook)
                  (said (OnMessage_OrderBook orderBook) s))).
  assert (Halgo : AlgoExecuteOrder orderBook s1 = (Ok tt, after_algo orderBook bo v s1)).
  { apply AlgoExecuteOrder_chain; try done; unfold s1.
    all: try (destruct Hw as (? & ? & ? & ? & ? & ?); by destruct s).
    all: intros k p; destruct s; apply Hk. }
  assert (E : MarketDataService_OnMessage orderBook s
              = m_bind (AlgoExecuteOrder orderBook) (fun _ => m_ret tt) s1).
  { destruct Hw as (Hmd & _).
    unfold MarketDataService_OnMessage, OrderBookListener_ProcessAdd, mbind, M_bind.
    destruct s as [obm mdl depth aed al ac g eod el td tl tc pd pl pvd rl hp hr he cs].
    simpl in Hmd. subst mdl. reflexivity. }
  rewrite E. unfold m_bind at 1. rewrite Halgo. reflexivity.
Qed.

(** X21.  One order book through the whole chain.  With the listeners
    as main registers them, a book with both sides not empty on a product
    that has analytics makes MarketDataService::OnMessage return after:
    the book is stored; the order that the algo builds from it is stored
    in ExecutionService and persisted; the order is booked as a trade on
    the book that the booking counter selects, and that trade is kept in
    no store; the position of the product has the signed quantity of the
    trade added on that book and is persisted; the entry of the product
    in the risk store has the aggregate position as its quantity when it
    is new, and its old quantity plus the aggregate position otherwise;
    and the risk record persisted carries the aggregate position and the
    PV01 of the product. *)
Theorem book_to_position (orderBook : OrderBook D) (bo : BidOffer D) (v : D) (s : Sys) :
  wired s ->
  keyed_by_product s ->
  BestBidOffer orderBook = Ok bo ->
  BondAnalytics.QueryPV01 (productId (book_product orderBook)) = Ok v ->
  0 <= tb_count s ->
  let pid := productId (book_product orderBook) in
  exists (order : ExecutionOrder D) (s' : Sys),
    fst (CreateExecutionOrder orderBook (algo_count s) s) = Ok order /\
    MarketDataService_OnMessage orderBook s = (Ok tt, s') /\
    let trade := trade_of_order (tb_count s) order in
    let position := apply_trade (position_for s trade) trade in
    orderBookMap s' = <[pid := orderBook]> (orderBookMap s) /\
    executionOrderData s' = <[orderId order := order]> (executionOrderData s) /\
    tradeData s' = tradeData s /\
    positionData s' = <[pid := position]> (positionData s) /\
    (exists risk, pv01Data s' !! pid = Some risk /\
       pv01_quantity risk
       = match pv01Data s !! pid with
         | Some old => Long.add (pv01_quantity old) (GetAggregatePosition position)
         | None => GetAggregatePosition position
         end) /\
    outFile (historicalExecution s') = outFile (historicalExecution s) ++ [order] /\
    outFile (historicalPosition s') = outFile (historicalPosition s) ++ [position] /\
    outFile (historicalRisk s')
    = outFile (historicalRisk s)
      ++ [mkPV01 (position_product position) v (GetAggregatePosition position)].
Proof.
  intros Hw Hk Hbo Hv Hc pid.
  exists (algo_order orderBook bo (algo_count s) (gen s)), (after_book orderBook bo v s).
  split; [by rewrite (CreateExecutionOrder_run _ _ _ _ Hbo)|].
  split; [by apply MarketDataService_OnMessage_chain|].
  pose proof (algo_order_product orderBook bo (algo_count s) (gen s)) as Hprod.
  set (order := algo_order orderBook bo (algo_count s) (gen s)) in *.
  intros trade position.
  assert (Hpos : productId (position_product position) = pid).
  { change (position_product position)
      with (position_product (position_for s trade)).
    rewrite (position_for_product s trade Hk). unfold trade, trade_of_order. simpl.
    by rewrite Hprod. }
  unfold after_book, after_algo, after_execution, after_booking, after_position,
    after_risk, after_ids, said.
  destruct s as [obm mdl depth aed al ac g eod el td tl tc pd pl pvd rl hp hr he cs].
  cbn [algo_count gen tb_count set_calls set_orderBookMap set_gen set_algo_count
       set_algoExecutionData set_executionOrderData set_tb_count set_positionData
       set_pv01Data set_historicalRisk set_historicalPosition set_historicalExecution
       orderBookMap executionOrderData tradeData positionData pv01Data
       historicalExecution historicalPosition historicalRisk executionOrderRef].
  unfold position_for.
  cbn [set_calls set_orderBookMap set_gen set_algo_count
       set_algoExecutionData set_executionOrderData set_tb_count set_positionData
       positionData].
  change (algo_order orderBook bo ac g) with order.
  change (trade_of_order tc order) with trade.
  change (match pd !! productId (trade_product trade) with
          | Some p => p
          | None => mkPosition (trade_product trade) ∅
          end)
    with (position_for
            (mkSystem obm mdl depth aed al ac g eod el td tl tc pd pl pvd rl hp hr he cs)
            trade).
  change (apply_trade (position_for _ trade) trade) with position.
  assert (Htp : productId (trade_product trade) = pid).
  { unfold trade, trade_of_order. cbn [trade_product]. by rewrite Hprod. }
  rewrite Hpos, Htp.
  split; [reflexivity|].
  split; [by rewrite insert_delete_eq|].
  split; [reflexivity|].
  split; [reflexivity|].
  split; [|by repeat split].
  unfold risk_store. rewrite Hpos.
  destruct (pvd !! pid) as [old|] eqn:Eold.
  - rewrite lookup_alter_eq, Eold.
    by exists (UpdateQuantity (GetAggregatePosition position) old).
  - rewrite lookup_insert_eq. by exists (risk_of position v).
Qed.

End Pipeline.

Module PipelineRuns.

(** A book of US2Y whose best bid is 99-160 and best offer 99-240. *)
Definition book : OrderBook spec_float :=
  mkOrderBook Scenario.US2Y
    [ mkOrder (Binary64Exact.of_256ths 25344) 1000000 BID;
      mkOrder (Binary64Exact.of_256ths 25472) 2000000 BID ]
    [ mkOrder (Binary64Exact.of_256ths 25600) 1000000 OFFER;
      mkOrder (Binary64Exact.of_256ths 25536) 3000000 OFFER ].

Definition best : BidOffer spec_float :=
  mkBidOffer (mkOrder (Binary64Exact.of_256ths 25472) 2000000 BID)
             (mkOrder (Binary64Exact.of_256ths 25536) 3000000 OFFER).

Definition pv01_US2Y : spec_float :=
  Eval vm_compute in
    match BondAnalytics.QueryPV01 (D:=spec_float) "91282CAV3" with
    | Ok v => v
    | _ => S754_zero false
    end.

End PipelineRuns.

Lemma book_to_position_witness :
  exists (order : ExecutionOrder spec_float) (s' : @System spec_float),
    fst (CreateExecutionOrder PipelineRuns.book 0 Scenario.system0) = Ok order /\
    MarketDataService_OnMessage PipelineRuns.book Scenario.system0 = (Ok tt, s') /\
    let trade := trade_of_order 0 order in
    let position :=
      apply_trade (position_for Scenario.system0 trade) trade in
    orderBookMap s' = <["91282CAV3" := PipelineRuns.book]> ∅ /\
    executionOrderData s' = <[orderId order := order]> ∅ /\
    tradeData s' = ∅ /\
    positionData s' = <["91282CAV3" := position]> ∅ /\
    (exists risk, pv01Data s' !! "91282CAV3" = Some risk /\
       pv01_quantity risk = PositionOps.GetAggregatePosition position) /\
    outFile (historicalExecution s') = [order] /\
    outFile (historicalPosition s') = [position] /\
    outFile (historicalRisk s')
    = [mkPV01 (position_product position) PipelineRuns.pv01_US2Y
              (PositionOps.GetAggregatePosition position)].
Proof.
  apply (book_to_position PipelineRuns.book PipelineRuns.best PipelineRuns.pv01_US2Y
           Scenario.system0).
  - by repeat split.
  - intros k p H. by vm_compute in H.
  - reflexivity.
  - by vm_compute.
  - by vm_compute.
Defined.

(** The execution of that book is a purchase of the bid size at the bid,
    since the spread of 99-160 to 99-240 is wider than 1/128, and it lands
    on TRSY1. *)
Example book_to_position_run :
  exists s' pos,
    MarketDataService_OnMessage PipelineRuns.book Scenario.system0 = (Ok tt, s') /\
    positionData s' !! "91282CAV3" = Some pos /\
    PositionOps.GetPosition pos "TRSY1" = 2000000 /\
    length (outFile (historicalRisk s')) = 1%nat.
Proof.
  exists (snd (MarketDataService_OnMessage PipelineRuns.book Scenario.system0)).
  eexists. split; [by vm_compute|]. split; [by vm_compute|]. by vm_compute.
Qed.

(* ===================================================================== *)
(** * Connectors: an error ends the subscription *)
(* ===================================================================== *)

Section PriceDefects.
Context {D : Type} {dbl : Double D}.
Import Numeral.









End PriceDefects.

Section BadLines.
Context {D : Type} {dbl : Double D} {ho : HashOrder D} {ao : ArgOrder}.
Import Numeral.

(** ** A price line that does not get through *)



(** ** A market data line that does not get through *)









End BadLines.

(* ===================================================================== *)
(** * PricingService: a run of prices *)
(* ===================================================================== *)

Section PricingRun.
Context {D : Type} {dbl : Double D}.

Local Abbreviation PSys := (@PricingSystem D).
















End PricingRun.

(* ===================================================================== *)
(** * Prices under the wiring of main *)
(* ===================================================================== *)

Section PricesInMain.
Context {D : Type} {dbl : Double D}.

Local Abbreviation PSys := (@PricingSystem D).

(** The price stream that [PublishAlgoStream] makes of a price when its
    counter is [count]. *)
Definition stream_of (count : Z) (price : Price D) : PriceStream D :=
  let visibleQuantity := if Z.rem count 2 =? 0 then 1000000 else 2000000 in
  let hiddenQuantity := wrap64 (visibleQuantity * 2) in
  let half := d_div (bidOfferSpread price) (d_of_Z 2) in
  mkPriceStream (price_product price)
    (mkPriceStreamOrder (d_sub (mid price) half) visibleQuantity hiddenQuantity BID)
    (mkPriceStreamOrder (d_add (mid price) half) visibleQuantity hiddenQuantity OFFER).

(** [PersistData] of one stream, [n] times. *)
Fixpoint persist_times (n : nat) (stream : PriceStream D)
    (h : HistoricalDataService (PriceStream D)) : HistoricalDataService (PriceStream D) :=
  match n with
  | O => h
  | S n' =>
      persist_times n' stream (PersistData (productId (stream_product stream)) stream h)
  end.

Lemma persist_times_outFile (n : nat) (stream : PriceStream D) :
  forall h, outFile (persist_times n stream h) = outFile h ++ replicate n stream.
Proof.
  induction n as [|n IH]; intros h; simpl.
  - by rewrite app_nil_r.
  - rewrite IH. simpl. by rewrite <- app_assoc.
Qed.

Lemma set_historicalStreaming_twice f g (s : PSys) :
  set_historicalStreaming g (set_historicalStreaming f s)
  = set_historicalStreaming (fun h => g (f h)) s.
Proof. by destruct s. Qed.

Lemma notify_stream_run (ls : list PriceStreamListener) (stream : PriceStream D) :
  forall s : PSys,
    for_each ls (fun l => PriceStreamListener_ProcessAdd l stream) s
    = (Ok tt, set_historicalStreaming (persist_times (length ls) stream) s).
Proof.
  induction ls as [|[] ls IH]; intros s.
  - by destruct s as [? ? ? ? ? ? ? ? []].
  - simpl for_each. unfold m_bind at 1.
    unfold PriceStreamListener_ProcessAdd at 1, HistoricalStreaming_ProcessAdd, modify.
    by rewrite IH, set_historicalStreaming_twice.
Qed.

(** The services after [AddPriceStream]. *)
Definition after_AddPriceStream (stream : PriceStream D) (s : PSys) : PSys :=
  let key := productId (stream_product stream) in
  set_historicalStreaming (persist_times (length (priceStream_listeners s)) stream)
    (set_priceStreamData (fun m => <[key := stream]> (delete key m)) s).

Lemma StreamingServiceListener_ProcessAdd_run (a : AlgoStream D) (s : PSys) :
  StreamingServiceListener_ProcessAdd a s
  = (Undef, after_AddPriceStream (priceStreamRef a) s).
Proof.
  unfold StreamingServiceListener_ProcessAdd, StreamingService_AddPriceStream,
    StreamingService_PublishPrice, mbind, M_bind.
  unfold m_bind at 1. unfold m_bind at 1, modify at 1. unfold m_bind at 1, get at 1.
  rewrite notify_stream_run. unfold lift, after_AddPriceStream. by destruct s.
Qed.

(** The services when [PublishAlgoStream] has called the first of its
    listeners. *)
Definition after_PublishAlgoStream (price : Price D) (s : PSys) : PSys :=
  let key := productId (price_product price) in
  let stream := stream_of (algoStream_count s) price in
  after_AddPriceStream stream
    (set_algoStreamData (fun m => <[key := mkAlgoStream stream]> (delete key m))
       (set_algoStream_count (fun c => Long.add c 1) s)).

Lemma PublishAlgoStream_run (price : Price D) (s : PSys) (rest : list AlgoStreamListener) :
  algoStream_listeners s = StreamingServiceListener :: rest ->
  PublishAlgoStream price s = (Undef, after_PublishAlgoStream price s).
Proof.
  intros Hls. unfold PublishAlgoStream, mbind, M_bind.
  unfold m_bind at 1, get at 1. unfold m_bind at 1, modify at 1.
  unfold m_bind at 1, modify at 1. unfold m_bind at 1, get at 1.
  fold (stream_of (algoStream_count s) price).
  set (stream := stream_of (algoStream_count s) price).
  set (s1 := set_algoStreamData _ _).
  replace (algoStream_listeners s1) with (StreamingServiceListener :: rest)
    by (unfold s1; by destruct s).
  unfold m_bind at 1. simpl for_each. unfold m_bind at 1.
  unfold AlgoStreamListener_ProcessAdd at 1.
  rewrite StreamingServiceListener_ProcessAdd_run. reflexivity.
Qed.

(** X22.  Under the wiring of main no price gets past StreamingService.
    When the listener of AlgoStreamingService is the first listener of
    PricingService and the listener of StreamingService is the first of
    AlgoStreamingService, OnMessage on any price stores the price, makes
    the price stream of it, stores the stream in AlgoStreamingService and
    in StreamingService and persists it once for each listener of
    StreamingService, and then calls Publish through the connector
    pointer that the constructor of StreamingService never sets: from
    there on the behaviour is undefined.  Neither the listener of
    GUIService nor any other listener registered after the first is
    called. *)
Theorem price_reaches_unset_connector
    (price : Price D) (s : PSys)
    (rest : list PriceListener) (rest' : list AlgoStreamListener) :
  pricing_listeners s = AlgoStreamingServiceListener :: rest ->
  algoStream_listeners s = StreamingServiceListener :: rest' ->
  let key := productId (price_product price) in
  let stream := stream_of (algoStream_count s) price in
  exists s',
    PricingService_OnMessage price s = (Undef, s') /\
    priceData s' = <[key := price]> (priceData s) /\
    algoStreamData s' = <[key := mkAlgoStream stream]> (algoStreamData s) /\
    priceStreamData s' = <[key := stream]> (priceStreamData s) /\
    outFile (historicalStreaming s')
    = outFile (historicalStreaming s)
      ++ replicate (length (priceStream_listeners s)) stream /\
    guiService s' = guiService s /\
    clock_reads s' = clock_reads s /\
    pricing_calls s'
    = pricing_calls s
      ++ [OnMessage_Price price; ProcessAdd_Price AlgoStreamingServiceListener price].
Proof.
  intros Hpl Hal key stream.
  set (s0 := set_pricing_calls
               (fun cs => cs ++ [ProcessAdd_Price AlgoStreamingServiceListener price])
               (set_priceData (fun m => <[key := price]> (delete key m))
                  (set_pricing_calls (fun cs => cs ++ [OnMessage_Price price]) s))).
  assert (Hal0 : algoStream_listeners s0 = StreamingServiceListener :: rest')
    by (unfold s0; by destruct s).
  exists (after_PublishAlgoStream price s0). split.
  - unfold PricingService_OnMessage, mbind, M_bind.
    unfold m_bind at 1, modify at 1. unfold m_bind at 1, modify at 1.
    unfold m_bind at 1, get at 1.
    replace (pricing_listeners _) with (AlgoStreamingServiceListener :: rest)
      by (by destruct s).
    simpl for_each. unfold m_bind at 1.
    unfold PriceListener_ProcessAdd at 1, mbind, M_bind.
    unfold m_bind at 1, modify at 1. fold key. fold s0.
    by rewrite (PublishAlgoStream_run price s0 rest' Hal0).
  - unfold after_PublishAlgoStream, after_AddPriceStream.
    replace (algoStream_count s0) with (algoStream_count s) by (by destruct s).
    fold stream.
    change (productId (stream_product stream)) with key.
    unfold s0. destruct s. simpl.
    rewrite !insert_delete_eq, persist_times_outFile, <- app_assoc. done.
Qed.

End PricesInMain.

Module PricingRuns.

Import Scenario Runs.

(** A pricing service with the listener of [GUIService] only. *)
Definition pricing_gui : @PricingSystem spec_float :=
  snd (PricingService_AddListener GUIServiceListener (initial_PricingSystem clock0)).



Definition two_prices : list (Price spec_float) :=
  [ mkPrice US2Y (Binary64.of_Z 100) (Binary64.of_Z 0);
    mkPrice US2Y (Binary64.of_Z 101) (Binary64.of_Z 0) ].

End PricingRuns.

(** The digits after the dash are not checked against their range:
    99-999 reads as 99 + 99/32 + 9/256, and a line with such a price goes
    through. *)
Example Frac2Price_digits_unchecked :
  Frac2Price "99-999" = Ok (Binary64Exact.of_256ths 26145).
Proof. by vm_compute. Qed.




(** Both prices of that run reach the GUI: the clock is read a second
    apart, and the throttle is 300 milliseconds. *)
Example two_prices_published :
  gui_published
    (guiService (snd (for_each PricingRuns.two_prices PricingService_OnMessage
                        PricingRuns.pricing_gui)))
  = PricingRuns.two_prices.
Proof. by vm_compute. Qed.

Lemma price_reaches_unset_connector_witness :
  let price := mkPrice Scenario.US2Y (Binary64.of_Z 100) (Binary64.of_Z 0) in
  let stream := stream_of 0 price in
  exists s',
    PricingService_OnMessage price Runs.pricing0 = (Undef, s') /\
    priceData s' = <["91282CAV3" := price]> ∅ /\
    algoStreamData s' = <["91282CAV3" := mkAlgoStream stream]> ∅ /\
    priceStreamData s' = <["91282CAV3" := stream]> ∅ /\
    outFile (historicalStreaming s') = [] ++ replicate 1 stream /\
    guiService s' = guiService Runs.pricing0 /\
    clock_reads s' = 1%nat /\
    pricing_calls s'
    = [] ++ [OnMessage_Price price; ProcessAdd_Price AlgoStreamingServiceListener price].
Proof.
  apply (price_reaches_unset_connector
           (mkPrice Scenario.US2Y (Binary64.of_Z 100) (Binary64.of_Z 0))
           Runs.pricing0 [GUIServiceListener] []); reflexivity.
Defined.

(** The first line of the price file, with the services as main wires
    them. *)
Example first_price_line_in_main :
  fst (PricingConnector_Subscribe [Runs.price_header; Runs.price_line] Runs.pricing0)
  = Undef.
Proof. by vm_compute. Qed.
